(** * Easy Git Switcher: profile store and device-authorization dialog

    A shallow embedding of [src/app.py] (the table front-end; [src/main.py]
    carries the same core methods over a list widget, with [edit_tag] in the
    place of [edit_profile]).  Widgets, style sheets
    and logging are left out; every message box is kept as an event of the
    [ui] log, because it is the only way an operation reports success or
    failure. *)

From Stdlib Require Import List String Ascii ZArith Bool Lia DecimalString.
Import ListNotations.
Open Scope string_scope.

(** ** Python values *)

Module Py.

(** Truth value of an [Optional[str]]: [None] and [''] are falsy. *)
Definition truthy (v : option string) : bool :=
  match v with
  | Some s => negb (s =? "")
  | None => false
  end.

(** [v or d] for an [Optional[str]] on the left. *)
Definition or_ (v : option string) (d : string) : string :=
  match v with
  | Some s => if s =? "" then d else s
  | None => d
  end.

(** [d.get(key, default)] once the slot of [key] has been read. *)
Definition get (v : option string) (default : string) : string :=
  match v with
  | Some s => s
  | None => default
  end.

Definition is_some {A} (v : option A) : bool :=
  match v with
  | Some _ => true
  | None => false
  end.

(** [str(n)] for an [int], as an f-string prints it. *)
Definition str_int (n : Z) : string := NilZero.string_of_int (Z.to_int n).

(** A [str] is held as the bytes of its UTF-8 encoding.  The white space
    [str.strip()] removes is every character whose [isspace()] is true: in
    ASCII the tab, line feed, vertical tab, form feed, carriage return, the
    four separators 28-31 and the space; beyond ASCII U+0085 and U+00A0 (two
    bytes), and U+1680, U+2000 to U+200A, U+2028, U+2029, U+202F, U+205F and
    U+3000 (three bytes). *)
Definition isspace (c : ascii) : bool :=
  let n := nat_of_ascii c in
  (Nat.leb 9 n && Nat.leb n 13) || (Nat.leb 28 n && Nat.leb n 32).

(** U+0085 is C2 85 and U+00A0 is C2 A0. *)
Definition isspace2 (a b : ascii) : bool :=
  let n := nat_of_ascii b in
  (Nat.eqb n 133 || Nat.eqb n 160) && Nat.eqb (nat_of_ascii a) 194.

(** U+1680 is E1 9A 80, U+2000 to U+200A are E2 80 80 to E2 80 8A, U+2028,
    U+2029 and U+202F are E2 80 A8, E2 80 A9 and E2 80 AF, U+205F is
    E2 81 9F and U+3000 is E3 80 80. *)
Definition isspace3 (a b c : ascii) : bool :=
  let x := nat_of_ascii a in
  let y := nat_of_ascii b in
  let z := nat_of_ascii c in
  Nat.leb 128 z
  && ((Nat.eqb x 225 && Nat.eqb y 154 && Nat.eqb z 128)
      || (Nat.eqb x 226 && Nat.eqb y 128
          && (Nat.leb z 138 || Nat.eqb z 168 || Nat.eqb z 169 || Nat.eqb z 175))
      || (Nat.eqb x 226 && Nat.eqb y 129 && Nat.eqb z 159)
      || (Nat.eqb x 227 && Nat.eqb y 128 && Nat.eqb z 128)).

Fixpoint lstrip (s : string) : string :=
  match s with
  | String a s1 =>
      if isspace a then lstrip s1
      else
        match s1 with
        | String b s2 =>
            if isspace2 a b then lstrip s2
            else
              match s2 with
              | String c s3 => if isspace3 a b c then lstrip s3 else s
              | EmptyString => s
              end
        | EmptyString => s
        end
  | EmptyString => EmptyString
  end.

(** The text is cut where what follows is white space to the end. *)
Fixpoint rstrip (s : string) : string :=
  match s with
  | String c s' =>
      match lstrip s with
      | EmptyString => EmptyString
      | _ => String c (rstrip s')
      end
  | EmptyString => EmptyString
  end.

Definition strip (s : string) : string := rstrip (lstrip s).

(** ['stderr' in line] *)
Fixpoint contains (sub s : string) : bool :=
  String.prefix sub s
  || match s with
     | String _ s' => contains sub s'
     | EmptyString => false
     end.

(** [sorted] on a list of strings (code-point order is byte order on
    UTF-8); insertion sort, stable like Python's. *)
Fixpoint insert (x : string) (l : list string) : list string :=
  match l with
  | [] => [x]
  | y :: l' => if String.leb x y then x :: l else y :: insert x l'
  end.

Definition sorted (l : list string) : list string :=
  fold_right insert [] l.

End Py.

(** ** Dictionaries in insertion order *)

Section Dict.
Context {V : Type}.

Definition dict := list (string * V).

Fixpoint dict_get (k : string) (d : dict) : option V :=
  match d with
  | [] => None
  | (k', v) :: d' => if k' =? k then Some v else dict_get k d'
  end.

Definition dict_mem (k : string) (d : dict) : bool :=
  Py.is_some (dict_get k d).

(** [d[k] = v]: an existing key keeps its position, a new one goes last. *)
Fixpoint dict_set (k : string) (v : V) (d : dict) : dict :=
  match d with
  | [] => [(k, v)]
  | (k', v') :: d' =>
      if k' =? k then (k, v) :: d' else (k', v') :: dict_set k v d'
  end.

(** [d[k][field] = ...]: in-place change of the value stored under [k]. *)
Fixpoint dict_update (k : string) (f : V -> V) (d : dict) : dict :=
  match d with
  | [] => []
  | (k', v) :: d' =>
      if k' =? k then (k', f v) :: d' else (k', v) :: dict_update k f d'
  end.

(** [del d[k]] (callers test [k in d] first). *)
Fixpoint dict_del (k : string) (d : dict) : dict :=
  match d with
  | [] => []
  | (k', v) :: d' => if k' =? k then d' else (k', v) :: dict_del k d'
  end.

Definition keys (d : dict) : list string := map fst d.
Definition values (d : dict) : list V := map snd d.

(** [for v in d.values(): v[...] = ...] *)
Definition dict_map_values (f : string -> V -> V) (d : dict) : dict :=
  map (fun kv => (fst kv, f (fst kv) (snd kv))) d.

End Dict.

Arguments dict V : clear implicits.

(** ** Data model *)

(** A profile is a JSON object; a field is [None] when its key is absent.
    [avatar_url] may be present with value [None]. *)
Record Profile := mkProfile {
  token : option string;
  name : option string;
  email : option string;
  tag : option string;
  avatar_url : option (option string);
  is_current : option bool
}.

(** The dictionary returned by [get_git_credentials]. *)
Record GitProfile := mkGitProfile {
  gp_username : option string;
  gp_password : option string;
  gp_name : option string;
  gp_email : option string
}.

Definition set_email (v : string) (p : Profile) : Profile :=
  mkProfile (token p) (name p) (Some v) (tag p) (avatar_url p) (is_current p).

Definition set_name (v : string) (p : Profile) : Profile :=
  mkProfile (token p) (Some v) (email p) (tag p) (avatar_url p) (is_current p).

Definition set_tag (v : string) (p : Profile) : Profile :=
  mkProfile (token p) (name p) (email p) (Some v) (avatar_url p) (is_current p).

Definition set_is_current (b : bool) (p : Profile) : Profile :=
  mkProfile (token p) (name p) (email p) (tag p) (avatar_url p) (Some b).

(** [profile.get('is_current', False)] *)
Definition get_is_current (p : Profile) : bool :=
  match is_current p with
  | Some b => b
  | None => false
  end.

(** [if profile:] — a dictionary is truthy when it has a key. *)
Definition profile_truthy (p : Profile) : bool :=
  Py.is_some (token p) || Py.is_some (name p) || Py.is_some (email p)
  || Py.is_some (tag p) || Py.is_some (avatar_url p) || Py.is_some (is_current p).

(** [d[k].get(field)] for a key known to be in [d]. *)
Definition item_get (field : Profile -> option string) (k : string)
    (d : dict Profile) : option string :=
  match dict_get k d with
  | Some p => field p
  | None => None
  end.

(** ** The merge of [merge_profiles] (lines 403-420): the dictionary that
    becomes [self.profiles]. *)
Definition merge_profiles_dict (keyring_profiles : dict Profile)
    (git_profile : GitProfile) : dict Profile :=
  match gp_username git_profile with
  | Some username =>
      if negb (username =? "") && Py.is_some (gp_password git_profile) then
        if dict_mem username keyring_profiles then
          let kp1 :=
            if Py.truthy (gp_email git_profile)
               && negb (Py.truthy (item_get email username keyring_profiles))
            then dict_update username (set_email (Py.get (gp_email git_profile) ""))
                   keyring_profiles
            else keyring_profiles in
          if Py.truthy (gp_name git_profile)
             && negb (Py.truthy (item_get name username kp1))
          then dict_update username (set_name (Py.get (gp_name git_profile) "")) kp1
          else kp1
        else
          dict_set username
            (mkProfile (gp_password git_profile)
               (Some (Py.or_ (gp_name git_profile) username))
               (Some (Py.or_ (gp_email git_profile) ""))
               (Some "N/A") None None)
            keyring_profiles
      else keyring_profiles
  | None => keyring_profiles
  end.

(** ** The outside world: git, the keyring, the message boxes *)

Inductive ConfigKey := UserName | UserEmail | CredentialHelper.

Inductive GitCmd :=
| ConfigGet (key : ConfigKey)       (* git config --global <key> *)
| ConfigSet (key : ConfigKey)       (* git config --global <key> <value> *)
| ConfigUnset (key : ConfigKey)     (* git config --global --unset <key> *)
| CredentialFill                    (* git credential fill *)
| CredentialApprove                 (* git credential approve *)
| CredentialRejectUser              (* git credential reject, one user name *)
| CredentialRejectHost.             (* git credential reject, all of github.com *)

(** [git_installed] tells whether the executable can be started at all (if not,
    [subprocess.run] raises [FileNotFoundError]); [git_fails] tells which
    commands exit with a non-zero status, and such a command has no effect.
    Both are fixed while one operation of the manager runs.  [git_credentials]
    is the helper's store for github.com, user name to password. *)
Record Git := mkGit {
  git_installed : bool;
  git_fails : GitCmd -> bool;
  git_config : ConfigKey -> option string;
  git_credentials : dict string
}.

Inductive KeyringOp := GetPassword | SetPassword | DeletePassword.

(** The index of the keyring: [save_profiles] stores
    [','.join(self.profiles.keys())] under ['usernames'] (line 622) and
    [load_keyring_profiles] reads it back with [usernames.split(',')] when
    it is not empty (lines 390-392). *)

Fixpoint join_comma (l : list string) : string :=
  match l with
  | [] => ""
  | x :: l' =>
      match l' with
      | [] => x
      | _ :: _ => x ++ "," ++ join_comma l'
      end
  end.

Fixpoint split_comma (s : string) : list string :=
  match s with
  | EmptyString => [""]
  | String c s' =>
      if Ascii.eqb c "," then "" :: split_comma s'
      else
        match split_comma s' with
        | x :: r => String c x :: r
        | [] => [String c ""]
        end
  end.

(** [if usernames: for username in usernames.split(','): ...] *)
Definition index_usernames (usernames : option string) : list string :=
  if Py.truthy usernames then split_comma (Py.get usernames "") else [].

(** The ['github'] service of the keyring: the text stored under
    ['usernames'], if any, and one record per user name (an entry that is
    not valid JSON is skipped by the loader like a missing one, so it is not
    represented).  In the keyring the record of a profile called
    [usernames] shares its slot with the index; the two are kept apart here,
    so what is stated below about the content of the keyring leaves that
    user name out. *)
Record Keyring := mkKeyring {
  kr_fails : KeyringOp -> bool;
  kr_usernames : option string;
  kr_records : dict Profile
}.

Inductive Exn :=
| CalledProcessError (cmd : GitCmd)
| FileNotFoundError
| KeyringError
| RequestException
| KeyError (key : string)
| Exception (message : string).

(** [Critical message error] is [ErrorBoundary.handle_error(error, message)];
    [CriticalStr message error] is
    [ErrorBoundary.handle_error(error, message + str(error))], the call of
    [delete_profile], whose message repeats the text of the error. *)
Inductive UiEvent :=
| Critical (message : string) (error : Exn)
| CriticalStr (message : string) (error : Exn)
| Warning (text : string)                     (* QMessageBox.warning *)
| Information (text : string).                (* QMessageBox.information *)

(** The manager: [self.profiles] and the world it acts on. *)
Record App := mkApp {
  profiles : dict Profile;
  git : Git;
  keyring : Keyring;
  ui : list UiEvent
}.

(** ** A state monad with exceptions

    A raised exception keeps the state reached so far: what a method mutated
    before it raised stays mutated. *)

Inductive Res (A : Type) :=
| Ok (a : A)
| Raise (e : Exn).
Arguments Ok {A} a.
Arguments Raise {A} e.

Definition M (A : Type) := App -> Res A * App.

Definition ret {A} (a : A) : M A := fun s => (Ok a, s).

Definition raise {A} (e : Exn) : M A := fun s => (Raise e, s).

Definition bind {A B} (m : M A) (k : A -> M B) : M B :=
  fun s =>
    match m s with
    | (Ok a, s') => k a s'
    | (Raise e, s') => (Raise e, s')
    end.

(** [try: body except <classes>: handler]; [catches] tells the classes. *)
Definition try_except {A} (body : M A) (catches : Exn -> bool)
    (handler : Exn -> M A) : M A :=
  fun s =>
    match body s with
    | (Ok a, s') => (Ok a, s')
    | (Raise e, s') => if catches e then handler e s' else (Raise e, s')
    end.

Declare Scope monad_scope.
Delimit Scope monad_scope with monad.
Notation "x <- m ;; k" := (bind m (fun x => k))
  (at level 61, m at next level, right associativity) : monad_scope.
Notation "m ;; k" := (bind m (fun _ => k))
  (at level 61, right associativity) : monad_scope.
Open Scope monad_scope.

Definition is_CalledProcessError (e : Exn) : bool :=
  match e with
  | CalledProcessError _ => true
  | _ => false
  end.

Definition is_RequestException (e : Exn) : bool :=
  match e with
  | RequestException => true
  | _ => false
  end.

(** [except Exception] *)
Definition is_Exception (e : Exn) : bool := true.

Definition get_profiles : M (dict Profile) := fun s => (Ok (profiles s), s).

Definition set_profiles (d : dict Profile) : M unit :=
  fun s => (Ok tt, mkApp d (git s) (keyring s) (ui s)).

Definition set_git (g : Git) : M unit :=
  fun s => (Ok tt, mkApp (profiles s) g (keyring s) (ui s)).

Definition set_keyring (k : Keyring) : M unit :=
  fun s => (Ok tt, mkApp (profiles s) (git s) k (ui s)).

Definition show (e : UiEvent) : M unit :=
  fun s => (Ok tt, mkApp (profiles s) (git s) (keyring s) (ui s ++ [e])).

(** [ErrorBoundary.handle_error] *)
Definition handle_error (error : Exn) (message : string) : M unit :=
  show (Critical message error).

(** [subprocess.run([...], check=check)] for a command that writes: [effect]
    is what the command does to git when it exits with status 0. *)
Definition subprocess_run (check : bool) (cmd : GitCmd) (effect : Git -> Git)
    : M unit :=
  fun s =>
    if negb (git_installed (git s)) then (Raise FileNotFoundError, s)
    else if git_fails (git s) cmd then
      if check then (Raise (CalledProcessError cmd), s) else (Ok tt, s)
    else (Ok tt, mkApp (profiles s) (effect (git s)) (keyring s) (ui s)).

(** [subprocess.run([...], capture_output=True, check=check).stdout] for
    [git config --global <key>]: the value and a line feed, nothing when the
    command fails or the key is not set. *)
Definition subprocess_stdout (check : bool) (key : ConfigKey) : M string :=
  fun s =>
    if negb (git_installed (git s)) then (Raise FileNotFoundError, s)
    else if git_fails (git s) (ConfigGet key) then
      if check then (Raise (CalledProcessError (ConfigGet key)), s) else (Ok "", s)
    else
      match git_config (git s) key with
      | Some v => (Ok (v ++ String "010" ""), s)
      | None => (Ok "", s)
      end.

Definition config_key_eqb (a b : ConfigKey) : bool :=
  match a, b with
  | UserName, UserName | UserEmail, UserEmail
  | CredentialHelper, CredentialHelper => true
  | _, _ => false
  end.

Definition config_set (key : ConfigKey) (v : option string) (g : Git) : Git :=
  mkGit (git_installed g) (git_fails g)
    (fun k => if config_key_eqb k key then v else git_config g k)
    (git_credentials g).

Definition credentials_set (c : dict string) (g : Git) : Git :=
  mkGit (git_installed g) (git_fails g) (git_config g) c.

(** [keyring.get_password], [set_password], [delete_password] on the
    ['github'] service; an unavailable backend raises. *)
Definition keyring_run {A} (op : KeyringOp) (result : Keyring -> A)
    (effect : Keyring -> Keyring) : M A :=
  fun s =>
    if kr_fails (keyring s) op then (Raise KeyringError, s)
    else (Ok (result (keyring s)),
          mkApp (profiles s) (git s) (effect (keyring s)) (ui s)).

Definition keyring_get_usernames : M (option string) :=
  keyring_run GetPassword kr_usernames (fun k => k).

Definition keyring_get_password (username : string) : M (option Profile) :=
  keyring_run GetPassword (fun k => dict_get username (kr_records k)) (fun k => k).

Definition keyring_set_usernames (usernames : string) : M unit :=
  keyring_run SetPassword (fun _ => tt)
    (fun k => mkKeyring (kr_fails k) (Some usernames) (kr_records k)).

Definition keyring_set_password (username : string) (p : Profile) : M unit :=
  keyring_run SetPassword (fun _ => tt)
    (fun k => mkKeyring (kr_fails k) (kr_usernames k)
                (dict_set username p (kr_records k))).

Definition keyring_delete_password (username : string) : M unit :=
  keyring_run DeletePassword (fun _ => tt)
    (fun k => mkKeyring (kr_fails k) (kr_usernames k)
                (dict_del username (kr_records k))).

Fixpoint for_each {A} (l : list A) (body : A -> M unit) : M unit :=
  match l with
  | [] => ret tt
  | x :: l' => body x ;; for_each l' body
  end.

(** ** The methods of [GitHubProfileManager] *)

Definition save_profiles : M unit :=
  try_except
    (P <- get_profiles ;;
     keyring_set_usernames (join_comma (keys P)) ;;
     for_each P (fun kv => keyring_set_password (fst kv) (snd kv)))
    is_Exception
    (fun e => handle_error e "Failed to save profiles").

Fixpoint load_keyring_loop (usernames : list string)
    (keyring_profiles : dict Profile) : M (dict Profile) :=
  match usernames with
  | [] => ret keyring_profiles
  | username :: rest =>
      profile_data <- keyring_get_password username ;;
      match profile_data with
      | Some p => load_keyring_loop rest (dict_set username p keyring_profiles)
      | None => load_keyring_loop rest keyring_profiles
      end
  end.

Definition load_keyring_profiles : M (dict Profile) :=
  usernames <- keyring_get_usernames ;;
  load_keyring_loop (index_usernames usernames) [].

Definition get_git_user_info : M (string * string) :=
  try_except
    (n <- subprocess_stdout true UserName ;;
     e <- subprocess_stdout true UserEmail ;;
     ret (Py.strip n, Py.strip e))
    is_CalledProcessError
    (fun _ => ret ("", "")).

(** What the comprehension of line 363 keeps of the line [key=value] of the
    helper's answer, for [key] one of [username] and [password]: nothing
    when ['stderr'] occurs in the line, the stripped value otherwise. *)
Definition credential_entry (key value : string) : option string :=
  if Py.contains "stderr" (key ++ "=" ++ value) then None
  else Some (Py.strip value).

(** [git credential fill] and the parse of its answer: the [username] and
    [password] entries of the dictionary [credentials].  The helper answers
    with the first stored credential, one [username=] and one [password=]
    line; an empty store gives neither. *)
Definition credential_fill : M (option string * option string) :=
  fun s =>
    if negb (git_installed (git s)) then (Raise FileNotFoundError, s)
    else if git_fails (git s) CredentialFill then
      (Raise (CalledProcessError CredentialFill), s)
    else
      match git_credentials (git s) with
      | (u, p) :: _ =>
          (Ok (credential_entry "username" u, credential_entry "password" p), s)
      | [] => (Ok (None, None), s)
      end.

Definition empty_git_profile : GitProfile := mkGitProfile None None None None.

Definition get_git_credentials : M GitProfile :=
  try_except
    (credentials <- credential_fill ;;
     info <- get_git_user_info ;;
     match credentials with
     | (Some u, Some p) =>
         ret (mkGitProfile (Some u) (Some p) (Some (fst info)) (Some (snd info)))
     | _ => ret empty_git_profile
     end)
    is_CalledProcessError
    (fun _ => ret empty_git_profile).

Definition merge_profiles (keyring_profiles : dict Profile)
    (git_profile : GitProfile) : M unit :=
  set_profiles (merge_profiles_dict keyring_profiles git_profile) ;;
  save_profiles.

(** The loop of [get_current_profile] (lines 464-469). *)
Fixpoint find_current (current_name current_email : string)
    (d : dict Profile) : option string :=
  match d with
  | [] => None
  | (username, profile) :: d' =>
      if (Py.get (name profile) "" =? current_name)
         && (Py.get (email profile) "" =? current_email)
      then Some username
      else find_current current_name current_email d'
  end.

Definition get_current_profile : M (option string) :=
  try_except
    (result_name <- subprocess_stdout false UserName ;;
     result_email <- subprocess_stdout false UserEmail ;;
     P <- get_profiles ;;
     ret (find_current (Py.strip result_name) (Py.strip result_email) P))
    is_CalledProcessError
    (fun _ => ret None).

Definition mark_current (new_current_username : string) (d : dict Profile)
    : dict Profile :=
  dict_map_values
    (fun username p => set_is_current (username =? new_current_username) p) d.

Definition update_current_profile (new_current_username : string) : M unit :=
  P <- get_profiles ;;
  set_profiles (mark_current new_current_username P) ;;
  save_profiles.

Definition remove_all_github_credentials : M unit :=
  try_except
    (subprocess_run true CredentialRejectHost (credentials_set []))
    is_CalledProcessError
    (fun _ => ret tt).

Definition remove_git_credential (username : string) : M unit :=
  try_except
    (subprocess_run true CredentialRejectUser
       (fun g => credentials_set (dict_del username (git_credentials g)) g))
    is_CalledProcessError
    (fun _ => ret tt).

Definition update_git_config (username name email token : string) : M unit :=
  try_except
    (remove_all_github_credentials ;;
     subprocess_run true (ConfigSet UserName) (config_set UserName (Some name)) ;;
     subprocess_run true (ConfigSet UserEmail) (config_set UserEmail (Some email)) ;;
     subprocess_run true (ConfigSet CredentialHelper)
       (config_set CredentialHelper (Some "manager-core")) ;;
     subprocess_run true CredentialApprove
       (fun g => credentials_set (dict_set username token (git_credentials g)) g))
    is_CalledProcessError
    (fun e => handle_error e "Failed to update Git config").

Definition switch_to_profile (username : string) : M unit :=
  P <- get_profiles ;;
  match dict_get username P with
  | Some profile =>
      if profile_truthy profile then
        if Py.truthy (token profile) then
          update_git_config username (Py.get (name profile) username)
            (Py.get (email profile) "") (Py.get (token profile) "") ;;
          update_current_profile username ;;
          show (Information ("Switched to profile: " ++ username))
        else raise (Exception "Token not found for the selected profile")
      else raise (Exception "Profile data is not available")
  | None => raise (Exception "Profile data is not available")
  end.

(** [selected] is the user name in the selected row of the table, if any. *)
Definition switch_profile (selected : option string) : M unit :=
  try_except
    match selected with
    | Some username =>
        P <- get_profiles ;;
        match dict_get username P with
        | Some profile =>
            if profile_truthy profile then
              if Py.truthy (token profile) then
                update_git_config username (Py.get (name profile) username)
                  (Py.get (email profile) "") (Py.get (token profile) "") ;;
                update_current_profile username ;;
                show (Information ("Switched to profile: " ++ username))
              else raise (Exception "Token not found for the selected profile")
            else raise (Exception "Profile data is not available")
        | None => raise (Exception "Profile data is not available")
        end
    | None => show (Warning "No profile selected")
    end
    is_Exception
    (fun e => handle_error e "Failed to switch profile").

Definition clear_current (d : dict Profile) : dict Profile :=
  dict_map_values (fun _ p => set_is_current false p) d.

Definition clear_git_config : M unit :=
  try_except
    (subprocess_run true (ConfigUnset UserName) (config_set UserName None) ;;
     subprocess_run true (ConfigUnset UserEmail) (config_set UserEmail None) ;;
     subprocess_run true (ConfigUnset CredentialHelper)
       (config_set CredentialHelper None) ;;
     remove_all_github_credentials ;;
     P <- get_profiles ;;
     set_profiles (clear_current P) ;;
     save_profiles ;;
     show (Information "Git configuration cleared"))
    is_CalledProcessError
    (fun e => handle_error e "Failed to clear Git config").

(** [reply_yes] is the answer to the confirmation asked when the selected
    profile is the current one. *)
Definition delete_profile (selected : option string) (reply_yes : bool) : M unit :=
  try_except
    match selected with
    | Some username =>
        P <- get_profiles ;;
        match dict_get username P with
        | Some profile =>
            let is_current := get_is_current profile in
            if is_current && negb reply_yes then ret tt
            else
              set_profiles (dict_del username P) ;;
              keyring_delete_password username ;;
              remove_git_credential username ;;
              save_profiles ;;
              (if is_current then
                 P' <- get_profiles ;;
                 match P' with
                 | _ :: _ => switch_to_profile (hd "" (Py.sorted (keys P')))
                 | [] => clear_git_config
                 end
               else ret tt) ;;
              show (Information ("Deleted profile: " ++ username))
        | None =>
            raise (Exception ("Profile " ++ username ++ " not found in stored profiles"))
        end
    | None => show (Warning "No profile selected")
    end
    is_Exception
    (fun e => show (CriticalStr "Failed to delete profile: " e)).

(** [accepted] and the three texts are what the edit dialog returns. *)
Definition edit_profile (selected : option string) (accepted : bool)
    (new_name new_email new_tag : string) : M unit :=
  try_except
    match selected with
    | Some username =>
        P <- get_profiles ;;
        match dict_get username P with
        | Some profile =>
            if profile_truthy profile then
              if accepted then
                set_profiles
                  (dict_update username
                     (fun p => set_tag new_tag (set_email new_email (set_name new_name p)))
                     P) ;;
                save_profiles ;;
                (if get_is_current profile then
                   if Py.truthy (token profile) then
                     update_git_config username new_name new_email
                       (Py.get (token profile) "")
                   else ret tt
                 else ret tt) ;;
                show (Information ("Updated profile for " ++ username))
              else ret tt
            else show (Warning "Profile data not found")
        | None => show (Warning "Profile data not found")
        end
    | None => show (Warning "No profile selected")
    end
    is_Exception
    (fun e => handle_error e "Failed to edit profile").

(** [edit_tag] of [src/main.py], which the list front-end has in the place
    of [edit_profile]; [new_tag] and [ok] are what the prompt returns. *)
Definition edit_tag (selected : option string) (new_tag : string) (ok : bool)
    : M unit :=
  try_except
    match selected with
    | Some username =>
        P <- get_profiles ;;
        match dict_get username P with
        | Some _ =>
            if ok then
              set_profiles (dict_update username (set_tag new_tag) P) ;;
              save_profiles ;;
              show (Information ("Updated tag for " ++ username))
            else ret tt
        | None => raise (KeyError username)
        end
    | None => show (Warning "No profile selected")
    end
    is_Exception
    (fun e => handle_error e "Failed to edit tag").

(** What [requests.get(GITHUB_API_URL)] gives: a network error, or a status
    code with the [login], [name], [email] and [avatar_url] of the body. *)
Inductive UserInfoResponse :=
| NetworkError
| Status (code : Z) (login name email avatar_url : option string).

Definition UserInfo : Type :=
  option string * option string * option string * option string.

Definition get_github_user_info (response : UserInfoResponse) : M UserInfo :=
  try_except
    match response with
    | NetworkError => raise RequestException
    | Status code login name email avatar_url =>
        if (code =? 200)%Z then ret (login, name, email, avatar_url)
        else raise (Exception ("GitHub API error: " ++ Py.str_int code))
    end
    is_RequestException
    (fun e =>
       handle_error e "Failed to retrieve GitHub user information" ;;
       ret (None, None, None, None)).

(** [tag] and [ok] are what the tag prompt returns. *)
Definition handle_oauth_completion (token : string) (response : UserInfoResponse)
    (tag : string) (ok : bool) : M unit :=
  if token =? "" then show (Warning "Failed to obtain access token")
  else
    try_except
      (info <- get_github_user_info response ;;
       let '(login, name, email, avatar_url) := info in
       match login with
       | Some username =>
           if negb (username =? "") then
             P <- get_profiles ;;
             if negb (dict_mem username P) then
               if ok then
                 set_profiles
                   (dict_set username
                      (mkProfile (Some token) (Some (Py.or_ name username))
                         (Some (Py.or_ email "")) (Some tag) (Some avatar_url) None)
                      P) ;;
                 save_profiles ;;
                 current <- get_current_profile ;;
                 if negb (Py.truthy current) then
                   update_current_profile username ;;
                   switch_to_profile username ;;
                   show (Information ("Added profile for " ++ username ++ " as current"))
                 else show (Information ("Added profile for " ++ username))
               else ret tt
             else show (Information ("Profile for " ++ username ++ " already exists"))
           else ret tt
       | None => ret tt
       end)
      is_Exception
      (fun e => handle_error e "Failed to complete OAuth process").

Definition load_profiles : M unit :=
  try_except
    (keyring_profiles <- load_keyring_profiles ;;
     git_profile <- get_git_credentials ;;
     merge_profiles keyring_profiles git_profile ;;
     current_profile <- get_current_profile ;;
     if Py.truthy current_profile then
       update_current_profile (Py.get current_profile "")
     else
       P <- get_profiles ;;
       set_profiles (clear_current P) ;;
       save_profiles)
    is_Exception
    (fun e => handle_error e "Failed to load profiles").

(** [GitHubProfileManager.__init__] *)
Definition init : M unit :=
  set_profiles [] ;;
  load_profiles ;;
  current_profile <- get_current_profile ;;
  if Py.truthy current_profile then
    update_current_profile (Py.get current_profile "")
  else ret tt.

(** ** The device-authorization dialog, [GitHubOAuthDialog] *)

Module OAuth.

Inductive DialogCode := Accepted | Rejected.

(** The fields of the dialog that its two timers read and write.
    [emitted] lists the [auth_completed] signals in order, [result] is set
    by [accept()] and [reject()], [warnings] are the message boxes. *)
Record Dialog := mkDialog {
  expires_in : Z;
  interval : Z;
  timer_active : bool;
  poll_timer_active : bool;
  poll_timer_interval : Z;
  retry_enabled : bool;
  timer_label : Z;
  result : option DialogCode;
  emitted : list string;
  warnings : list string;
  errors : list Exn
}.

(** [__init__] and [init_ui] *)
Definition init_ui (expires_in interval : Z) : Dialog :=
  mkDialog expires_in interval true true (interval * 1000) false expires_in
    None [] [] [].

Definition update_timer (d : Dialog) : Dialog :=
  let expires_in' := (expires_in d - 1)%Z in
  let stop := (expires_in' <=? 0)%Z in
  mkDialog expires_in' (interval d)
    (if stop then false else timer_active d)
    (poll_timer_active d) (poll_timer_interval d)
    (if stop then true else retry_enabled d)
    expires_in' (result d) (emitted d) (warnings d) (errors d).

(** [self.auth_completed.emit(token)] *)
Definition emit (token : string) (d : Dialog) : Dialog :=
  mkDialog (expires_in d) (interval d) (timer_active d) (poll_timer_active d)
    (poll_timer_interval d) (retry_enabled d) (timer_label d) (result d)
    (emitted d ++ [token]) (warnings d) (errors d).

(** [QMessageBox.warning(self, "Error", text)] *)
Definition warning (text : string) (d : Dialog) : Dialog :=
  mkDialog (expires_in d) (interval d) (timer_active d) (poll_timer_active d)
    (poll_timer_interval d) (retry_enabled d) (timer_label d) (result d)
    (emitted d) (warnings d ++ [text]) (errors d).

(** [ErrorBoundary.handle_error(e, "Error polling for access token")] *)
Definition critical (e : Exn) (d : Dialog) : Dialog :=
  mkDialog (expires_in d) (interval d) (timer_active d) (poll_timer_active d)
    (poll_timer_interval d) (retry_enabled d) (timer_label d) (result d)
    (emitted d) (warnings d) (errors d ++ [e]).

(** [self.poll_timer.stop()] *)
Definition stop_poll_timer (d : Dialog) : Dialog :=
  mkDialog (expires_in d) (interval d) (timer_active d) false
    (poll_timer_interval d) (retry_enabled d) (timer_label d) (result d)
    (emitted d) (warnings d) (errors d).

(** [self.accept()] and [self.reject()]: the result code is set and the
    event loop of [exec_()] is told to return; the timers are not stopped. *)
Definition done (r : DialogCode) (d : Dialog) : Dialog :=
  mkDialog (expires_in d) (interval d) (timer_active d) (poll_timer_active d)
    (poll_timer_interval d) (retry_enabled d) (timer_label d) (Some r)
    (emitted d) (warnings d) (errors d).

Definition accept : Dialog -> Dialog := done Accepted.
Definition reject : Dialog -> Dialog := done Rejected.

(** What [requests.post(ACCESS_TOKEN_URL)] gives: a network error or the
    JSON body, of which the keys [error], [access_token] and [interval]
    are read. *)
Inductive PollResponse :=
| PollFailed
| Json (error : option string) (access_token : option string)
       (new_interval : option Z).

(** The slots.  A message box is modal: the slot that opens it goes on when
    the box is closed, and until then the event loop of the box delivers
    the timeouts of the two timers, which run on.  The same holds for
    [auth_completed.emit], which runs [handle_oauth_completion] of the
    manager, with its prompt and its boxes, before it returns.  [modal d]
    is the dialog at the time the slot goes on, [d] being the dialog at the
    time the box was opened (or the signal emitted). *)
Section Slots.
Variable modal : Dialog -> Dialog.


Definition poll_for_token (d : Dialog) (response : PollResponse) : Dialog :=
  match response with
  | PollFailed => modal (critical RequestException d)
  | Json (Some error) _ new_interval =>
      if error =? "authorization_pending" then d
      else if error =? "slow_down" then
        let interval' :=
          match new_interval with
          | Some i => i
          | None => (interval d + 5)%Z
          end in
        mkDialog (expires_in d) interval' (timer_active d) (poll_timer_active d)
          (interval' * 1000) (retry_enabled d) (timer_label d) (result d)
          (emitted d) (warnings d) (errors d)
      else if error =? "expired_token" then
        reject (modal (warning "The device code has expired. Please try again." d))
      else if error =? "access_denied" then
        reject (modal (warning "Access denied. The user cancelled the authorization." d))
      else reject (modal (warning ("An error occurred: " ++ error) d))
  | Json None (Some access_token) _ =>
      accept (stop_poll_timer (modal (emit access_token d)))
  | Json None None _ => d
  end.

End Slots.

(** A timeout of one of the two timers ([self.timer] every second,
    [self.poll_timer] every interval), together with the timeouts delivered
    while the slot it starts waits for a box to be closed.  A stopped
    [QTimer] sends no [timeout]. *)
#[local] Set Warnings "-register-all".
Inductive Timeout :=
| Countdown
| Polling (response : PollResponse) (during : list Timeout).


Fixpoint timeout (d : Dialog) (t : Timeout) : Dialog :=
  match t with
  | Countdown => if timer_active d then update_timer d else d
  | Polling response during =>
      if poll_timer_active d
      then poll_for_token (fun d' => fold_left timeout during d') d response
      else d
  end.




(** The runs in which every slot returns before the next timeout comes: no
    box stays open long enough for a timer to fire, and the dialog is kept
    after [accept()] and [reject()]. *)
Inductive Event :=
| Tick                              (* self.timer, every second *)
| Poll (response : PollResponse).   (* self.poll_timer *)

Definition fire (d : Dialog) (e : Event) : Dialog :=
  match e with
  | Tick => if timer_active d then update_timer d else d
  | Poll response =>
      if poll_timer_active d then poll_for_token (fun d' => d') d response else d
  end.

Definition run (d : Dialog) (events : list Event) : Dialog :=
  fold_left fire events d.

(** The timeouts of the runs in which no box stays open. *)
Definition alone (e : Event) : Timeout :=
  match e with
  | Tick => Countdown
  | Poll response => Polling response []
  end.




End OAuth.

(** ** The table of [update_profile_list] (lines 425-454) *)

Record Row := mkRow {
  row_name : string;
  row_avatar_url : option string;
  row_username : string;
  row_email : string;
  row_tag : string;
  row_status : string
}.

(** The rows the method puts in the table, in the order of
    [self.profiles.items()]. *)
Definition update_profile_list (P : dict Profile) : list Row :=
  map (fun kv =>
         let username := fst kv in
         let profile := snd kv in
         mkRow (Py.get (name profile) username)
           (match avatar_url profile with
            | Some v => v
            | None => Some ""
            end)
           username
           (Py.get (email profile) "")
           (Py.get (tag profile) "N/A")
           (if get_is_current profile then "Current" else "Not Current"))
      P.

(** ** The launcher, [src/setup.py] *)

Module Setup.

(** [a < b] on tuples of integers: lexicographic, a proper prefix is
    smaller. *)
Fixpoint tuple_ltb (a b : list Z) : bool :=
  match a, b with
  | [], [] => false
  | [], _ :: _ => true
  | _ :: _, [] => false
  | x :: a', y :: b' =>
      if (x <? y)%Z then true
      else if (y <? x)%Z then false
      else tuple_ltb a' b'
  end.

Definition REQUIRED_PYTHON : list Z := [3; 10]%Z.
Definition REQUIRED_PIP_VERSION : list Z := [24; 2]%Z.


(** [check_python_version]: [true] when it calls [sys.exit(1)];
    [version_info] is [sys.version_info]. *)
Definition check_python_version (version_info : list Z) : bool :=
  tuple_ltb (firstn 2 version_info) REQUIRED_PYTHON.

(** [check_pip_version]: [true] when it calls [update_pip];
    [pip_version_number] is the tuple parsed from [pip --version]. *)
Definition check_pip_version (pip_version_number : list Z) : bool :=
  tuple_ltb pip_version_number REQUIRED_PIP_VERSION.


End Setup.

(** * Notions used in the statements *)

(** What the merge does to a profile that is already stored. *)
Definition fill_missing (E : GitProfile) (p : Profile) : Profile :=
  let p1 :=
    if Py.truthy (gp_email E) && negb (Py.truthy (email p))
    then set_email (Py.get (gp_email E) "") p else p in
  if Py.truthy (gp_name E) && negb (Py.truthy (name p1))
  then set_name (Py.get (gp_name E) "") p1 else p1.

(** The guard of [merge_profiles]: a non-empty user name and a password key. *)
Definition usable (E : GitProfile) : bool :=
  Py.truthy (gp_username E) && Py.is_some (gp_password E).

(** The profile synthesized for a user name that is not stored yet. *)
Definition synthesized (E : GitProfile) (id : string) : Profile :=
  mkProfile (gp_password E) (Some (Py.or_ (gp_name E) id))
    (Some (Py.or_ (gp_email E) "")) (Some "N/A") None None.

Definition alice_stored : Profile :=
  mkProfile (Some "t0") (Some "Al") (Some "") (Some "work") None (Some true).

Definition alice_credential : GitProfile :=
  mkGitProfile (Some "alice") (Some "t1") (Some "Alice A") (Some "a@x.com").

(** [frames obs m]: running [m] never changes the observation [obs] of the
    state, whether it returns or raises. *)
Definition frames {T A} (obs : App -> T) (m : M A) : Prop :=
  forall a, obs (snd (m a)) = obs a.

(** The observations used below. *)
Definition git_oracle (a : App) : bool * (GitCmd -> bool) :=
  (git_installed (git a), git_fails (git a)).

Definition keyring_oracle (a : App) : KeyringOp -> bool := kr_fails (keyring a).

(** What [save_profiles] shows: nothing, or its own error box. *)
Definition save_report (k : Keyring) : list UiEvent :=
  if kr_fails k SetPassword
  then [Critical "Failed to save profiles" KeyringError]
  else [].

Definition write_through : list GitCmd :=
  [ConfigSet UserName; ConfigSet UserEmail; ConfigSet CredentialHelper;
   CredentialApprove].

(** The first command of the write-through that exits with an error. *)
Definition first_failure (g : Git) : option GitCmd :=
  find (git_fails g) write_through.

(** What [update_git_config] shows: nothing, or its own error box. *)
Definition git_report (g : Git) : list UiEvent :=
  match first_failure g with
  | Some cmd => [Critical "Failed to update Git config" (CalledProcessError cmd)]
  | None => []
  end.

(** Git after a write-through in which every command exits with status 0. *)
Definition git_written (username name email token : string) (g : Git) : Git :=
  let g0 := credentials_set [] g in
  let g1 := config_set UserName (Some name) g0 in
  let g2 := config_set UserEmail (Some email) g1 in
  let g3 := config_set CredentialHelper (Some "manager-core") g2 in
  credentials_set (dict_set username token (git_credentials g3)) g3.

(** The user names whose profile has [is_current] set, in mapping order. *)
Definition active (P : dict Profile) : list string :=
  keys (filter (fun kv => get_is_current (snd kv)) P).

Definition active_count (P : dict Profile) : nat := List.length (active P).

(** A Python dictionary has no key twice. *)
Definition wf (P : dict Profile) : Prop := NoDup (keys P).

Definition at_most_one (P : dict Profile) : Prop :=
  wf P /\ active_count P <= 1.

Definition sample_profile (n e t : string) (current : bool) : Profile :=
  mkProfile (Some t) (Some n) (Some e) (Some "N/A") None (Some current).

Definition two_profiles : dict Profile :=
  [("alice", sample_profile "Alice A" "a@x.com" "t1" false);
   ("bob", sample_profile "Bob B" "b@x.com" "t2" true)].

Definition git_of_bob (fails : GitCmd -> bool) : Git :=
  mkGit true fails
    (fun k => match k with
              | UserName => Some "Bob B"
              | UserEmail => Some "b@x.com"
              | CredentialHelper => Some "manager-core"
              end)
    [("bob", "t2")].

Definition keyring_of (P : dict Profile) : Keyring :=
  mkKeyring (fun _ => false) (Some (join_comma (keys P))) P.

(** Git refuses to set [user.name]; everything else works. *)
Definition set_name_fails (cmd : GitCmd) : bool :=
  match cmd with
  | ConfigSet UserName => true
  | _ => false
  end.

Definition app_set_name_fails : App :=
  mkApp two_profiles (git_of_bob set_name_fails) (keyring_of two_profiles) [].

(** [keeps I m]: if [self.profiles] satisfies [I] before [m], it does after,
    whether [m] returns or raises. *)
Definition keeps {A} (I : dict Profile -> Prop) (m : M A) : Prop :=
  forall a, I (profiles a) -> I (profiles (snd (m a))).

(** What [git config --global <key>] prints. *)
Definition config_stdout (g : Git) (key : ConfigKey) : string :=
  if git_fails g (ConfigGet key) then ""
  else match git_config g key with
       | Some v => v ++ String "010" ""
       | None => ""
       end.

(** The value git holds for a key, as [get_current_profile] gets it: the
    empty text when the command fails or the key is not set. *)
Definition git_value (g : Git) (key : ConfigKey) : string :=
  if git_fails g (ConfigGet key) then "" else Py.get (git_config g key) "".

(** Bob's stored name ends with a space, and git holds the same name. *)
Definition bob_padded : dict Profile :=
  [("bob", sample_profile "Bob B " "b@x.com" "t2" false)].

Definition git_of_bob_padded : Git :=
  mkGit true (fun _ => false)
    (fun k => match k with
              | UserName => Some "Bob B "
              | UserEmail => Some "b@x.com"
              | CredentialHelper => Some "manager-core"
              end)
    [("bob", "t2")].

(** What the user can do once the window is up, with what the dialogs and
    the network answer ([EditProfile] in the table front-end, [EditTag] in
    the list front-end).  [ClearGitConfig] is only called by
    [delete_profile] in the program; it is kept as an operation of its own
    because the specification lists it. *)
Inductive Op :=
| AddAccount (token : string) (response : UserInfoResponse) (tag : string) (ok : bool)
| SwitchProfile (selected : option string)
| EditProfile (selected : option string) (accepted : bool)
    (new_name new_email new_tag : string)
| EditTag (selected : option string) (new_tag : string) (ok : bool)
| DeleteProfile (selected : option string) (reply_yes : bool)
| ClearGitConfig.

Definition run_op (op : Op) : M unit :=
  match op with
  | AddAccount token response tag ok => handle_oauth_completion token response tag ok
  | SwitchProfile selected => switch_profile selected
  | EditProfile selected accepted new_name new_email new_tag =>
      edit_profile selected accepted new_name new_email new_tag
  | EditTag selected new_tag ok => edit_tag selected new_tag ok
  | DeleteProfile selected reply_yes => delete_profile selected reply_yes
  | ClearGitConfig => clear_git_config
  end.

(** The program starts in any world ([__init__] loads and merges), runs
    operations one after the other, and between two of them git and the
    keyring may be changed from outside. *)
Inductive reachable : App -> Prop :=
| reach_init a : reachable (snd (init a))
| reach_op a op : reachable a -> reachable (snd (run_op op a))
| reach_world a g k : reachable a -> reachable (mkApp (profiles a) g k (ui a)).

(** Git after [clear_git_config] when every command exits with status 0. *)
Definition git_cleared (g : Git) : Git :=
  credentials_set []
    (config_set CredentialHelper None
       (config_set UserEmail None (config_set UserName None g))).

(** The stored token of bob is empty (a credential whose password was
    empty), so bob cannot be activated. *)
Definition alice_and_tokenless_bob : dict Profile :=
  [("alice", sample_profile "Alice A" "a@x.com" "t1" true);
   ("bob", mkProfile (Some "") (Some "Bob B") (Some "b@x.com") (Some "N/A")
             None (Some false))].

Definition git_of_alice : Git :=
  mkGit true (fun _ => false)
    (fun k => match k with
              | UserName => Some "Alice A"
              | UserEmail => Some "a@x.com"
              | CredentialHelper => Some "manager-core"
              end)
    [("alice", "t1")].

Definition app_tokenless_bob : App :=
  mkApp alice_and_tokenless_bob git_of_alice
    (keyring_of alice_and_tokenless_bob) [].

Definition alice_and_bob : dict Profile :=
  [("alice", sample_profile "Alice A" "a@x.com" "t1" true);
   ("bob", sample_profile "Bob B" "b@x.com" "t2" false)].

Definition app_alice_and_bob : App :=
  mkApp alice_and_bob git_of_alice (keyring_of alice_and_bob) [].

Definition only_alice : dict Profile :=
  [("alice", sample_profile "Alice A" "a@x.com" "t1" true)].

Definition app_only_alice : App :=
  mkApp only_alice git_of_alice (keyring_of only_alice) [].

(** The test of the loop of [get_current_profile]: a missing name or e-mail
    reads as the empty string. *)
Definition matches (current_name current_email : string) (profile : Profile)
    : bool :=
  (Py.get (name profile) "" =? current_name)
  && (Py.get (email profile) "" =? current_email).

Definition tokenless_alice : Profile :=
  mkProfile None (Some "Al") None (Some "work") None None.

(** The state with more message boxes shown. *)
Definition with_ui (a : App) (events : list UiEvent) : App :=
  mkApp (profiles a) (git a) (keyring a) (ui a ++ events).

(** The three [git config --global --unset] of [clear_git_config]. *)
Definition unsets : list GitCmd :=
  [ConfigUnset UserName; ConfigUnset UserEmail; ConfigUnset CredentialHelper].

(** The records of the keyring after every profile of [P] has been stored. *)
Definition records_after (P R : dict Profile) : dict Profile :=
  fold_left (fun R kv => dict_set (fst kv) (snd kv) R) P R.

(** What start-up makes of a dictionary, given the name and e-mail git
    holds: the first matching profile becomes the only current one. *)
Definition resolve (current_name current_email : string) (P : dict Profile)
    : dict Profile :=
  match find_current current_name current_email P with
  | Some username =>
      if username =? "" then clear_current P else mark_current username P
  | None => clear_current P
  end.

(** The profile [handle_oauth_completion] stores for a new account. *)
Definition new_profile (token : string) (username : string)
    (name email : option string) (tag : string) (avatar_url : option string)
    : Profile :=
  mkProfile (Some token) (Some (Py.or_ name username)) (Some (Py.or_ email ""))
    (Some tag) (Some avatar_url) None.

(** The number of countdown ticks among the events. *)
Fixpoint ticks (events : list OAuth.Event) : Z :=
  match events with
  | [] => 0
  | OAuth.Tick :: events' => 1 + ticks events'
  | OAuth.Poll _ :: events' => ticks events'
  end.

(** No comma in the user name (GitHub logins have none). *)
Fixpoint no_comma (s : string) : bool :=
  match s with
  | EmptyString => true
  | String c s' => negb (Ascii.eqb c ",") && no_comma s'
  end.

(** Git refuses to unset [credential.helper]; everything else works. *)
Definition helper_not_set (cmd : GitCmd) : bool :=
  match cmd with
  | ConfigUnset CredentialHelper => true
  | _ => false
  end.

(** Alice is stored, git holds bob's name and e-mail, every command works. *)
Definition app_alice_git_of_bob : App :=
  mkApp only_alice (git_of_bob (fun _ => false)) (keyring_of only_alice) [].

(** The keyring answers every request. *)
Definition kr_ok (a : App) : Prop := forall op, kr_fails (keyring a) op = false.

(** A user name the keyring can hold: not empty, without a comma, and not
    the name of the index itself (GitHub logins are such). *)
Definition login (username : string) : bool :=
  no_comma username && negb (username =? "") && negb (username =? "usernames").

Definition logins (P : dict Profile) : Prop :=
  forall k, In k (keys P) -> login k = true.

(** The login an operation may add to [self.profiles], if it is not empty,
    is such a user name. *)
Definition adds_login (op : Op) : bool :=
  match op with
  | AddAccount _ (Status _ (Some username) _ _ _) _ _ =>
      (username =? "") || login username
  | _ => true
  end.

(** The keyring is in step with [self.profiles]: the index is the text of
    the keys in order and every profile is stored under its user name. *)
Definition persisted (a : App) : Prop :=
  kr_usernames (keyring a) = Some (join_comma (keys (profiles a)))
  /\ forall k v, In (k, v) (profiles a) ->
       dict_get k (kr_records (keyring a)) = Some v.

(** The keys of a dictionary that the keyring can hold. *)
Definition named (P : dict Profile) : Prop := wf P /\ logins P.

Definition ready (a : App) : Prop :=
  named (profiles a) /\ kr_ok a /\ git_installed (git a) = true.

Definition in_step (a : App) : Prop := ready a /\ persisted a.

(** [keeps_state I m]: a state that satisfies [I] before [m] does after,
    whether [m] returns or raises. *)
Definition keeps_state {A} (I : App -> Prop) (m : M A) : Prop :=
  forall a, I a -> I (snd (m a)).

(** * Properties *)

(** ** Dictionaries *)

Section DictFacts.
Context {V : Type}.
Implicit Types (d : dict V) (k : string) (v : V).

Lemma dict_get_update_same k f d :
  dict_get k (dict_update k f d) = option_map f (dict_get k d).
Proof.
  induction d as [|[k' v] d IH]; simpl; [reflexivity|].
  destruct (k' =? k) eqn:E; simpl; rewrite E; [reflexivity | exact IH].
Qed.

Lemma dict_get_update_other k k0 f d :
  k0 <> k -> dict_get k0 (dict_update k f d) = dict_get k0 d.
Proof.
  intros Hne. induction d as [|[k' v] d IH]; simpl; [reflexivity|].
  destruct (k' =? k) eqn:E; simpl.
  - apply String.eqb_eq in E. subst k'.
    destruct (k =? k0) eqn:E0; [|reflexivity].
    apply String.eqb_eq in E0. congruence.
  - destruct (k' =? k0); [reflexivity | exact IH].
Qed.

Lemma dict_update_fixed k f d v :
  dict_get k d = Some v -> f v = v -> dict_update k f d = d.
Proof.
  intros Hget Hf. induction d as [|[k' v'] d IH]; simpl in *; [reflexivity|].
  destruct (k' =? k).
  - injection Hget as ->. now rewrite Hf.
  - now rewrite IH.
Qed.

Lemma dict_update_twice k f g d :
  dict_update k f (dict_update k g d) = dict_update k (fun v => f (g v)) d.
Proof.
  induction d as [|[k' v] d IH]; simpl; [reflexivity|].
  destruct (k' =? k) eqn:E; simpl; rewrite E; [reflexivity | now rewrite IH].
Qed.

Lemma dict_update_ext k f g d :
  (forall v, f v = g v) -> dict_update k f d = dict_update k g d.
Proof.
  intros H. induction d as [|[k' v] d IH]; simpl; [reflexivity|].
  destruct (k' =? k); [now rewrite H | now rewrite IH].
Qed.

Lemma dict_update_at k f g d v :
  dict_get k d = Some v -> f v = g v -> dict_update k f d = dict_update k g d.
Proof.
  intros Hget Hf. induction d as [|[k' v'] d IH]; simpl in *; [reflexivity|].
  destruct (k' =? k).
  - injection Hget as ->. now rewrite Hf.
  - now rewrite IH.
Qed.

Lemma dict_get_set_same k v d : dict_get k (dict_set k v d) = Some v.
Proof.
  induction d as [|[k' v'] d IH]; simpl.
  - now rewrite String.eqb_refl.
  - destruct (k' =? k) eqn:E; simpl.
    + now rewrite String.eqb_refl.
    + now rewrite E.
Qed.

Lemma dict_get_set_other k k0 v d :
  k0 <> k -> dict_get k0 (dict_set k v d) = dict_get k0 d.
Proof.
  intros Hne. induction d as [|[k' v'] d IH]; simpl.
  - destruct (k =? k0) eqn:E; [|reflexivity].
    apply String.eqb_eq in E. congruence.
  - destruct (k' =? k) eqn:E; simpl.
    + apply String.eqb_eq in E. subst k'.
      destruct (k =? k0) eqn:E0; [|reflexivity].
      apply String.eqb_eq in E0. congruence.
    + destruct (k' =? k0); [reflexivity | exact IH].
Qed.

(** A new key goes to the end of the dictionary. *)
Lemma dict_set_new k v d : dict_get k d = None -> dict_set k v d = (d ++ [(k, v)])%list.
Proof.
  induction d as [|[k' v'] d IH]; simpl; [reflexivity|].
  destruct (k' =? k); [discriminate|].
  intros H. now rewrite IH.
Qed.

End DictFacts.

(** ** The merge *)

Lemma merge_not_usable P E : usable E = false -> merge_profiles_dict P E = P.
Proof.
  unfold usable, merge_profiles_dict, Py.truthy.
  destruct (gp_username E) as [u|]; [|reflexivity].
  now intros ->.
Qed.

Lemma merge_existing P E id p :
  gp_username E = Some id -> usable E = true -> dict_get id P = Some p ->
  merge_profiles_dict P E = dict_update id (fill_missing E) P.
Proof.
  intros Hu Hg Hget. unfold usable, Py.truthy in Hg. rewrite Hu in Hg.
  unfold merge_profiles_dict. rewrite Hu, Hg.
  unfold dict_mem. rewrite Hget. simpl.
  assert (Hie : item_get email id P = email p)
    by (unfold item_get; now rewrite Hget).
  assert (Hin : item_get name id P = name p)
    by (unfold item_get; now rewrite Hget).
  assert (Hin' : forall e, item_get name id (dict_update id (set_email e) P) = name p)
    by (intros e; unfold item_get; now rewrite dict_get_update_same, Hget).
  rewrite !Hie.
  destruct (Py.truthy (gp_email E) && negb (Py.truthy (email p))) eqn:He.
  - rewrite Hin'.
    destruct (Py.truthy (gp_name E) && negb (Py.truthy (name p))) eqn:Hn.
    + rewrite dict_update_twice. apply dict_update_at with (v := p); [exact Hget|].
      unfold fill_missing. rewrite He. simpl. now rewrite Hn.
    + apply dict_update_at with (v := p); [exact Hget|].
      unfold fill_missing. rewrite He. simpl. now rewrite Hn.
  - rewrite Hin.
    destruct (Py.truthy (gp_name E) && negb (Py.truthy (name p))) eqn:Hn.
    + apply dict_update_at with (v := p); [exact Hget|].
      unfold fill_missing. rewrite He. now rewrite Hn.
    + symmetry. apply dict_update_fixed with (v := p); [exact Hget|].
      unfold fill_missing. rewrite He. now rewrite Hn.
Qed.

Lemma merge_new P E id :
  gp_username E = Some id -> usable E = true -> dict_get id P = None ->
  merge_profiles_dict P E = dict_set id (synthesized E id) P.
Proof.
  intros Hu Hg Hget. unfold usable, Py.truthy in Hg. rewrite Hu in Hg.
  unfold merge_profiles_dict. rewrite Hu, Hg.
  unfold dict_mem. now rewrite Hget.
Qed.

Lemma truthy_or_ v d : Py.truthy v = true -> Some (Py.or_ v d) = v.
Proof.
  destruct v as [s|]; simpl; [|discriminate].
  destruct (s =? ""); [discriminate | reflexivity].
Qed.

Lemma truthy_get v d : Py.truthy v = true -> Some (Py.get v d) = v.
Proof. destruct v as [s|]; simpl; [reflexivity | discriminate]. Qed.

(** Case analysis on the emptiness tests left in the goal. *)
Ltac case_empty :=
  repeat (simpl;
    match goal with
    | H : (?s =? "") = _ |- context [?s =? ""] => rewrite H
    | |- context [?s =? ""] => destruct (s =? "") eqn:?
    end); simpl; try reflexivity; try congruence.

Lemma fill_missing_idem E p : fill_missing E (fill_missing E p) = fill_missing E p.
Proof.
  destruct E as [u pw [n|] [e|]], p as [t [nm|] [em|] tg av ic];
    unfold fill_missing; case_empty.
Qed.

Lemma fill_missing_synthesized E id :
  fill_missing E (synthesized E id) = synthesized E id.
Proof.
  destruct E as [u pw [n|] [e|]]; unfold fill_missing, synthesized; case_empty.
Qed.

Lemma usable_username E : usable E = true -> exists id, gp_username E = Some id.
Proof.
  unfold usable. destruct (gp_username E) as [id|]; [now exists id | discriminate].
Qed.

(** C5.  The merge is idempotent: merging the same git credential into the
    result of a merge changes nothing. *)
Theorem merge_idempotent (P : dict Profile) (E : GitProfile) :
  merge_profiles_dict (merge_profiles_dict P E) E = merge_profiles_dict P E.
Proof.
  destruct (usable E) eqn:Hg; [| now rewrite !merge_not_usable].
  destruct (usable_username E Hg) as [id Hu].
  destruct (dict_get id P) as [p|] eqn:Hget.
  - rewrite (merge_existing P E id p) by assumption.
    rewrite (merge_existing _ E id (fill_missing E p)); try assumption.
    + rewrite dict_update_twice. apply dict_update_ext.
      intros v. apply fill_missing_idem.
    + now rewrite dict_get_update_same, Hget.
  - rewrite (merge_new P E id) by assumption.
    rewrite (merge_existing _ E id (synthesized E id)); try assumption.
    + apply dict_update_fixed with (v := synthesized E id).
      * apply dict_get_set_same.
      * apply fill_missing_synthesized.
    + apply dict_get_set_same.
Qed.

Lemma merge_stored P E id p :
  dict_get id P = Some p -> gp_username E = Some id ->
  dict_get id (merge_profiles_dict P E)
  = Some (if usable E then fill_missing E p else p).
Proof.
  intros Hget Hu. destruct (usable E) eqn:Hg.
  - rewrite (merge_existing P E id p) by assumption.
    now rewrite dict_get_update_same, Hget.
  - now rewrite merge_not_usable.
Qed.

Lemma fill_missing_token E p : token (fill_missing E p) = token p.
Proof.
  unfold fill_missing.
  destruct (Py.truthy (gp_email E) && negb (Py.truthy (email p)));
    destruct (Py.truthy (gp_name E) && _); reflexivity.
Qed.

Lemma fill_missing_email E p :
  email (fill_missing E p) = email p
  \/ (Py.truthy (email p) = false /\ email (fill_missing E p) = gp_email E).
Proof.
  unfold fill_missing.
  destruct (Py.truthy (gp_email E)) eqn:He, (Py.truthy (email p)) eqn:Hp; simpl;
    match goal with |- context [if ?c then _ else _] => destruct c end; simpl;
    auto using truthy_get.
Qed.

Lemma fill_missing_name E p :
  name (fill_missing E p) = name p
  \/ (Py.truthy (name p) = false /\ name (fill_missing E p) = gp_name E).
Proof.
  unfold fill_missing.
  destruct (Py.truthy (gp_email E) && negb (Py.truthy (email p))); simpl;
    destruct (Py.truthy (gp_name E)) eqn:Hn, (Py.truthy (name p)) eqn:Hp; simpl;
    auto using truthy_get.
Qed.

(** C4.  The merge is non-destructive for a stored profile: its e-mail and
    its name are either kept, or were empty and are filled from the git
    credential; a non-empty e-mail or name is kept whatever the credential
    says, and the stored token is never replaced by the credential's
    password. *)
Theorem merge_non_destructive (P : dict Profile) (E : GitProfile)
    (id : string) (p : Profile) :
  dict_get id P = Some p ->
  gp_username E = Some id ->
  exists p',
    dict_get id (merge_profiles_dict P E) = Some p'
    /\ token p' = token p
    /\ (email p' = email p
        \/ (Py.truthy (email p) = false /\ email p' = gp_email E))
    /\ (name p' = name p
        \/ (Py.truthy (name p) = false /\ name p' = gp_name E))
    /\ (Py.truthy (email p) = true -> email p' = email p)
    /\ (Py.truthy (name p) = true -> name p' = name p).
Proof.
  intros Hget Hu. eexists. split; [apply merge_stored; eassumption|].
  destruct (usable E); [|tauto].
  pose proof (fill_missing_email E p) as He.
  pose proof (fill_missing_name E p) as Hn.
  rewrite fill_missing_token.
  repeat split; try assumption.
  - intros Ht. destruct He as [He|[He _]]; congruence.
  - intros Ht. destruct Hn as [Hn|[Hn _]]; congruence.
Qed.

Lemma merge_non_destructive_witness :
  exists p',
    dict_get "alice" (merge_profiles_dict [("alice", alice_stored)] alice_credential)
    = Some p'
    /\ token p' = Some "t0"
    /\ (email p' = Some ""
        \/ (Py.truthy (Some "") = false /\ email p' = Some "a@x.com"))
    /\ (name p' = Some "Al"
        \/ (Py.truthy (Some "Al") = false /\ name p' = Some "Alice A"))
    /\ (Py.truthy (Some "") = true -> email p' = Some "")
    /\ (Py.truthy (Some "Al") = true -> name p' = Some "Al").
Proof.
  apply (merge_non_destructive [("alice", alice_stored)] alice_credential
           "alice" alice_stored); reflexivity.
Defined.

(** C6, as stated, fails: a credential with a user name but no password does
    not lack both, its user name is not stored, and yet no profile is
    synthesized; the same holds for a credential whose user name is the
    empty string and whose password is set. *)
Lemma merge_case_split_counterexample :
  let E := mkGitProfile (Some "alice") None (Some "Alice A") (Some "a@x.com") in
  let E' := mkGitProfile (Some "") (Some "t1") (Some "Alice A") (Some "a@x.com") in
  ((gp_username E <> None \/ gp_password E <> None)
   /\ dict_get "alice" ([] : dict Profile) = None
   /\ merge_profiles_dict [] E = [])
  /\ ((gp_username E' <> None \/ gp_password E' <> None)
      /\ dict_get "" ([] : dict Profile) = None
      /\ merge_profiles_dict [] E' = []).
Proof.
  simpl. repeat split; try reflexivity; left; discriminate.
Qed.

(** C6, amended.  A credential without a non-empty user name or without a
    password leaves the stored collection unchanged; one that has both and
    whose user name is not stored adds, after the stored profiles, a profile
    with the password as token, tag "N/A" and the credential's name, or the
    user name when the name is empty.  The scenario of the specification is
    the last part. *)
Theorem merge_case_split (P : dict Profile) (E : GitProfile) :
  (usable E = false -> merge_profiles_dict P E = P)
  /\ (forall id,
        usable E = true -> gp_username E = Some id -> dict_get id P = None ->
        merge_profiles_dict P E
        = (P ++ [(id, mkProfile (gp_password E) (Some (Py.or_ (gp_name E) id))
                        (Some (Py.or_ (gp_email E) "")) (Some "N/A") None None)])%list)
  /\ merge_profiles_dict [] alice_credential
     = [("alice", mkProfile (Some "t1") (Some "Alice A") (Some "a@x.com")
                    (Some "N/A") None None)].
Proof.
  split; [apply merge_not_usable|]. split; [|reflexivity].
  intros id Hg Hu Hget. rewrite (merge_new P E id) by assumption.
  now apply dict_set_new.
Qed.

Lemma merge_case_split_witness :
  merge_profiles_dict [] (mkGitProfile None None None None) = []
  /\ merge_profiles_dict [("bob", alice_stored)] alice_credential
     = [("bob", alice_stored);
        ("alice", mkProfile (Some "t1") (Some "Alice A") (Some "a@x.com")
                    (Some "N/A") None None)].
Proof.
  split.
  - apply (proj1 (merge_case_split [] (mkGitProfile None None None None))).
    reflexivity.
  - apply (proj1 (proj2 (merge_case_split [("bob", alice_stored)] alice_credential))
             "alice"); reflexivity.
Defined.

(** ** Reasoning about the monad *)

Section Frames.
Context {T : Type} (obs : App -> T).

Lemma frames_ret {A} (x : A) : frames obs (ret x).
Proof. intros a. reflexivity. Qed.

Lemma frames_raise {A} e : frames obs (@raise A e).
Proof. intros a. reflexivity. Qed.

Lemma frames_bind {A B} (m : M A) (k : A -> M B) :
  frames obs m -> (forall x, frames obs (k x)) -> frames obs (bind m k).
Proof.
  intros Hm Hk a. unfold bind. specialize (Hm a).
  destruct (m a) as [[x|e] a1]; simpl in *; [|exact Hm].
  now rewrite Hk.
Qed.

Lemma frames_try {A} (body : M A) catches handler :
  frames obs body -> (forall e, frames obs (handler e)) ->
  frames obs (try_except body catches handler).
Proof.
  intros Hm Hh a. unfold try_except. specialize (Hm a).
  destruct (body a) as [[x|e] a1]; simpl in *; [exact Hm|].
  destruct (catches e); [now rewrite Hh | exact Hm].
Qed.

Lemma frames_for_each {A} (l : list A) body :
  (forall x, frames obs (body x)) -> frames obs (for_each l body).
Proof.
  intros Hb. induction l as [|x l IH]; simpl.
  - apply frames_ret.
  - apply frames_bind; auto.
Qed.

Lemma frames_if {A} (b : bool) (m1 m2 : M A) :
  frames obs m1 -> frames obs m2 -> frames obs (if b then m1 else m2).
Proof. now destruct b. Qed.

End Frames.

Create HintDb frames.
#[local] Hint Resolve frames_ret frames_raise frames_bind frames_try
  frames_for_each frames_if : frames.

Lemma frames_get_profiles {T} (obs : App -> T) : frames obs get_profiles.
Proof. intros a. reflexivity. Qed.

Lemma frames_show_profiles e : frames profiles (show e).
Proof. intros a. reflexivity. Qed.

Lemma frames_show_git e : frames git (show e).
Proof. intros a. reflexivity. Qed.

Lemma frames_show_keyring e : frames keyring (show e).
Proof. intros a. reflexivity. Qed.

Lemma frames_set_profiles_git d : frames git (set_profiles d).
Proof. intros a. reflexivity. Qed.

Lemma frames_set_profiles_keyring d : frames keyring (set_profiles d).
Proof. intros a. reflexivity. Qed.

Lemma frames_keyring_run_profiles {A} op (r : Keyring -> A) eff :
  frames profiles (keyring_run op r eff).
Proof. intros a. unfold keyring_run. now destruct (kr_fails (keyring a) op). Qed.

Lemma frames_keyring_run_git {A} op (r : Keyring -> A) eff :
  frames git (keyring_run op r eff).
Proof. intros a. unfold keyring_run. now destruct (kr_fails (keyring a) op). Qed.

Lemma frames_keyring_run_oracle {A} op (r : Keyring -> A) eff :
  (forall k, kr_fails (eff k) = kr_fails k) ->
  frames keyring_oracle (keyring_run op r eff).
Proof.
  intros H a. unfold keyring_run, keyring_oracle.
  destruct (kr_fails (keyring a) op); simpl; auto.
Qed.

Lemma frames_subprocess_run_profiles check cmd eff :
  frames profiles (subprocess_run check cmd eff).
Proof.
  intros a. unfold subprocess_run.
  destruct (git_installed (git a)); simpl; [|reflexivity].
  destruct (git_fails (git a) cmd); [now destruct check | reflexivity].
Qed.

Lemma frames_subprocess_run_keyring check cmd eff :
  frames keyring (subprocess_run check cmd eff).
Proof.
  intros a. unfold subprocess_run.
  destruct (git_installed (git a)); simpl; [|reflexivity].
  destruct (git_fails (git a) cmd); [now destruct check | reflexivity].
Qed.

Lemma frames_subprocess_run_oracle check cmd eff :
  (forall g, git_installed (eff g) = git_installed g) ->
  (forall g, git_fails (eff g) = git_fails g) ->
  frames git_oracle (subprocess_run check cmd eff).
Proof.
  intros H1 H2 a. unfold subprocess_run, git_oracle.
  destruct (git_installed (git a)) eqn:Hi; simpl; [|now rewrite Hi].
  destruct (git_fails (git a) cmd); [destruct check; simpl; now rewrite Hi|].
  simpl. now rewrite H1, H2, Hi.
Qed.

Lemma frames_subprocess_stdout {T} (obs : App -> T) check key :
  frames obs (subprocess_stdout check key).
Proof.
  intros a. unfold subprocess_stdout.
  destruct (git_installed (git a)); simpl; [|reflexivity].
  destruct (git_fails (git a) (ConfigGet key)); [now destruct check|].
  now destruct (git_config (git a) key).
Qed.

Lemma frames_credential_fill {T} (obs : App -> T) : frames obs credential_fill.
Proof.
  intros a. unfold credential_fill.
  destruct (git_installed (git a)); simpl; [|reflexivity].
  destruct (git_fails (git a) CredentialFill); [reflexivity|].
  now destruct (git_credentials (git a)) as [|[u p] l].
Qed.

#[local] Hint Resolve frames_get_profiles frames_show_profiles frames_show_git
  frames_show_keyring frames_set_profiles_git frames_set_profiles_keyring
  frames_keyring_run_profiles frames_keyring_run_git frames_subprocess_run_profiles
  frames_subprocess_run_keyring frames_subprocess_stdout frames_credential_fill
  : frames.

Ltac frames := unfold handle_error; auto 20 with frames.

(** ** Saving *)

Lemma keyring_set_password_ok kv a :
  kr_fails (keyring a) SetPassword = false ->
  fst (keyring_set_password (fst kv) (snd kv) a) = Ok tt
  /\ ui (snd (keyring_set_password (fst kv) (snd kv) a)) = ui a
  /\ kr_fails (keyring (snd (keyring_set_password (fst kv) (snd kv) a))) = kr_fails (keyring a).
Proof.
  intros H. unfold keyring_set_password, keyring_run. rewrite H. simpl. auto.
Qed.

Lemma for_each_set_password_ok (l : dict Profile) a :
  kr_fails (keyring a) SetPassword = false ->
  fst (for_each l (fun kv => keyring_set_password (fst kv) (snd kv)) a) = Ok tt
  /\ ui (snd (for_each l (fun kv => keyring_set_password (fst kv) (snd kv)) a)) = ui a.
Proof.
  revert a. induction l as [|kv l IH]; intros a H; simpl; [auto|].
  unfold bind. destruct (keyring_set_password_ok kv a H) as (Hr & Hu & Hk).
  destruct (keyring_set_password (fst kv) (snd kv) a) as [r a1]. simpl in *. subst r.
  rewrite <- Hu. apply IH. now rewrite Hk.
Qed.

Lemma save_profiles_ok a : fst (save_profiles a) = Ok tt.
Proof.
  unfold save_profiles, try_except.
  match goal with |- context [match ?b a with _ => _ end] => destruct (b a) as [[[]|e] a1] end;
    reflexivity.
Qed.

Lemma save_profiles_ui a :
  ui (snd (save_profiles a)) = (ui a ++ save_report (keyring a))%list.
Proof.
  unfold save_profiles, try_except, save_report, bind, get_profiles,
    keyring_set_usernames.
  unfold keyring_run at 1.
  destruct (kr_fails (keyring a) SetPassword) eqn:H; simpl; [reflexivity|].
  match goal with |- context [for_each ?l ?f ?s] =>
    destruct (for_each_set_password_ok l s) as [Hr Hu]; [exact H|];
    destruct (for_each l f s) as [r a1] end.
  simpl in *. subst r. simpl. now rewrite Hu, app_nil_r.
Qed.

Lemma frames_keyring_set_password_oracle u p :
  frames keyring_oracle (keyring_set_password u p).
Proof. now apply frames_keyring_run_oracle. Qed.

Lemma frames_save_profiles_profiles : frames profiles save_profiles.
Proof. unfold save_profiles, keyring_set_usernames, keyring_set_password. frames. Qed.

Lemma frames_save_profiles_git : frames git save_profiles.
Proof. unfold save_profiles, keyring_set_usernames, keyring_set_password. frames. Qed.

Lemma frames_save_profiles_oracle : frames keyring_oracle save_profiles.
Proof.
  unfold save_profiles, handle_error. apply frames_try.
  - apply frames_bind; [apply frames_get_profiles|]. intros P.
    apply frames_bind; [now apply frames_keyring_run_oracle|]. intros _.
    apply frames_for_each. intros kv. apply frames_keyring_set_password_oracle.
  - intros e a. reflexivity.
Qed.

#[local] Hint Resolve frames_save_profiles_profiles frames_save_profiles_git : frames.

(** ** The write-through *)

(** Case analysis on the tests a run meets, using what is known of them. *)
Ltac exec :=
  repeat (simpl;
    match goal with
    | H : ?x = _ |- context [if ?x then _ else _] => rewrite H
    | H : ?x = _ |- context [if negb ?x then _ else _] => rewrite H
    | |- context [if negb ?x then _ else _] => destruct x eqn:?
    | |- context [if ?x then _ else _] => destruct x eqn:?
    end); simpl.

Lemma update_git_config_missing u n e t a :
  git_installed (git a) = false ->
  update_git_config u n e t a = (Raise FileNotFoundError, a).
Proof.
  intros H. unfold update_git_config, remove_all_github_credentials, try_except,
    bind, subprocess_run. now rewrite H.
Qed.

Lemma update_git_config_installed u n e t a :
  git_installed (git a) = true ->
  fst (update_git_config u n e t a) = Ok tt
  /\ profiles (snd (update_git_config u n e t a)) = profiles a
  /\ keyring (snd (update_git_config u n e t a)) = keyring a
  /\ ui (snd (update_git_config u n e t a)) = (ui a ++ git_report (git a))%list.
Proof.
  intros H.
  unfold update_git_config, remove_all_github_credentials, try_except, bind,
    subprocess_run, handle_error, show, ret, git_report, first_failure.
  exec; rewrite ?app_nil_r; auto; congruence.
Qed.

Lemma update_git_config_written u n e t a :
  git_installed (git a) = true ->
  (forall cmd, git_fails (git a) cmd = false) ->
  git (snd (update_git_config u n e t a)) = git_written u n e t (git a).
Proof.
  intros H Hf.
  unfold update_git_config, remove_all_github_credentials, try_except, bind,
    subprocess_run, handle_error, show, ret.
  repeat (progress (simpl; rewrite ?H, ?Hf)). reflexivity.
Qed.

(** ** The active flags *)

Lemma keys_map_values (f : string -> Profile -> Profile) P :
  keys (dict_map_values f P) = keys P.
Proof.
  unfold keys, dict_map_values. rewrite map_map. now apply map_ext.
Qed.

Lemma dict_get_map_values (f : string -> Profile -> Profile) k P :
  dict_get k (dict_map_values f P) = option_map (f k) (dict_get k P).
Proof.
  induction P as [|[k' v] P IH]; simpl; [reflexivity|].
  destruct (k' =? k) eqn:E; [|exact IH].
  apply String.eqb_eq in E. now subst.
Qed.

Lemma active_mark_current_absent u P :
  ~ In u (keys P) -> active (mark_current u P) = [].
Proof.
  induction P as [|[k v] P IH]; simpl; [reflexivity|]. intros H.
  unfold active in *. simpl.
  destruct (k =? u) eqn:E.
  - apply String.eqb_eq in E. tauto.
  - simpl. apply IH. tauto.
Qed.

Lemma active_mark_current u P :
  wf P -> active (mark_current u P) = if dict_mem u P then [u] else [].
Proof.
  unfold wf, dict_mem. induction P as [|[k v] P IH]; simpl; [reflexivity|].
  intros H. inversion H as [|? ? Hnotin Hnd]; subst.
  unfold active in *. simpl. destruct (k =? u) eqn:E; simpl.
  - apply String.eqb_eq in E. subst k. f_equal.
    now apply active_mark_current_absent.
  - now apply IH.
Qed.

Lemma active_clear_current P : active (clear_current P) = [].
Proof.
  unfold active. induction P as [|[k v] P IH]; simpl; [reflexivity | exact IH].
Qed.

Lemma mark_current_at_most_one u P : wf P -> at_most_one (mark_current u P).
Proof.
  intros H. split.
  - unfold wf, mark_current. now rewrite keys_map_values.
  - unfold active_count. rewrite active_mark_current by assumption.
    destruct (dict_mem u P); simpl; lia.
Qed.

Lemma clear_current_at_most_one P : wf P -> at_most_one (clear_current P).
Proof.
  intros H. split.
  - unfold wf, clear_current. now rewrite keys_map_values.
  - unfold active_count. rewrite active_clear_current. simpl. lia.
Qed.

Lemma keys_dict_del_incl k (P : dict Profile) x :
  In x (keys (dict_del k P)) -> In x (keys P).
Proof.
  induction P as [|[k' v] P IH]; simpl; [tauto|].
  destruct (k' =? k); simpl; tauto.
Qed.

Lemma wf_dict_del k P : wf P -> wf (dict_del k P).
Proof.
  unfold wf. induction P as [|[k' v] P IH]; simpl; [auto|].
  intros H. inversion H as [|? ? Hnotin Hnd]; subst.
  destruct (k' =? k); [assumption|]. simpl. constructor; [|auto].
  intros Hin. apply Hnotin. eapply keys_dict_del_incl; eassumption.
Qed.

Lemma active_count_dict_del k P : active_count (dict_del k P) <= active_count P.
Proof.
  unfold active_count, active. induction P as [|[k' v] P IH]; simpl; [lia|].
  destruct (k' =? k); simpl; destruct (get_is_current v); simpl; lia.
Qed.

Lemma dict_del_at_most_one k P : at_most_one P -> at_most_one (dict_del k P).
Proof.
  intros [H1 H2]. split; [now apply wf_dict_del|].
  pose proof (active_count_dict_del k P). lia.
Qed.

Lemma keys_dict_update k (f : Profile -> Profile) P :
  keys (dict_update k f P) = keys P.
Proof.
  induction P as [|[k' v] P IH]; simpl; [reflexivity|].
  destruct (k' =? k); simpl; [reflexivity | now rewrite IH].
Qed.

Lemma active_dict_update k (f : Profile -> Profile) P :
  (forall p, get_is_current (f p) = get_is_current p) ->
  active (dict_update k f P) = active P.
Proof.
  intros Hf. unfold active. induction P as [|[k' v] P IH]; simpl; [reflexivity|].
  destruct (k' =? k); simpl.
  - rewrite Hf. now destruct (get_is_current v).
  - destruct (get_is_current v); simpl; now rewrite IH.
Qed.

Lemma dict_update_at_most_one k f P :
  (forall p, get_is_current (f p) = get_is_current p) ->
  at_most_one P -> at_most_one (dict_update k f P).
Proof.
  intros Hf [H1 H2]. split.
  - unfold wf. now rewrite keys_dict_update.
  - unfold active_count. now rewrite active_dict_update.
Qed.

Lemma dict_get_None_keys k (P : dict Profile) :
  dict_get k P = None -> ~ In k (keys P).
Proof.
  induction P as [|[k' v] P IH]; simpl; [tauto|].
  destruct (k' =? k) eqn:E; [discriminate|].
  apply String.eqb_neq in E. intros H [H1|H1]; [congruence | now apply IH].
Qed.

Lemma dict_get_Some_keys k (P : dict Profile) v :
  dict_get k P = Some v -> In k (keys P).
Proof.
  induction P as [|[k' v'] P IH]; simpl; [discriminate|].
  destruct (k' =? k) eqn:E; [|auto].
  apply String.eqb_eq in E. auto.
Qed.

Lemma dict_set_new_at_most_one k p P :
  dict_get k P = None -> get_is_current p = false ->
  at_most_one P -> at_most_one (dict_set k p P).
Proof.
  intros Hget Hp [H1 H2]. rewrite dict_set_new by assumption. split.
  - unfold wf, keys in *. rewrite map_app. simpl.
    apply NoDup_app; [assumption | repeat constructor; simpl; tauto |].
    intros x Hx [<-|[]]. now apply (dict_get_None_keys k P).
  - unfold active_count, active in *. rewrite filter_app. simpl. rewrite Hp.
    now rewrite app_nil_r.
Qed.

Lemma wf_dict_set k p P : wf P -> wf (dict_set k p P).
Proof.
  unfold wf. intros H. destruct (dict_get k P) as [v|] eqn:Hget.
  - replace (keys (dict_set k p P)) with (keys P); [assumption|].
    clear H. induction P as [|[k' v'] P IH]; simpl in *; [discriminate|].
    destruct (k' =? k) eqn:E; simpl.
    + apply String.eqb_eq in E. now subst.
    + f_equal. now apply IH.
  - rewrite dict_set_new by assumption. unfold keys. rewrite map_app. simpl.
    apply NoDup_app; [assumption | repeat constructor; simpl; tauto |].
    intros x Hx [<-|[]]. now apply (dict_get_None_keys k P).
Qed.

(** ** Activation *)

#[local] Arguments String.append : simpl never.

Lemma update_current_profile_spec u a :
  fst (update_current_profile u a) = Ok tt
  /\ profiles (snd (update_current_profile u a)) = mark_current u (profiles a)
  /\ git (snd (update_current_profile u a)) = git a
  /\ ui (snd (update_current_profile u a)) = (ui a ++ save_report (keyring a))%list
  /\ keyring_oracle (snd (update_current_profile u a)) = keyring_oracle a.
Proof.
  unfold update_current_profile, bind, get_profiles, set_profiles.
  set (a1 := mkApp (mark_current u (profiles a)) (git a) (keyring a) (ui a)).
  pose proof (save_profiles_ok a1) as H1.
  pose proof (frames_save_profiles_profiles a1) as H2.
  pose proof (frames_save_profiles_git a1) as H3.
  pose proof (save_profiles_ui a1) as H4.
  pose proof (frames_save_profiles_oracle a1) as H5.
  destruct (save_profiles a1) as [r a2]. simpl in *. auto.
Qed.

Lemma mark_current_flag u P k q :
  dict_get k (mark_current u P) = Some q -> get_is_current q = (k =? u).
Proof.
  unfold mark_current. rewrite dict_get_map_values.
  destruct (dict_get k P); simpl; [|discriminate].
  now intros [= <-].
Qed.

(** The activation of [switch_profile] for a stored profile with a token. *)
Lemma switch_profile_run a id p :
  dict_get id (profiles a) = Some p ->
  Py.truthy (token p) = true ->
  let a' := snd (switch_profile (Some id) a) in
  if git_installed (git a) then
    profiles a' = mark_current id (profiles a)
    /\ ui a' = (ui a ++ git_report (git a) ++ save_report (keyring a)
                ++ [Information ("Switched to profile: " ++ id)])%list
  else
    profiles a' = profiles a
    /\ ui a' = (ui a ++ [Critical "Failed to switch profile" FileNotFoundError])%list.
Proof.
  intros Hget Htok. simpl.
  assert (Htruthy : profile_truthy p = true).
  { unfold profile_truthy. destruct (token p); [reflexivity | discriminate]. }
  unfold switch_profile, try_except, bind, get_profiles.
  rewrite Hget, Htruthy, Htok.
  destruct (git_installed (git a)) eqn:Hi.
  - destruct (update_git_config_installed id (Py.get (name p) id)
                (Py.get (email p) "") (Py.get (token p) "") a Hi)
      as (Hr & Hp & Hk & Hu).
    destruct (update_git_config _ _ _ _ a) as [r a1]. simpl in *. subst r.
    destruct (update_current_profile_spec id a1) as (Hr' & Hp' & _ & Hu' & _).
    destruct (update_current_profile id a1) as [r a2]. simpl in *. subst r.
    simpl. rewrite Hp', Hp, Hu', Hu, Hk. split; [reflexivity|].
    now rewrite <- !app_assoc.
  - rewrite update_git_config_missing by assumption. simpl. auto.
Qed.

(** C1, as stated, fails: the profile has a token, the write-through fails at
    its first command and leaves [user.name] as it was, and yet the flags
    are changed (alice becomes the current profile, bob no longer is) and
    the operation ends with its success message. *)
Lemma activation_atomic_counterexample :
  let a' := snd (switch_profile (Some "alice") app_set_name_fails) in
  item_get token "alice" (profiles app_set_name_fails) = Some "t1"
  /\ first_failure (git app_set_name_fails) = Some (ConfigSet UserName)
  /\ git_config (git a') UserName = Some "Bob B"
  /\ active (profiles app_set_name_fails) = ["bob"]
  /\ active (profiles a') = ["alice"]
  /\ ui a' = [Critical "Failed to update Git config"
                (CalledProcessError (ConfigSet UserName));
              Information "Switched to profile: alice"].
Proof. vm_compute. repeat split. Qed.

(** C1, amended.  For a stored profile with a token: when git can be run,
    [switch_profile] makes it the only current profile whether or not the
    write-through succeeded, a failed command of the write-through being
    reported by [update_git_config] itself before the success message; only
    when git cannot be run at all are the flags left as they were and the
    operation fails. *)
Theorem switch_profile_activation (a : App) (id : string) (p : Profile) :
  dict_get id (profiles a) = Some p ->
  Py.truthy (token p) = true ->
  let a' := snd (switch_profile (Some id) a) in
  (git_installed (git a) = true ->
     (forall k q, dict_get k (profiles a') = Some q -> get_is_current q = (k =? id))
     /\ keys (profiles a') = keys (profiles a)
     /\ (forall cmd, first_failure (git a) = Some cmd ->
           In (Critical "Failed to update Git config" (CalledProcessError cmd)) (ui a'))
     /\ last (ui a') (Warning "") = Information ("Switched to profile: " ++ id))
  /\ (git_installed (git a) = false ->
        profiles a' = profiles a
        /\ ui a' = (ui a ++ [Critical "Failed to switch profile" FileNotFoundError])%list).
Proof.
  intros Hget Htok a'. pose proof (switch_profile_run a id p Hget Htok) as H.
  simpl in H. fold a' in H. split; intros Hi; rewrite Hi in H; [|exact H].
  destruct H as [Hp Hu]. rewrite Hp, Hu. repeat split.
  - intros k q. apply mark_current_flag.
  - apply keys_map_values.
  - intros cmd Hc. unfold git_report. rewrite Hc.
    apply in_or_app. right. simpl. auto.
  - rewrite !app_assoc. apply last_last.
Qed.

Lemma switch_profile_activation_witness :
  let a' := snd (switch_profile (Some "alice") app_set_name_fails) in
  (forall k q, dict_get k (profiles a') = Some q -> get_is_current q = (k =? "alice"))
  /\ keys (profiles a') = ["alice"; "bob"]
  /\ (forall cmd, first_failure (git app_set_name_fails) = Some cmd ->
        In (Critical "Failed to update Git config" (CalledProcessError cmd)) (ui a'))
  /\ last (ui a') (Warning "") = Information "Switched to profile: alice".
Proof.
  apply (proj1 (switch_profile_activation app_set_name_fails "alice"
                  (sample_profile "Alice A" "a@x.com" "t1" false)
                  eq_refl eq_refl)).
  reflexivity.
Defined.

(** ** The operations preserve "at most one current profile" *)

Section Keeps.
Context (I : dict Profile -> Prop).

Lemma keeps_frames {A} (m : M A) : frames profiles m -> keeps I m.
Proof. intros H a Ha. now rewrite H. Qed.

Lemma keeps_bind {A B} (m : M A) (k : A -> M B) :
  keeps I m -> (forall x, keeps I (k x)) -> keeps I (bind m k).
Proof.
  intros Hm Hk a Ha. unfold bind. specialize (Hm a Ha).
  destruct (m a) as [[x|e] a1]; simpl in *; [|exact Hm].
  now apply Hk.
Qed.

Lemma keeps_try {A} (body : M A) catches handler :
  keeps I body -> (forall e, keeps I (handler e)) ->
  keeps I (try_except body catches handler).
Proof.
  intros Hm Hh a Ha. unfold try_except. specialize (Hm a Ha).
  destruct (body a) as [[x|e] a1]; simpl in *; [exact Hm|].
  destruct (catches e); [now apply Hh | exact Hm].
Qed.

(** [P <- get_profiles ;; k P]: the continuation runs on the dictionary it
    was given. *)
Lemma keeps_get_profiles {B} (k : dict Profile -> M B) :
  (forall a, I (profiles a) -> I (profiles (snd (k (profiles a) a)))) ->
  keeps I (bind get_profiles k).
Proof. intros H a Ha. unfold bind, get_profiles. now apply H. Qed.

Lemma keeps_set_profiles {B} (d : dict Profile) (k : M B) a :
  I d -> keeps I k -> I (profiles (snd (bind (set_profiles d) (fun _ => k) a))).
Proof. intros Hd Hk. unfold bind, set_profiles. now apply Hk. Qed.

End Keeps.

Lemma keeps_save_profiles I : keeps I save_profiles.
Proof. apply keeps_frames, frames_save_profiles_profiles. Qed.

Lemma keeps_show I e : keeps I (show e).
Proof. apply keeps_frames, frames_show_profiles. Qed.

Lemma frames_update_git_config_profiles u n e t :
  frames profiles (update_git_config u n e t).
Proof. unfold update_git_config, remove_all_github_credentials. frames. Qed.

Lemma frames_remove_git_credential_profiles u :
  frames profiles (remove_git_credential u).
Proof. unfold remove_git_credential. frames. Qed.

Lemma frames_get_current_profile {T} (obs : App -> T) :
  frames obs get_current_profile.
Proof. unfold get_current_profile. frames. Qed.

Lemma keeps_wf_update_current_profile u : keeps wf (update_current_profile u).
Proof.
  intros a Ha. destruct (update_current_profile_spec u a) as (_ & -> & _).
  unfold wf, mark_current. now rewrite keys_map_values.
Qed.

(** [update_current_profile] establishes the invariant on any dictionary. *)
Lemma update_current_profile_at_most_one u a :
  wf (profiles a) -> at_most_one (profiles (snd (update_current_profile u a))).
Proof.
  intros Ha. destruct (update_current_profile_spec u a) as (_ & -> & _).
  now apply mark_current_at_most_one.
Qed.

Lemma keeps_update_current_profile u : keeps at_most_one (update_current_profile u).
Proof. intros a [Ha _]. now apply update_current_profile_at_most_one. Qed.

Lemma keeps_switch_to_profile u : keeps at_most_one (switch_to_profile u).
Proof.
  unfold switch_to_profile. apply keeps_get_profiles. intros a Ha.
  destruct (dict_get u (profiles a)) as [p|]; [|exact Ha].
  destruct (profile_truthy p); [|exact Ha].
  destruct (Py.truthy (token p)); [|exact Ha].
  revert a Ha. apply keeps_bind.
  - apply keeps_frames, frames_update_git_config_profiles.
  - intros _. apply keeps_bind; [apply keeps_update_current_profile|].
    intros _. apply keeps_show.
Qed.

Lemma keeps_switch_profile selected : keeps at_most_one (switch_profile selected).
Proof.
  unfold switch_profile. apply keeps_try.
  - destruct selected as [u|]; [apply keeps_switch_to_profile | apply keeps_show].
  - intros e. apply keeps_show.
Qed.

Lemma keeps_clear_git_config : keeps at_most_one clear_git_config.
Proof.
  unfold clear_git_config. apply keeps_try; [|intros e; apply keeps_show].
  do 3 (apply keeps_bind;
        [apply keeps_frames, frames_subprocess_run_profiles | intros _]).
  apply keeps_bind.
  { apply keeps_frames. unfold remove_all_github_credentials. frames. }
  intros _. apply keeps_get_profiles. intros a [Ha _].
  apply keeps_set_profiles.
  - now apply clear_current_at_most_one.
  - apply keeps_bind; [apply keeps_save_profiles | intros _; apply keeps_show].
Qed.

Lemma keeps_delete_profile selected reply_yes :
  keeps at_most_one (delete_profile selected reply_yes).
Proof.
  unfold delete_profile. apply keeps_try; [|intros e; apply keeps_show].
  destruct selected as [u|]; [|apply keeps_show].
  apply keeps_get_profiles. intros a Ha.
  destruct (dict_get u (profiles a)) as [p|]; [|exact Ha].
  destruct (get_is_current p && negb reply_yes); [exact Ha|].
  apply keeps_set_profiles; [now apply dict_del_at_most_one|].
  apply keeps_bind; [apply keeps_frames, frames_keyring_run_profiles | intros _].
  apply keeps_bind; [apply keeps_frames, frames_remove_git_credential_profiles | intros _].
  apply keeps_bind; [apply keeps_save_profiles | intros _].
  apply keeps_bind; [|intros _; apply keeps_show].
  destruct (get_is_current p); [|apply keeps_frames, frames_ret].
  apply keeps_get_profiles. intros a' Ha'.
  destruct (profiles a') eqn:E;
    [apply keeps_clear_git_config | apply keeps_switch_to_profile]; now rewrite E.
Qed.

Lemma keeps_edit_profile selected accepted new_name new_email new_tag :
  keeps at_most_one (edit_profile selected accepted new_name new_email new_tag).
Proof.
  unfold edit_profile. apply keeps_try; [|intros e; apply keeps_show].
  destruct selected as [u|]; [|apply keeps_show].
  apply keeps_get_profiles. intros a Ha.
  destruct (dict_get u (profiles a)) as [p|]; [|now apply keeps_show].
  destruct (profile_truthy p); [|now apply keeps_show].
  destruct accepted; [|exact Ha].
  apply keeps_set_profiles; [now apply dict_update_at_most_one|].
  apply keeps_bind; [apply keeps_save_profiles | intros _].
  apply keeps_bind; [|intros _; apply keeps_show].
  destruct (get_is_current p); [|apply keeps_frames, frames_ret].
  destruct (Py.truthy (token p)); apply keeps_frames;
    [apply frames_update_git_config_profiles | apply frames_ret].
Qed.

Lemma keeps_edit_tag selected new_tag ok :
  keeps at_most_one (edit_tag selected new_tag ok).
Proof.
  unfold edit_tag. apply keeps_try; [|intros e; apply keeps_show].
  destruct selected as [u|]; [|apply keeps_show].
  apply keeps_get_profiles. intros a Ha.
  destruct (dict_get u (profiles a)) as [p|]; [|exact Ha].
  destruct ok; [|exact Ha].
  apply keeps_set_profiles; [now apply dict_update_at_most_one|].
  apply keeps_bind; [apply keeps_save_profiles | intros _; apply keeps_show].
Qed.

Lemma frames_get_github_user_info_profiles response :
  frames profiles (get_github_user_info response).
Proof.
  unfold get_github_user_info. apply frames_try.
  - destruct response as [|code l n e av]; [apply frames_raise|].
    destruct (code =? 200)%Z; [apply frames_ret | apply frames_raise].
  - intros e. frames.
Qed.

Lemma keeps_handle_oauth_completion token response tag ok :
  keeps at_most_one (handle_oauth_completion token response tag ok).
Proof.
  unfold handle_oauth_completion.
  destruct (token =? ""); [apply keeps_show|].
  apply keeps_try; [|intros e; apply keeps_show].
  apply keeps_bind; [apply keeps_frames, frames_get_github_user_info_profiles|].
  intros [[[login name] email] avatar_url].
  destruct login as [username|]; [|apply keeps_frames, frames_ret].
  destruct (negb (username =? "")); [|apply keeps_frames, frames_ret].
  apply keeps_get_profiles. intros a Ha.
  unfold dict_mem.
  destruct (dict_get username (profiles a)) eqn:Hget; simpl; [exact Ha|].
  destruct ok; [|exact Ha].
  apply keeps_set_profiles; [now apply dict_set_new_at_most_one|].
  apply keeps_bind; [apply keeps_save_profiles | intros _].
  apply keeps_bind; [apply keeps_frames, frames_get_current_profile|].
  intros current. destruct (negb (Py.truthy current)); [|apply keeps_show].
  apply keeps_bind; [apply keeps_update_current_profile | intros _].
  apply keeps_bind; [apply keeps_switch_to_profile | intros _; apply keeps_show].
Qed.

(** ** Start-up *)

Lemma frames_keyring_get_password {T} (obs : App -> T) u :
  frames obs (keyring_get_password u).
Proof.
  intros a. unfold keyring_get_password, keyring_run.
  destruct (kr_fails (keyring a) GetPassword); [reflexivity|]. now destruct a.
Qed.

Lemma frames_load_keyring_loop {T} (obs : App -> T) usernames acc :
  frames obs (load_keyring_loop usernames acc).
Proof.
  revert acc. induction usernames as [|u l IH]; intros acc; simpl.
  - apply frames_ret.
  - apply frames_bind; [apply frames_keyring_get_password|].
    intros [p|]; apply IH.
Qed.

Lemma frames_load_keyring_profiles {T} (obs : App -> T) :
  frames obs load_keyring_profiles.
Proof.
  unfold load_keyring_profiles. apply frames_bind.
  - intros a. unfold keyring_get_usernames, keyring_run.
    destruct (kr_fails (keyring a) GetPassword); [reflexivity|]. now destruct a.
  - intros l. apply frames_load_keyring_loop.
Qed.

Lemma load_keyring_loop_wf usernames acc a kp a' :
  wf acc -> load_keyring_loop usernames acc a = (Ok kp, a') -> wf kp.
Proof.
  revert acc a. induction usernames as [|u l IH]; intros acc a Hacc; simpl.
  - unfold ret. now intros [= <- _].
  - unfold bind. destruct (keyring_get_password u a) as [[[p|]|e] a1];
      [| |discriminate]; apply IH; [now apply wf_dict_set | assumption].
Qed.

Lemma load_keyring_profiles_wf a kp a' :
  load_keyring_profiles a = (Ok kp, a') -> wf kp.
Proof.
  unfold load_keyring_profiles, bind.
  destruct (keyring_get_usernames a) as [[l|e] a1]; [|discriminate].
  apply load_keyring_loop_wf. constructor.
Qed.

Lemma frames_get_git_credentials {T} (obs : App -> T) :
  frames obs get_git_credentials.
Proof.
  unfold get_git_credentials. apply frames_try; [|intros e; apply frames_ret].
  apply frames_bind; [apply frames_credential_fill|]. intros [u p].
  apply frames_bind.
  - unfold get_git_user_info. frames.
  - intros info. destruct u, p; apply frames_ret.
Qed.

(** Without the executable nothing is read: the error is not a
    [CalledProcessError] and goes up to the caller. *)
Lemma get_git_credentials_missing a :
  git_installed (git a) = false ->
  get_git_credentials a = (Raise FileNotFoundError, a).
Proof.
  intros H. unfold get_git_credentials, try_except, bind, credential_fill.
  now rewrite H.
Qed.

Lemma subprocess_stdout_installed key a :
  git_installed (git a) = true ->
  subprocess_stdout false key a = (Ok (config_stdout (git a) key), a).
Proof.
  intros H. unfold subprocess_stdout, config_stdout. rewrite H. simpl.
  destruct (git_fails (git a) (ConfigGet key)); [reflexivity|].
  now destruct (git_config (git a) key).
Qed.

Lemma get_current_profile_installed a :
  git_installed (git a) = true ->
  get_current_profile a
  = (Ok (find_current (Py.strip (config_stdout (git a) UserName))
           (Py.strip (config_stdout (git a) UserEmail)) (profiles a)), a).
Proof.
  intros H. unfold get_current_profile, try_except, bind.
  now rewrite !subprocess_stdout_installed by assumption.
Qed.

Lemma get_current_profile_missing a :
  git_installed (git a) = false ->
  get_current_profile a = (Raise FileNotFoundError, a).
Proof.
  intros H.
  unfold get_current_profile, try_except, bind, subprocess_stdout.
  now rewrite H.
Qed.

Lemma wf_merge_profiles_dict P E : wf P -> wf (merge_profiles_dict P E).
Proof.
  intros H. destruct (usable E) eqn:Hg; [|now rewrite merge_not_usable].
  destruct (usable_username E Hg) as [id Hu].
  destruct (dict_get id P) as [p|] eqn:Hget.
  - rewrite (merge_existing P E id p) by assumption.
    unfold wf. now rewrite keys_dict_update.
  - rewrite (merge_new P E id) by assumption. now apply wf_dict_set.
Qed.

Lemma merge_profiles_spec kp gp a :
  fst (merge_profiles kp gp a) = Ok tt
  /\ profiles (snd (merge_profiles kp gp a)) = merge_profiles_dict kp gp
  /\ git (snd (merge_profiles kp gp a)) = git a.
Proof.
  unfold merge_profiles, bind, set_profiles.
  set (a1 := mkApp _ _ _ _).
  pose proof (save_profiles_ok a1) as H1.
  pose proof (frames_save_profiles_profiles a1) as H2.
  pose proof (frames_save_profiles_git a1) as H3.
  destruct (save_profiles a1) as [r a2]. simpl in *. auto.
Qed.

(** After the merge the flags are whatever the keyring held; the rest of
    [load_profiles] sets them from git's name and e-mail. *)
Lemma load_profiles_at_most_one a :
  at_most_one (profiles a) -> at_most_one (profiles (snd (load_profiles a))).
Proof.
  intros Ha. unfold load_profiles, try_except. unfold bind at 1.
  pose proof (frames_load_keyring_profiles profiles a) as Hp1.
  pose proof (frames_load_keyring_profiles git a) as Hg1.
  pose proof (load_keyring_profiles_wf a) as Hwf.
  destruct (load_keyring_profiles a) as [[kp|e] a1]; simpl in Hp1, Hg1;
    [|simpl; now rewrite Hp1].
  specialize (Hwf kp a1 eq_refl). unfold bind at 1.
  pose proof (frames_get_git_credentials profiles a1) as Hp2.
  pose proof (frames_get_git_credentials git a1) as Hg2.
  destruct (git_installed (git a1)) eqn:Hi.
  2:{ rewrite get_git_credentials_missing by assumption. simpl. now rewrite Hp1. }
  destruct (get_git_credentials a1) as [[gp|e] a2]; simpl in Hp2, Hg2;
    [|simpl; now rewrite Hp2, Hp1].
  unfold bind at 1.
  destruct (merge_profiles_spec kp gp a2) as (Hr3 & Hp3 & Hg3).
  destruct (merge_profiles kp gp a2) as [r a3]. simpl in Hr3, Hp3, Hg3. subst r.
  assert (Hwf3 : wf (profiles a3)) by (rewrite Hp3; now apply wf_merge_profiles_dict).
  unfold bind at 1.
  rewrite get_current_profile_installed by congruence.
  match goal with |- context [Py.truthy ?c] => destruct (Py.truthy c) end.
  - pose proof (update_current_profile_at_most_one
                  (Py.get (find_current (Py.strip (config_stdout (git a3) UserName))
                             (Py.strip (config_stdout (git a3) UserEmail)) (profiles a3)) "")
                  a3 Hwf3) as H.
    destruct (update_current_profile _ a3) as [[[]|e] a4]; simpl in *; exact H.
  - unfold bind, get_profiles, set_profiles.
    set (a4 := mkApp _ _ _ _).
    pose proof (save_profiles_ok a4) as H1.
    pose proof (frames_save_profiles_profiles a4) as H2.
    destruct (save_profiles a4) as [r a5]. simpl in *. subst r. simpl.
    rewrite H2. now apply clear_current_at_most_one.
Qed.

Lemma init_at_most_one a : at_most_one (profiles (snd (init a))).
Proof.
  unfold init, bind at 1, set_profiles.
  set (a0 := mkApp [] (git a) (keyring a) (ui a)).
  assert (H0 : at_most_one (profiles a0)).
  { split; [apply NoDup_nil | unfold active_count; simpl; lia]. }
  apply load_profiles_at_most_one in H0. unfold bind at 1.
  destruct (load_profiles a0) as [[[]|e] a1]; simpl in H0; [|exact H0].
  revert a1 H0. apply keeps_bind.
  - apply keeps_frames, frames_get_current_profile.
  - intros c. destruct (Py.truthy c);
      [apply keeps_update_current_profile | apply keeps_frames, frames_ret].
Qed.

(** ** Reachable states *)

Lemma keeps_run_op op : keeps at_most_one (run_op op).
Proof.
  destruct op; simpl.
  - apply keeps_handle_oauth_completion.
  - apply keeps_switch_profile.
  - apply keeps_edit_profile.
  - apply keeps_edit_tag.
  - apply keeps_delete_profile.
  - apply keeps_clear_git_config.
Qed.

Lemma reachable_at_most_one a : reachable a -> at_most_one (profiles a).
Proof.
  induction 1 as [a | a op _ IH | a g k _ IH].
  - apply init_at_most_one.
  - now apply keeps_run_op.
  - exact IH.
Qed.

(** C2.  In every state reachable from the start of the program by the
    operations (load and merge at start-up, add account, switch, edit,
    delete, clear), no or one profile has [is_current] set. *)
Theorem at_most_one_active (a : App) :
  reachable a ->
  active_count (profiles a) = 0 \/ active_count (profiles a) = 1.
Proof.
  intros H. destruct (reachable_at_most_one a H) as [_ Hc]. lia.
Qed.

Lemma at_most_one_active_witness :
  let a := snd (run_op (DeleteProfile (Some "bob") true)
                  (snd (run_op (SwitchProfile (Some "alice"))
                          (snd (init app_set_name_fails))))) in
  active_count (profiles a) = 0 \/ active_count (profiles a) = 1.
Proof.
  apply at_most_one_active. apply reach_op. apply reach_op. apply reach_init.
Defined.

(** ** [sorted(...)[0]] is the least key *)

Lemma ascii_compare_refl c : Ascii.compare c c = Eq.
Proof. unfold Ascii.compare. apply N.compare_refl. Qed.

Lemma string_compare_refl s : String.compare s s = Eq.
Proof.
  induction s as [|c s IH]; simpl; [reflexivity|].
  now rewrite ascii_compare_refl.
Qed.

Lemma string_leb_refl s : String.leb s s = true.
Proof. unfold String.leb. now rewrite string_compare_refl. Qed.

Lemma string_compare_not_Gt_trans s1 s2 s3 :
  String.compare s1 s2 <> Gt -> String.compare s2 s3 <> Gt ->
  String.compare s1 s3 <> Gt.
Proof.
  revert s2 s3. induction s1 as [|a s1 IH]; intros [|b s2] [|c s3]; simpl;
    try congruence.
  unfold Ascii.compare.
  destruct (N.compare_spec (N_of_ascii a) (N_of_ascii b)) as [Hab|Hab|Hab];
    destruct (N.compare_spec (N_of_ascii b) (N_of_ascii c)) as [Hbc|Hbc|Hbc];
    try congruence; intros H1 H2.
  - rewrite Hab, Hbc, N.compare_refl. now apply (IH s2).
  - rewrite Hab. apply N.compare_lt_iff in Hbc. now rewrite Hbc.
  - rewrite <- Hbc. apply N.compare_lt_iff in Hab. now rewrite Hab.
  - assert (H : (N_of_ascii a < N_of_ascii c)%N) by lia.
    apply N.compare_lt_iff in H. now rewrite H.
Qed.

Lemma string_leb_trans s1 s2 s3 :
  String.leb s1 s2 = true -> String.leb s2 s3 = true -> String.leb s1 s3 = true.
Proof.
  unfold String.leb. intros H1 H2.
  pose proof (string_compare_not_Gt_trans s1 s2 s3) as H.
  destruct (String.compare s1 s2), (String.compare s2 s3); try discriminate;
    destruct (String.compare s1 s3); try reflexivity;
    exfalso; apply H; congruence.
Qed.

Lemma hd_insert x l :
  hd "" (Py.insert x l)
  = match l with
    | [] => x
    | y :: _ => if String.leb x y then x else y
    end.
Proof. destruct l as [|y l]; simpl; [reflexivity|]. now destruct (String.leb x y). Qed.

Lemma insert_not_nil x l : Py.insert x l <> [].
Proof. destruct l as [|y l]; simpl; [discriminate|]. now destruct (String.leb x y). Qed.

Lemma sorted_nil_inv l : Py.sorted l = [] -> l = [].
Proof.
  destruct l as [|x l]; [reflexivity|]. simpl. intros H.
  now apply insert_not_nil in H.
Qed.

Lemma hd_sorted_least l :
  l <> [] ->
  In (hd "" (Py.sorted l)) l
  /\ forall k, In k l -> String.leb (hd "" (Py.sorted l)) k = true.
Proof.
  induction l as [|x l IH]; [congruence|]. intros _. simpl.
  rewrite hd_insert. destruct (Py.sorted l) as [|m r] eqn:Hs.
  - apply sorted_nil_inv in Hs. subst l. split; [now left|].
    intros k [<-|[]]. apply string_leb_refl.
  - assert (Hl : l <> []) by (intros ->; discriminate).
    destruct (IH Hl) as [Hin Hle]. simpl in Hin, Hle.
    destruct (String.leb x m) eqn:Hxm.
    + split; [now left|]. intros k [<-|Hk]; [apply string_leb_refl|].
      eapply string_leb_trans; [exact Hxm | now apply Hle].
    + split; [now right|]. intros k [<-|Hk]; [|now apply Hle].
      destruct (String.leb_total x m) as [H|H]; congruence.
Qed.

(** ** Deletion *)

Lemma remove_git_credential_spec u a :
  git_installed (git a) = true ->
  fst (remove_git_credential u a) = Ok tt
  /\ profiles (snd (remove_git_credential u a)) = profiles a
  /\ git_installed (git (snd (remove_git_credential u a))) = true
  /\ git_fails (git (snd (remove_git_credential u a))) = git_fails (git a)
  /\ keyring_oracle (snd (remove_git_credential u a)) = keyring_oracle a.
Proof.
  intros H. unfold remove_git_credential, try_except, subprocess_run.
  rewrite H. simpl. destruct (git_fails (git a) CredentialRejectUser); simpl; auto.
Qed.

Lemma switch_to_profile_spec u a q :
  git_installed (git a) = true ->
  dict_get u (profiles a) = Some q ->
  Py.truthy (token q) = true ->
  fst (switch_to_profile u a) = Ok tt
  /\ profiles (snd (switch_to_profile u a)) = mark_current u (profiles a)
  /\ ((forall cmd, git_fails (git a) cmd = false) ->
      git (snd (switch_to_profile u a))
      = git_written u (Py.get (name q) u) (Py.get (email q) "")
          (Py.get (token q) "") (git a)).
Proof.
  intros Hi Hget Htok.
  assert (Htruthy : profile_truthy q = true).
  { unfold profile_truthy. destruct (token q); [reflexivity | discriminate]. }
  unfold switch_to_profile, bind, get_profiles.
  rewrite Hget, Htruthy, Htok.
  destruct (update_git_config_installed u (Py.get (name q) u)
              (Py.get (email q) "") (Py.get (token q) "") a Hi)
    as (Hr & Hp & _).
  pose proof (update_git_config_written u (Py.get (name q) u)
                (Py.get (email q) "") (Py.get (token q) "") a Hi) as Hw.
  destruct (update_git_config _ _ _ _ a) as [r a1]. simpl in *. subst r.
  destruct (update_current_profile_spec u a1) as (Hr' & Hp' & Hg' & _).
  destruct (update_current_profile u a1) as [r a2]. simpl in *. subst r.
  simpl. rewrite Hp', Hp, Hg'. auto.
Qed.

Lemma clear_git_config_ok a :
  git_installed (git a) = true ->
  (forall cmd, git_fails (git a) cmd = false) ->
  fst (clear_git_config a) = Ok tt
  /\ profiles (snd (clear_git_config a)) = clear_current (profiles a)
  /\ git (snd (clear_git_config a)) = git_cleared (git a).
Proof.
  intros Hi Hf.
  unfold clear_git_config, remove_all_github_credentials, try_except, bind,
    subprocess_run, get_profiles, set_profiles.
  repeat (progress (simpl; rewrite ?Hi, ?Hf)).
  set (a1 := mkApp _ _ _ _).
  pose proof (save_profiles_ok a1) as H1.
  pose proof (frames_save_profiles_profiles a1) as H2.
  pose proof (frames_save_profiles_git a1) as H3.
  destruct (save_profiles a1) as [r a2]. simpl in *. subst r. simpl. auto.
Qed.

Lemma keeps_nil_clear_git_config : keeps (fun P => P = []) clear_git_config.
Proof.
  unfold clear_git_config. apply keeps_try; [|intros e; apply keeps_show].
  do 3 (apply keeps_bind;
        [apply keeps_frames, frames_subprocess_run_profiles | intros _]).
  apply keeps_bind.
  { apply keeps_frames. unfold remove_all_github_credentials. frames. }
  intros _. apply keeps_get_profiles. intros a Ha.
  apply keeps_set_profiles.
  - now rewrite Ha.
  - apply keeps_bind; [apply keeps_save_profiles | intros _; apply keeps_show].
Qed.

(** The run of [delete_profile] on the current profile, confirmed, up to the
    fallback: the profile is gone from [self.profiles] and the fallback runs
    in a state with the same oracle. *)
Lemma delete_profile_current a id p :
  dict_get id (profiles a) = Some p ->
  get_is_current p = true ->
  kr_fails (keyring a) DeletePassword = false ->
  git_installed (git a) = true ->
  exists a1,
    profiles a1 = dict_del id (profiles a)
    /\ git_installed (git a1) = true
    /\ git_fails (git a1) = git_fails (git a)
    /\ delete_profile (Some id) true a
       = let fallback :=
           match dict_del id (profiles a) with
           | _ :: _ => switch_to_profile (hd "" (Py.sorted (keys (dict_del id (profiles a)))))
           | [] => clear_git_config
           end in
         match fallback a1 with
         | (Ok _, a2) =>
             (Ok tt, mkApp (profiles a2) (git a2) (keyring a2)
                       (ui a2 ++ [Information ("Deleted profile: " ++ id)]))
         | (Raise e, a2) =>
             (Ok tt, mkApp (profiles a2) (git a2) (keyring a2)
                       (ui a2 ++ [CriticalStr "Failed to delete profile: " e]))
         end.
Proof.
  intros Hget Hcur Hk Hi.
  unfold delete_profile, try_except, bind, get_profiles, set_profiles.
  rewrite Hget, Hcur. simpl.
  unfold keyring_delete_password, keyring_run. simpl. rewrite Hk.
  set (a0 := mkApp _ _ _ _).
  destruct (remove_git_credential_spec id a0 Hi) as (Hr & Hp & Hi' & Hf' & _).
  destruct (remove_git_credential id a0) as [r a1]. simpl in Hr, Hp, Hi', Hf'. subst r.
  pose proof (save_profiles_ok a1) as H1.
  pose proof (frames_save_profiles_profiles a1) as H2.
  pose proof (frames_save_profiles_git a1) as H3.
  destruct (save_profiles a1) as [r a2]. simpl in H1, H2, H3. subst r.
  exists a2. rewrite H2, H3, Hp. repeat split; try assumption.
  simpl. destruct (dict_del id (profiles a)); simpl.
  - destruct (clear_git_config a2) as [[[]|e] a3]; reflexivity.
  - destruct (switch_to_profile _ a2) as [[[]|e] a3]; reflexivity.
Qed.

(** C3, as stated, fails: alice is the current profile of a collection of
    two, every git and keyring command works, the deletion is confirmed, and
    afterwards bob remains and no profile is current. *)
Lemma delete_fallback_counterexample :
  let a' := snd (delete_profile (Some "alice") true app_tokenless_bob) in
  keys (profiles app_tokenless_bob) = ["alice"; "bob"]
  /\ active (profiles app_tokenless_bob) = ["alice"]
  /\ keys (profiles a') = ["bob"]
  /\ active (profiles a') = []
  /\ ui a' = [CriticalStr "Failed to delete profile: "
                (Exception "Token not found for the selected profile")].
Proof. vm_compute. repeat split. Qed.

(** C3, amended.  Deleting the current profile (the deletion confirmed, the
    keyring entry deleted, git runnable): if profiles remain and the least
    remaining user name has a token, that profile becomes the only current
    one, and git's name, e-mail and credential are rewritten to it when
    every git command succeeds; if no profile remains, none is current, and
    git's name, e-mail, helper and credentials are cleared when every git
    command succeeds. *)
Theorem delete_current_fallback (a : App) (id : string) (p : Profile) :
  wf (profiles a) ->
  dict_get id (profiles a) = Some p ->
  get_is_current p = true ->
  kr_fails (keyring a) DeletePassword = false ->
  git_installed (git a) = true ->
  let rest := dict_del id (profiles a) in
  let new := hd "" (Py.sorted (keys rest)) in
  let a' := snd (delete_profile (Some id) true a) in
  (rest = [] ->
     profiles a' = []
     /\ ((forall cmd, git_fails (git a) cmd = false) ->
         git_credentials (git a') = []
         /\ forall key, git_config (git a') key = None))
  /\ (forall q,
        rest <> [] -> dict_get new rest = Some q -> Py.truthy (token q) = true ->
        keys (profiles a') = keys rest
        /\ active (profiles a') = [new]
        /\ (forall k, In k (keys rest) -> String.leb new k = true)
        /\ ((forall cmd, git_fails (git a) cmd = false) ->
            git_config (git a') UserName = Some (Py.get (name q) new)
            /\ git_config (git a') UserEmail = Some (Py.get (email q) "")
            /\ git_credentials (git a') = [(new, Py.get (token q) "")])).
Proof.
  intros Hwf Hget Hcur Hk Hi rest new a'.
  destruct (delete_profile_current a id p Hget Hcur Hk Hi)
    as (a1 & Hp1 & Hi1 & Hf1 & Heq).
  subst a'. rewrite Heq. clear Heq. fold rest in Hp1 |- *. split.
  - intros Hrest. rewrite Hrest. simpl.
    assert (Hnil : profiles a1 = []) by congruence.
    pose proof (keeps_nil_clear_git_config a1 Hnil) as Hp2.
    split.
    + destruct (clear_git_config a1) as [[[]|e] a2]; exact Hp2.
    + intros Hall.
      destruct (clear_git_config_ok a1 Hi1) as (Hr & _ & Hg);
        [intros cmd; now rewrite Hf1|].
      destruct (clear_git_config a1) as [r a2]. simpl in Hr, Hg. subst r.
      simpl. rewrite Hg. split; [reflexivity | now intros []].
  - intros q Hrest Hq Htok.
    assert (Hfb : match rest with
                  | [] => clear_git_config
                  | _ :: _ => switch_to_profile new
                  end = switch_to_profile new)
      by (destruct rest; [congruence | reflexivity]).
    simpl. fold new. rewrite Hfb.
    rewrite <- Hp1 in Hq.
    destruct (switch_to_profile_spec new a1 q Hi1 Hq Htok) as (Hr & Hp & Hg).
    destruct (switch_to_profile new a1) as [r a2]. simpl in Hr, Hp, Hg. subst r.
    simpl. rewrite Hp, Hp1. repeat split.
    + apply keys_map_values.
    + rewrite active_mark_current by now apply wf_dict_del.
      unfold dict_mem. rewrite <- Hp1, Hq. reflexivity.
    + apply hd_sorted_least. intros H. apply Hrest.
      destruct rest; [reflexivity | discriminate].
    + rewrite Hg by (intros cmd; now rewrite Hf1). reflexivity.
    + rewrite Hg by (intros cmd; now rewrite Hf1). reflexivity.
    + rewrite Hg by (intros cmd; now rewrite Hf1). reflexivity.
Qed.

Lemma wf_alice_and_bob : wf alice_and_bob.
Proof.
  unfold wf. simpl. repeat constructor; simpl; intuition discriminate.
Defined.

Lemma wf_only_alice : wf only_alice.
Proof. unfold wf. simpl. repeat constructor; simpl; intuition. Defined.

(** The scenario of the specification (alice current, bob; delete alice) and
    the deletion of the last profile. *)
Lemma delete_current_fallback_witness :
  (let a' := snd (delete_profile (Some "alice") true app_alice_and_bob) in
   keys (profiles a') = ["bob"]
   /\ active (profiles a') = ["bob"]
   /\ (forall k, In k ["bob"] -> String.leb "bob" k = true)
   /\ ((forall cmd, git_fails (git app_alice_and_bob) cmd = false) ->
       git_config (git a') UserName = Some "Bob B"
       /\ git_config (git a') UserEmail = Some "b@x.com"
       /\ git_credentials (git a') = [("bob", "t2")]))
  /\ (let a' := snd (delete_profile (Some "alice") true app_only_alice) in
      profiles a' = []
      /\ ((forall cmd, git_fails (git app_only_alice) cmd = false) ->
          git_credentials (git a') = []
          /\ forall key, git_config (git a') key = None)).
Proof.
  split.
  - apply (proj2 (delete_current_fallback app_alice_and_bob "alice"
                    (sample_profile "Alice A" "a@x.com" "t1" true)
                    wf_alice_and_bob eq_refl eq_refl eq_refl eq_refl)
             (sample_profile "Bob B" "b@x.com" "t2" false));
      [discriminate | reflexivity | reflexivity].
  - apply (proj1 (delete_current_fallback app_only_alice "alice"
                    (sample_profile "Alice A" "a@x.com" "t1" true)
                    wf_only_alice eq_refl eq_refl eq_refl eq_refl)).
    reflexivity.
Defined.

(** ** White space *)

Lemma append_cons c s t : (String c s ++ t)%string = String c (s ++ t).
Proof. reflexivity. Qed.

Lemma lstrip_cons a s :
  Py.lstrip (String a s)
  = if Py.isspace a then Py.lstrip s
    else
      match s with
      | String b s2 =>
          if Py.isspace2 a b then Py.lstrip s2
          else
            match s2 with
            | String c s3 =>
                if Py.isspace3 a b c then Py.lstrip s3 else String a s
            | EmptyString => String a s
            end
      | EmptyString => String a s
      end.
Proof. reflexivity. Qed.

Lemma isspace2_line a : Py.isspace2 a "010" = false.
Proof. reflexivity. Qed.

Lemma isspace3_line a b : Py.isspace3 a b "010" = false.
Proof. reflexivity. Qed.

(** The induction that follows [lstrip]: one, two or three bytes at a time. *)
Lemma lstrip_ind (Q : string -> Prop) :
  Q "" ->
  (forall a s, Py.isspace a = true -> Q s -> Q (String a s)) ->
  (forall a, Py.isspace a = false -> Q (String a "")) ->
  (forall a b s, Py.isspace a = false -> Py.isspace2 a b = true ->
     Q s -> Q (String a (String b s))) ->
  (forall a b, Py.isspace a = false -> Py.isspace2 a b = false ->
     Q (String a (String b ""))) ->
  (forall a b c s, Py.isspace a = false -> Py.isspace2 a b = false ->
     Py.isspace3 a b c = true -> Q s -> Q (String a (String b (String c s)))) ->
  (forall a b c s, Py.isspace a = false -> Py.isspace2 a b = false ->
     Py.isspace3 a b c = false -> Q (String a (String b (String c s)))) ->
  forall s, Q s.
Proof.
  intros H0 H1 H1' H2 H2' H3 H3'.
  assert (H : forall s, Q s /\ (forall a, Q (String a s))
                        /\ (forall a b, Q (String a (String b s)))).
  { induction s as [|c s (IH0 & IH1 & IH2)].
    - assert (Ha : forall a, Q (String a "")).
      { intros a. destruct (Py.isspace a) eqn:E; auto. }
      repeat split; auto. intros a b.
      destruct (Py.isspace a) eqn:E; [auto|].
      destruct (Py.isspace2 a b) eqn:E2; auto.
    - repeat split; auto. intros a b.
      destruct (Py.isspace a) eqn:E; [auto|].
      destruct (Py.isspace2 a b) eqn:E2; [auto|].
      destruct (Py.isspace3 a b c) eqn:E3; auto. }
  intros s. apply H.
Qed.

Lemma lstrip_line s :
  Py.lstrip (s ++ String "010" "")
  = match Py.lstrip s with
    | EmptyString => EmptyString
    | r => r ++ String "010" ""
    end.
Proof.
  induction s as [|a s Ha IH|a Ha|a b s Ha Hb IH|a b Ha Hb|a b c s Ha Hb Hc IH
                  |a b c s Ha Hb Hc] using lstrip_ind;
    rewrite ?append_cons, ?lstrip_cons; rewrite ?append_cons;
    rewrite ?Ha, ?Hb, ?Hc, ?isspace2_line, ?isspace3_line;
    try reflexivity; try exact IH.
Qed.

Lemma rstrip_line s : Py.rstrip (s ++ String "010" "") = Py.rstrip s.
Proof.
  induction s as [|c s IH]; [reflexivity|].
  rewrite append_cons.
  change (Py.rstrip (String c (s ++ String "010" "")))
    with (match Py.lstrip (String c (s ++ String "010" "")) with
          | EmptyString => EmptyString
          | _ => String c (Py.rstrip (s ++ String "010" ""))
          end).
  change (Py.rstrip (String c s))
    with (match Py.lstrip (String c s) with
          | EmptyString => EmptyString
          | _ => String c (Py.rstrip s)
          end).
  rewrite <- append_cons, lstrip_line, IH.
  destruct (Py.lstrip (String c s)); reflexivity.
Qed.

(** The line feed git prints after a value is stripped with the rest. *)
Lemma strip_line s : Py.strip (s ++ String "010" "") = Py.strip s.
Proof.
  unfold Py.strip. rewrite lstrip_line.
  destruct (Py.lstrip s); [reflexivity | apply rstrip_line].
Qed.

(** The white space beyond ASCII goes too: a no-break space (U+00A0) in
    front, a narrow no-break space (U+202F) and an ideographic space
    (U+3000) behind; one inside the text stays. *)
Example strip_unicode :
  let nbsp := String "194" (String "160" "") in
  let nnbsp := String "226" (String "128" (String "175" "")) in
  let ideographic := String "227" (String "128" (String "128" "")) in
  Py.strip (nbsp ++ " Bob" ++ nbsp ++ "B" ++ nnbsp ++ ideographic ++ String "010" "")
  = "Bob" ++ nbsp ++ "B".
Proof. reflexivity. Qed.

Lemma strip_config_stdout g key :
  Py.strip (config_stdout g key) = Py.strip (git_value g key).
Proof.
  unfold config_stdout, git_value.
  destruct (git_fails g (ConfigGet key)); [reflexivity|].
  destruct (git_config g key); [apply strip_line | reflexivity].
Qed.

(** ** The current profile *)

(** The loop of [get_current_profile] returns the user name of the first
    profile in mapping order whose name and e-mail both equal the two
    values it is given, and nothing when no profile does. *)
Lemma find_current_first_match (P : dict Profile)
    (current_name current_email : string) :
  match find_current current_name current_email P with
  | Some username =>
      exists P1 profile P2,
        P = (P1 ++ (username, profile) :: P2)%list
        /\ matches current_name current_email profile = true
        /\ Forall (fun kv => matches current_name current_email (snd kv) = false) P1
  | None =>
      Forall (fun kv => matches current_name current_email (snd kv) = false) P
  end.
Proof.
  induction P as [|[username profile] P IH]; simpl; [constructor|].
  fold (matches current_name current_email profile).
  destruct (matches current_name current_email profile) eqn:Hm.
  - exists [], profile, P. repeat split; [assumption | constructor].
  - destruct (find_current current_name current_email P) as [u|].
    + destruct IH as (P1 & q & P2 & -> & Hq & HP1).
      exists ((username, profile) :: P1), q, P2. repeat split; [assumption|].
      now constructor.
    + now constructor.
Qed.

(** C7, as stated, fails: bob's stored name ends with a space, git holds
    the very same name and e-mail, so the two pairs are equal exactly (the
    loop, given git's values as they are, finds bob), and yet
    [get_current_profile] returns [None], because it strips what git
    prints before it compares. *)
Lemma first_match_counterexample :
  let a := mkApp bob_padded git_of_bob_padded (keyring_of bob_padded) [] in
  git_value (git a) UserName = "Bob B "
  /\ git_value (git a) UserEmail = "b@x.com"
  /\ item_get name "bob" (profiles a) = Some "Bob B "
  /\ item_get email "bob" (profiles a) = Some "b@x.com"
  /\ find_current "Bob B " "b@x.com" (profiles a) = Some "bob"
  /\ get_current_profile a = (Ok None, a).
Proof. vm_compute. repeat split. Qed.

(** C7, amended.  [get_current_profile] never changes the state.  When git
    can be run it returns the user name of the first profile in mapping
    order whose name and e-mail, taken as they are stored (a missing one
    as the empty text), both equal the name and e-mail git holds with the
    white space at their two ends removed (a value git does not hold or
    cannot give counts as empty), so the first of two profiles that share
    them; it returns [None] when no profile does.  When git cannot be run
    it raises [FileNotFoundError]. *)
Theorem get_current_profile_first_match (a : App) :
  let current_name := Py.strip (git_value (git a) UserName) in
  let current_email := Py.strip (git_value (git a) UserEmail) in
  snd (get_current_profile a) = a
  /\ match fst (get_current_profile a) with
     | Ok (Some username) =>
         git_installed (git a) = true
         /\ exists P1 profile P2,
              profiles a = (P1 ++ (username, profile) :: P2)%list
              /\ matches current_name current_email profile = true
              /\ Forall (fun kv => matches current_name current_email (snd kv) = false)
                   P1
     | Ok None =>
         git_installed (git a) = true
         /\ Forall (fun kv => matches current_name current_email (snd kv) = false)
              (profiles a)
     | Raise e => e = FileNotFoundError /\ git_installed (git a) = false
     end.
Proof.
  intros current_name current_email.
  destruct (git_installed (git a)) eqn:Hi.
  - rewrite get_current_profile_installed by assumption. simpl.
    rewrite !strip_config_stdout. fold current_name current_email.
    split; [reflexivity|].
    pose proof (find_current_first_match (profiles a) current_name current_email) as H.
    destruct (find_current current_name current_email (profiles a)); auto.
  - rewrite get_current_profile_missing by assumption. simpl. auto.
Qed.

(** Two profiles with the same name and e-mail: the first one is returned. *)
Example get_current_profile_ambiguous :
  fst (get_current_profile
         (mkApp [("alice", sample_profile "Alice A" "a@x.com" "t1" false);
                 ("bob", sample_profile "Bob B" "b@x.com" "t2" false);
                 ("bobby", sample_profile "Bob B" "b@x.com" "t3" false)]
            (git_of_bob (fun _ => false)) (keyring_of []) []))
  = Ok (Some "bob").
Proof. reflexivity. Qed.

(** ** A stored profile without a token *)

(** C10.  A stored profile without a token still has none after the merge,
    even when the git credential carries a password for it, and it cannot
    be activated: [switch_to_profile] raises and [switch_profile] reports the
    failure, both leaving [self.profiles] as it is. *)
Theorem merge_keeps_missing_token (P : dict Profile) (E : GitProfile)
    (id secret : string) (p : Profile) :
  dict_get id P = Some p ->
  Py.truthy (token p) = false ->
  gp_username E = Some id ->
  gp_password E = Some secret ->
  secret <> "" ->
  exists p',
    dict_get id (merge_profiles_dict P E) = Some p'
    /\ token p' = token p
    /\ forall a, profiles a = merge_profiles_dict P E ->
         exists message,
           switch_to_profile id a = (Raise (Exception message), a)
           /\ profiles (snd (switch_profile (Some id) a)) = profiles a
           /\ ui (snd (switch_profile (Some id) a))
              = (ui a ++ [Critical "Failed to switch profile" (Exception message)])%list.
Proof.
  intros Hget Htok Hu Hpw Hsecret.
  pose proof (merge_stored P E id p Hget Hu) as Hm.
  set (p' := if usable E then fill_missing E p else p) in Hm.
  assert (Ht : token p' = token p).
  { unfold p'. destruct (usable E); [apply fill_missing_token | reflexivity]. }
  exists p'. repeat split; try assumption.
  intros a Ha.
  unfold switch_profile, switch_to_profile, try_except, bind, get_profiles.
  rewrite <- Ha in Hm. rewrite Hm, Ht, Htok.
  destruct (profile_truthy p'); eexists; (split; [reflexivity | split; reflexivity]).
Qed.

Lemma merge_keeps_missing_token_witness :
  exists p',
    dict_get "alice" (merge_profiles_dict [("alice", tokenless_alice)] alice_credential)
    = Some p'
    /\ token p' = None
    /\ forall a,
         profiles a = merge_profiles_dict [("alice", tokenless_alice)] alice_credential ->
         exists message,
           switch_to_profile "alice" a = (Raise (Exception message), a)
           /\ profiles (snd (switch_profile (Some "alice") a)) = profiles a
           /\ ui (snd (switch_profile (Some "alice") a))
              = (ui a ++ [Critical "Failed to switch profile" (Exception message)])%list.
Proof.
  apply (merge_keeps_missing_token [("alice", tokenless_alice)] alice_credential
           "alice" "t1" tokenless_alice);
    [reflexivity | reflexivity | reflexivity | reflexivity | discriminate].
Defined.

(** ** The device-authorization dialog *)

Module OAuthFacts.
Import OAuth.
Open Scope Z_scope.

(** C8, as stated, fails: the server may suggest an interval that is not
    larger than the current one, and the dialog takes it as it is. *)
Lemma slow_down_counterexample :
  let d := init_ui 900 10 in
  let d' := poll_for_token (fun d => d) d (Json (Some "slow_down") None (Some 5)) in
  interval d = 10 /\ interval d' = 5 /\ ~ interval d < interval d'.
Proof. simpl. repeat split. lia. Qed.

(** C8, amended.  A [slow_down] answer sets the interval (and the poll
    timer) to the value the server suggests, whatever it is, or to the
    current interval plus 5 seconds, a strict increase, when it suggests
    none; nothing else of the dialog changes.  An [authorization_pending]
    answer changes nothing at all.  (Neither opens a box, so both hold
    whatever the boxes of the other answers let happen.) *)
Theorem poll_slow_down_pending (modal : Dialog -> Dialog) (d : Dialog)
    (access_token : option string) (suggested : option Z) :
  let d' := poll_for_token modal d (Json (Some "slow_down") access_token suggested) in
  match suggested with
  | Some i => interval d' = i
  | None => interval d' = interval d + 5 /\ interval d < interval d'
  end
  /\ poll_timer_interval d' = interval d' * 1000
  /\ d' = mkDialog (expires_in d) (interval d') (timer_active d)
            (poll_timer_active d) (poll_timer_interval d') (retry_enabled d)
            (timer_label d) (result d) (emitted d) (warnings d) (errors d)
  /\ poll_for_token modal d (Json (Some "authorization_pending") access_token suggested)
     = d.
Proof.
  simpl. destruct suggested as [i|]; repeat split; lia.
Qed.

(** The scenario of the specification: pending, pending, slow_down with
    interval 30, pending, success. *)
Example poll_scenario :
  let pending := Poll (Json (Some "authorization_pending") None None) in
  let d3 := run (init_ui 900 5)
              [pending; pending; Poll (Json (Some "slow_down") None (Some 30))] in
  let d5 := run d3 [pending; Poll (Json None (Some "tok") None)] in
  interval d3 = 30 /\ result d3 = None
  /\ result d5 = Some Accepted /\ emitted d5 = ["tok"%string] /\ interval d5 = 30.
Proof. simpl. repeat split. Qed.

Lemma timeout_alone d e : timeout d (alone e) = fire d e.
Proof. destruct e; reflexivity. Qed.











End OAuthFacts.

(** * Further properties of the program *)

(** ** The index of the keyring *)

Lemma split_comma_no_comma s : no_comma s = true -> split_comma s = [s].
Proof.
  induction s as [|c s IH]; simpl; [reflexivity|].
  destruct (Ascii.eqb c ","); simpl; [discriminate|].
  intros H. now rewrite IH.
Qed.

Lemma split_comma_app s t :
  no_comma s = true -> split_comma (s ++ "," ++ t) = s :: split_comma t.
Proof.
  induction s as [|c s IH]; simpl; [reflexivity|].
  destruct (Ascii.eqb c ","); simpl; [discriminate|].
  intros H. now rewrite IH.
Qed.

Lemma split_comma_join l :
  forallb no_comma l = true -> l <> [] -> split_comma (join_comma l) = l.
Proof.
  induction l as [|x l IH]; [congruence|]. simpl. intros H _.
  apply andb_prop in H. destruct H as [Hx Hl].
  destruct l as [|y l]; [now apply split_comma_no_comma|].
  rewrite split_comma_app by assumption. f_equal. now apply IH.
Qed.

Lemma join_comma_empty l : join_comma l = "" -> l = [] \/ l = [""].
Proof.
  destruct l as [|x [|y l]]; simpl; [now left | intros ->; now right|].
  destruct x; discriminate.
Qed.

(** X1.  The index round-trips: a list of user names without commas, other
    than the single empty name, is read back from its comma-joined text as
    it was written.  The list of the empty name alone reads back as no user
    at all, and a name with a comma reads back as two. *)
Theorem index_round_trip (l : list string) :
  forallb no_comma l = true ->
  l <> [""] ->
  index_usernames (Some (join_comma l)) = l.
Proof.
  intros Hl Hne. unfold index_usernames. simpl.
  destruct (join_comma l =? "") eqn:E; simpl.
  - apply String.eqb_eq in E. destruct (join_comma_empty l E); congruence.
  - apply split_comma_join; [assumption|]. intros ->. discriminate.
Qed.

Lemma index_round_trip_witness :
  index_usernames (Some (join_comma ["alice"; ""; "bob"])) = ["alice"; ""; "bob"].
Proof.
  apply (index_round_trip ["alice"; ""; "bob"]); [reflexivity | discriminate].
Defined.

(** The two inputs the round trip leaves out. *)
Example index_edge_cases :
  index_usernames (Some (join_comma [""])) = []
  /\ index_usernames (Some (join_comma ["a,b"])) = ["a"; "b"].
Proof. split; reflexivity. Qed.

(** ** What the merge leaves alone *)

(** X2.  The merge touches one identifier only: every other identifier has
    the profile it had, no stored profile is removed or moved, and the keys
    are those stored, followed by the credential's user name when it was not
    stored. *)
Theorem merge_touches_one_identifier (P : dict Profile) (E : GitProfile) :
  (forall k, gp_username E = Some k
             \/ dict_get k (merge_profiles_dict P E) = dict_get k P)
  /\ (keys (merge_profiles_dict P E) = keys P
      \/ exists id,
           gp_username E = Some id /\ dict_get id P = None
           /\ keys (merge_profiles_dict P E) = (keys P ++ [id])%list).
Proof.
  destruct (usable E) eqn:Hg.
  2:{ rewrite merge_not_usable by assumption. split; auto. }
  destruct (usable_username E Hg) as [id Hu].
  destruct (dict_get id P) as [p|] eqn:Hget.
  - rewrite (merge_existing P E id p) by assumption. split.
    + intros k. destruct (string_dec k id) as [->|Hne]; [now left|].
      right. now apply dict_get_update_other.
    + left. apply keys_dict_update.
  - rewrite (merge_new P E id) by assumption. split.
    + intros k. destruct (string_dec k id) as [->|Hne]; [now left|].
      right. now apply dict_get_set_other.
    + right. exists id. repeat split; try assumption.
      rewrite dict_set_new by assumption. unfold keys. now rewrite map_app.
Qed.

(** ** The credential read from git *)

Lemma subprocess_stdout_checked key a :
  git_installed (git a) = true ->
  (exists out, subprocess_stdout true key a = (Ok out, a))
  \/ subprocess_stdout true key a = (Raise (CalledProcessError (ConfigGet key)), a).
Proof.
  intros H. unfold subprocess_stdout. rewrite H. simpl.
  destruct (git_fails (git a) (ConfigGet key)); [now right|].
  left. destruct (git_config (git a) key); eauto.
Qed.

Lemma get_git_user_info_installed a :
  git_installed (git a) = true ->
  exists info, get_git_user_info a = (Ok info, a).
Proof.
  intros H. unfold get_git_user_info, try_except, bind, ret.
  destruct (subprocess_stdout_checked UserName a H) as [[n ->]| ->];
    simpl; [|eauto].
  destruct (subprocess_stdout_checked UserEmail a H) as [[e ->]| ->];
    simpl; eauto.
Qed.

(** X3.  [get_git_credentials] never changes the state and returns either
    the empty dictionary or one with all four keys ([username], [password],
    [name], [email]); it raises only when git cannot be run, and then the
    error is [FileNotFoundError]. *)
Theorem get_git_credentials_shape (a : App) :
  snd (get_git_credentials a) = a
  /\ match fst (get_git_credentials a) with
     | Ok gp =>
         git_installed (git a) = true
         /\ (gp = empty_git_profile
             \/ exists u p n e, gp = mkGitProfile (Some u) (Some p) (Some n) (Some e))
     | Raise e => e = FileNotFoundError /\ git_installed (git a) = false
     end.
Proof.
  split; [apply (frames_get_git_credentials (fun a => a))|].
  destruct (git_installed (git a)) eqn:Hi.
  2:{ rewrite get_git_credentials_missing by assumption. simpl. auto. }
  unfold get_git_credentials, try_except, bind, credential_fill.
  rewrite Hi. simpl.
  destruct (git_fails (git a) CredentialFill); simpl; [auto|].
  pose proof (get_git_user_info_installed a Hi) as Hinfo.
  destruct Hinfo as [info Hinfo].
  destruct (git_credentials (git a)) as [|[u p] l]; rewrite Hinfo; simpl.
  - auto.
  - destruct (credential_entry "username" u), (credential_entry "password" p);
      simpl; eauto 10.
Qed.

(** ** The table *)

Lemma current_rows_active P :
  map row_username (filter (fun r => row_status r =? "Current") (update_profile_list P))
  = active P.
Proof.
  unfold active, update_profile_list.
  induction P as [|[k v] P IH]; simpl; [reflexivity|].
  destruct (get_is_current v); simpl; now rewrite IH.
Qed.

(** X4.  In every reachable state the table has one row per profile, in
    mapping order, and at most one of them has the status "Current". *)
Theorem table_at_most_one_current (a : App) :
  reachable a ->
  map row_username (update_profile_list (profiles a)) = keys (profiles a)
  /\ List.length (filter (fun r => row_status r =? "Current")
                    (update_profile_list (profiles a))) <= 1.
Proof.
  intros H. split.
  - unfold update_profile_list, keys. rewrite map_map. reflexivity.
  - destruct (reachable_at_most_one a H) as [_ Hc].
    unfold active_count in Hc. rewrite <- current_rows_active in Hc.
    now rewrite length_map in Hc.
Qed.

Lemma table_at_most_one_current_witness :
  let a := snd (init app_alice_and_bob) in
  map row_username (update_profile_list (profiles a)) = keys (profiles a)
  /\ List.length (filter (fun r => row_status r =? "Current")
                    (update_profile_list (profiles a))) <= 1.
Proof. apply table_at_most_one_current. apply reach_init. Defined.

(** ** Saving and loading *)

Lemma for_each_set_password_records (l : dict Profile) a :
  kr_fails (keyring a) SetPassword = false ->
  kr_records (keyring (snd (for_each l (fun kv => keyring_set_password (fst kv) (snd kv)) a)))
  = records_after l (kr_records (keyring a))
  /\ kr_usernames (keyring (snd (for_each l (fun kv => keyring_set_password (fst kv) (snd kv)) a)))
     = kr_usernames (keyring a)
  /\ kr_fails (keyring (snd (for_each l (fun kv => keyring_set_password (fst kv) (snd kv)) a)))
     = kr_fails (keyring a).
Proof.
  revert a. induction l as [|kv l IH]; intros a H; simpl; [auto|].
  assert (E : keyring_set_password (fst kv) (snd kv) a
              = (Ok tt, mkApp (profiles a) (git a)
                          (mkKeyring (kr_fails (keyring a)) (kr_usernames (keyring a))
                             (dict_set (fst kv) (snd kv) (kr_records (keyring a))))
                          (ui a))).
  { unfold keyring_set_password, keyring_run. now rewrite H. }
  unfold bind. rewrite E.
  match goal with |- context [for_each l _ ?s] => destruct (IH s H) as (H1 & H2 & H3) end.
  rewrite H1, H2, H3. auto.
Qed.

Lemma save_profiles_keyring a :
  kr_fails (keyring a) SetPassword = false ->
  kr_usernames (keyring (snd (save_profiles a)))
  = Some (join_comma (keys (profiles a)))
  /\ kr_records (keyring (snd (save_profiles a)))
     = records_after (profiles a) (kr_records (keyring a))
  /\ kr_fails (keyring (snd (save_profiles a))) = kr_fails (keyring a).
Proof.
  intros H.
  unfold save_profiles, try_except, bind, get_profiles, keyring_set_usernames,
    keyring_run.
  rewrite H.
  match goal with |- context [for_each _ _ ?s] => set (a1 := s) end.
  destruct (for_each_set_password_ok (profiles a) a1 H) as [Hr _].
  destruct (for_each_set_password_records (profiles a) a1 H) as (H1 & H2 & H3).
  destruct (for_each _ _ a1) as [r a2]. simpl in *. subst r. simpl. auto.
Qed.

(** The index [save_profiles] writes for a dictionary is read back as its
    keys. *)
Lemma index_of_keys (P : dict Profile) :
  forallb no_comma (keys P) = true -> keys P <> [""] ->
  index_usernames (kr_usernames (keyring_of P)) = keys P.
Proof.
  intros Hl Hne. unfold index_usernames. simpl.
  destruct (join_comma (keys P) =? "") eqn:E; simpl.
  - apply String.eqb_eq in E. destruct (join_comma_empty _ E); congruence.
  - apply split_comma_join; [assumption|]. intros H. rewrite H in E. discriminate.
Qed.

Lemma records_after_other k (P R : dict Profile) :
  ~ In k (keys P) -> dict_get k (records_after P R) = dict_get k R.
Proof.
  revert R. induction P as [|[k' v] P IH]; intros R H; simpl; [reflexivity|].
  simpl in H. unfold records_after in *. simpl. rewrite IH by tauto.
  apply dict_get_set_other. intros ->. tauto.
Qed.

Lemma records_after_stored (P R : dict Profile) k v :
  wf P -> In (k, v) P -> dict_get k (records_after P R) = Some v.
Proof.
  unfold wf. revert R. induction P as [|[k' v'] P IH]; intros R Hwf Hin; [destruct Hin|].
  simpl in Hwf. inversion Hwf as [|? ? Hnotin Hnd]; subst.
  destruct Hin as [[= -> ->]|Hin].
  - change (records_after ((k, v) :: P) R) with (records_after P (dict_set k v R)).
    rewrite records_after_other by assumption. apply dict_get_set_same.
  - change (records_after ((k', v') :: P) R) with (records_after P (dict_set k' v' R)).
    now apply IH.
Qed.

Lemma load_keyring_loop_stored (P acc : dict Profile) a :
  kr_fails (keyring a) GetPassword = false ->
  NoDup (keys acc ++ keys P) ->
  (forall k v, In (k, v) P -> dict_get k (kr_records (keyring a)) = Some v) ->
  fst (load_keyring_loop (keys P) acc a) = Ok (acc ++ P)%list.
Proof.
  intros Hk. revert acc a Hk.
  induction P as [|[k v] P IH]; intros acc a Hk Hnd Hrec; simpl.
  - now rewrite app_nil_r.
  - unfold bind, keyring_get_password, keyring_run. rewrite Hk.
    rewrite (Hrec k v) by now left.
    set (a1 := mkApp _ _ _ _).
    assert (Hacc : dict_get k acc = None).
    { destruct (dict_get k acc) eqn:E; [|reflexivity].
      apply dict_get_Some_keys in E. exfalso.
      apply NoDup_remove_2 in Hnd. apply Hnd. apply in_or_app. now left. }
    rewrite dict_set_new by assumption.
    rewrite (IH (acc ++ [(k, v)])%list a1).
    + now rewrite <- app_assoc.
    + exact Hk.
    + unfold keys in *. rewrite map_app. simpl. rewrite <- app_assoc. exact Hnd.
    + intros k0 v0 Hin. apply Hrec. now right.
Qed.

(** X5.  What is saved is what is loaded: when no user name has a comma or
    is [usernames], the user names are not the empty name alone, and the
    keyring accepts the writes and answers the reads,
    [load_keyring_profiles] after [save_profiles] returns [self.profiles],
    entry for entry and in the same order, whatever else the keyring held
    before. *)
Theorem save_then_load (a : App) :
  wf (profiles a) ->
  forallb no_comma (keys (profiles a)) = true ->
  keys (profiles a) <> [""] ->
  ~ In "usernames" (keys (profiles a)) ->
  kr_fails (keyring a) SetPassword = false ->
  kr_fails (keyring a) GetPassword = false ->
  fst (load_keyring_profiles (snd (save_profiles a))) = Ok (profiles a).
Proof.
  intros Hwf Hc He _ Hs Hg.
  destruct (save_profiles_keyring a Hs) as (Hu & Hr & Hf).
  unfold load_keyring_profiles, bind, keyring_get_usernames, keyring_run.
  rewrite Hf, Hg, Hu. change (Some (join_comma (keys (profiles a))))
    with (kr_usernames (keyring_of (profiles a))).
  rewrite index_of_keys by assumption.
  apply (load_keyring_loop_stored (profiles a) []).
  - simpl. now rewrite Hf.
  - exact Hwf.
  - intros k v Hin. simpl. rewrite Hr. now apply records_after_stored.
Qed.

Lemma save_then_load_witness :
  fst (load_keyring_profiles (snd (save_profiles app_alice_and_bob)))
  = Ok alice_and_bob.
Proof.
  apply (save_then_load app_alice_and_bob wf_alice_and_bob);
    [reflexivity | discriminate | | reflexivity | reflexivity].
  intros [H|[H|[]]]; discriminate.
Defined.

(** Without them the round trip fails: a user name with a comma is read back
    as two, neither of which is stored, and the empty name alone is read
    back as no user at all. *)
Example save_then_load_edge_cases :
  let p := sample_profile "A B" "ab@x.com" "t" false in
  let comma := mkApp [("a,b", p)] git_of_alice (keyring_of []) [] in
  let empty := mkApp [("", p)] git_of_alice (keyring_of []) [] in
  fst (load_keyring_profiles (snd (save_profiles comma))) = Ok []
  /\ fst (load_keyring_profiles (snd (save_profiles empty))) = Ok [].
Proof. split; reflexivity. Qed.

(** ** Activation, seen from git *)

Lemma find_current_mark_current n e u P :
  find_current n e (mark_current u P) = find_current n e P.
Proof.
  induction P as [|[k v] P IH]; simpl; [reflexivity|]. now rewrite IH.
Qed.

Lemma find_current_clear_current n e P :
  find_current n e (clear_current P) = find_current n e P.
Proof.
  induction P as [|[k v] P IH]; simpl; [reflexivity|]. now rewrite IH.
Qed.

Lemma switch_profile_ok id a :
  fst (switch_to_profile id a) = Ok tt ->
  switch_profile (Some id) a = switch_to_profile id a.
Proof.
  change (switch_profile (Some id))
    with (try_except (switch_to_profile id) is_Exception
            (fun e => handle_error e "Failed to switch profile")).
  unfold try_except. destruct (switch_to_profile id a) as [[[]|e] s]; simpl;
    [reflexivity | discriminate].
Qed.

(** X6.  Activation round trip: when every git command succeeds, and the
    profile has a name key, its name and e-mail have no white space around
    them, and it is the first profile with that name and e-mail, then after
    [switch_profile] the profile is the one [get_current_profile] reads back
    from git. *)
Theorem activation_round_trip (a : App) (id : string) (p : Profile) (n : string) :
  git_installed (git a) = true ->
  (forall cmd, git_fails (git a) cmd = false) ->
  dict_get id (profiles a) = Some p ->
  Py.truthy (token p) = true ->
  name p = Some n ->
  Py.strip n = n ->
  Py.strip (Py.get (email p) "") = Py.get (email p) "" ->
  find_current n (Py.get (email p) "") (profiles a) = Some id ->
  fst (get_current_profile (snd (switch_profile (Some id) a))) = Ok (Some id).
Proof.
  intros Hi Hf Hget Htok Hn Hsn Hse Hfirst.
  destruct (switch_to_profile_spec id a p Hi Hget Htok) as (Hr & Hp & Hg).
  specialize (Hg Hf). rewrite switch_profile_ok by assumption.
  set (a' := snd (switch_to_profile id a)) in *.
  assert (Hi' : git_installed (git a') = true) by (rewrite Hg; exact Hi).
  rewrite get_current_profile_installed by assumption. simpl.
  unfold config_stdout. rewrite Hg. simpl. rewrite !Hf.
  rewrite Hn. simpl. rewrite !strip_line, Hsn, Hse, Hp, find_current_mark_current.
  now rewrite Hfirst.
Qed.

Lemma activation_round_trip_witness :
  fst (get_current_profile (snd (switch_profile (Some "bob") app_alice_and_bob)))
  = Ok (Some "bob").
Proof.
  apply (activation_round_trip app_alice_and_bob "bob"
           (sample_profile "Bob B" "b@x.com" "t2" false) "Bob B");
    reflexivity.
Defined.

(** X7.  The credential store after [update_git_config]: when the rejection
    of the old credentials works, the store holds the new credential alone
    if every command of the write-through succeeded and nothing at all if
    one failed, so a failed activation never leaves another account's token
    in place; when the rejection itself fails, the old entries stay. *)
Theorem update_git_config_credentials (u n e t : string) (a : App) :
  git_installed (git a) = true ->
  let base :=
    if git_fails (git a) CredentialRejectHost then git_credentials (git a) else [] in
  git_credentials (git (snd (update_git_config u n e t a)))
  = match first_failure (git a) with
    | None => dict_set u t base
    | Some _ => base
    end.
Proof.
  intros H.
  unfold update_git_config, remove_all_github_credentials, try_except, bind,
    subprocess_run, handle_error, show, ret, first_failure.
  exec; try reflexivity; congruence.
Qed.

Lemma update_git_config_credentials_witness :
  git_credentials
    (git (snd (update_git_config "alice" "Alice A" "a@x.com" "t1" app_set_name_fails)))
  = [].
Proof.
  apply (update_git_config_credentials "alice" "Alice A" "a@x.com" "t1"
           app_set_name_fails).
  reflexivity.
Defined.

(** ** Clearing *)

(** X8.  [clear_git_config] clears the flags only after the three keys have
    been unset: if one [--unset] fails (git does so for a key that is not
    set) the error is reported, the later keys are left as they are and
    every [is_current] flag stays, as do the credential helper and the
    stored credentials; if all three succeed, the keys are
    unset, every flag is cleared and the success box is shown, whether or
    not the rejection of the credentials worked. *)
Theorem clear_git_config_all_or_nothing (a : App) :
  git_installed (git a) = true ->
  let a' := snd (clear_git_config a) in
  match find (git_fails (git a)) unsets with
  | Some cmd =>
      profiles a' = profiles a
      /\ ui a' = (ui a ++ [Critical "Failed to clear Git config" (CalledProcessError cmd)])%list
      /\ git_config (git a') CredentialHelper = git_config (git a) CredentialHelper
      /\ git_credentials (git a') = git_credentials (git a)
  | None =>
      profiles a' = clear_current (profiles a)
      /\ (forall key, git_config (git a') key = None)
      /\ last (ui a') (Warning "") = Information "Git configuration cleared"
  end.
Proof.
  intros Hi.
  unfold clear_git_config, remove_all_github_credentials, try_except, bind,
    subprocess_run, get_profiles, set_profiles, handle_error, show, unsets.
  rewrite Hi. simpl.
  destruct (git_fails (git a) (ConfigUnset UserName)) eqn:H1; simpl.
  { repeat split. }
  rewrite Hi. simpl.
  destruct (git_fails (git a) (ConfigUnset UserEmail)) eqn:H2; simpl.
  { repeat split. }
  rewrite Hi. simpl.
  destruct (git_fails (git a) (ConfigUnset CredentialHelper)) eqn:H3; simpl.
  { repeat split. }
  rewrite Hi. simpl.
  destruct (git_fails (git a) CredentialRejectHost) eqn:H4; simpl;
    match goal with |- context [save_profiles ?s] =>
      pose proof (save_profiles_ok s) as Hs1;
      pose proof (frames_save_profiles_profiles s) as Hs2;
      pose proof (frames_save_profiles_git s) as Hs3;
      destruct (save_profiles s) as [r a2]
    end; simpl in *; subst r; simpl; rewrite Hs2, Hs3;
    (split; [reflexivity|]); (split; [now intros [] | apply last_last]).
Qed.

Lemma clear_git_config_all_or_nothing_witness :
  let a := mkApp only_alice (mkGit true helper_not_set (git_config git_of_alice) [])
             (keyring_of only_alice) [] in
  let a' := snd (clear_git_config a) in
  profiles a' = profiles a
  /\ ui a' = (ui a ++ [Critical "Failed to clear Git config"
                         (CalledProcessError (ConfigUnset CredentialHelper))])%list
  /\ git_config (git a') CredentialHelper = git_config (git a) CredentialHelper
  /\ git_credentials (git a') = git_credentials (git a).
Proof.
  apply (clear_git_config_all_or_nothing
           (mkApp only_alice (mkGit true helper_not_set (git_config git_of_alice) [])
              (keyring_of only_alice) [])).
  reflexivity.
Defined.

(** ** Deleting a profile that is not the current one *)

Lemma active_dict_del_inactive id P p :
  dict_get id P = Some p -> get_is_current p = false ->
  active (dict_del id P) = active P.
Proof.
  unfold active. induction P as [|[k v] P IH]; simpl; [discriminate|].
  destruct (k =? id).
  - intros [= ->] ->. reflexivity.
  - intros Hget Hp. simpl. destruct (get_is_current v); simpl; now rewrite IH.
Qed.

(** X9.  Deleting a profile that is not current (keyring entry deleted, git
    runnable) removes it and nothing else: the other profiles keep their
    order, the current profile stays current, git's name, e-mail and helper
    are not touched, no fallback activation runs, and only the credential of
    the deleted user name is rejected. *)
Theorem delete_not_current (a : App) (id : string) (p : Profile) (reply_yes : bool) :
  dict_get id (profiles a) = Some p ->
  get_is_current p = false ->
  kr_fails (keyring a) DeletePassword = false ->
  git_installed (git a) = true ->
  let a' := snd (delete_profile (Some id) reply_yes a) in
  profiles a' = dict_del id (profiles a)
  /\ active (profiles a') = active (profiles a)
  /\ (forall key, git_config (git a') key = git_config (git a) key)
  /\ git_credentials (git a')
     = (if git_fails (git a) CredentialRejectUser then git_credentials (git a)
        else dict_del id (git_credentials (git a)))
  /\ ui a' = (ui a ++ save_report (keyring a)
              ++ [Information ("Deleted profile: " ++ id)])%list.
Proof.
  intros Hget Hcur Hk Hi.
  unfold delete_profile, try_except, bind, get_profiles, set_profiles.
  rewrite Hget, Hcur. simpl.
  unfold keyring_delete_password, keyring_run. simpl. rewrite Hk.
  unfold remove_git_credential, try_except, subprocess_run. simpl. rewrite Hi. simpl.
  destruct (git_fails (git a) CredentialRejectUser); simpl;
    match goal with |- context [save_profiles ?s] =>
      pose proof (save_profiles_ok s) as Hs1;
      pose proof (frames_save_profiles_profiles s) as Hs2;
      pose proof (frames_save_profiles_git s) as Hs3;
      pose proof (save_profiles_ui s) as Hs4;
      destruct (save_profiles s) as [r a2]
    end; simpl in *; subst r; simpl; rewrite Hs2, Hs3, Hs4;
    (repeat split; [now apply (active_dict_del_inactive id _ p)
                   | now rewrite <- app_assoc]).
Qed.

Lemma delete_not_current_witness :
  let a := app_alice_and_bob in
  let a' := snd (delete_profile (Some "bob") false a) in
  profiles a' = dict_del "bob" (profiles a)
  /\ active (profiles a') = active (profiles a)
  /\ (forall key, git_config (git a') key = git_config (git a) key)
  /\ git_credentials (git a')
     = (if git_fails (git a) CredentialRejectUser then git_credentials (git a)
        else dict_del "bob" (git_credentials (git a)))
  /\ ui a' = (ui a ++ save_report (keyring a)
              ++ [Information ("Deleted profile: " ++ "bob")])%list.
Proof.
  apply (delete_not_current app_alice_and_bob "bob"
           (sample_profile "Bob B" "b@x.com" "t2" false) false);
    reflexivity.
Defined.

(** ** Refusals *)

(** X10.  An operation on a user name that is not stored, or with no row
    selected, reports it and changes neither the profiles, nor git, nor the
    keyring (the error box of [delete_profile] is given a message that
    repeats the text of the error); the same holds when the user declines
    to delete the current profile, which shows nothing at all. *)
Theorem refusals_change_nothing (a : App) (id : string) (b : bool)
    (n e t : string) :
  (dict_get id (profiles a) = None ->
     switch_profile (Some id) a
     = (Ok tt, with_ui a [Critical "Failed to switch profile"
                            (Exception "Profile data is not available")])
     /\ delete_profile (Some id) b a
        = (Ok tt, with_ui a [CriticalStr "Failed to delete profile: "
                               (Exception ("Profile " ++ id
                                           ++ " not found in stored profiles"))])
     /\ edit_profile (Some id) b n e t a
        = (Ok tt, with_ui a [Warning "Profile data not found"])
     /\ edit_tag (Some id) t b a
        = (Ok tt, with_ui a [Critical "Failed to edit tag" (KeyError id)]))
  /\ (switch_profile None a = (Ok tt, with_ui a [Warning "No profile selected"])
      /\ delete_profile None b a = (Ok tt, with_ui a [Warning "No profile selected"])
      /\ edit_profile None b n e t a = (Ok tt, with_ui a [Warning "No profile selected"])
      /\ edit_tag None t b a = (Ok tt, with_ui a [Warning "No profile selected"]))
  /\ (forall p, dict_get id (profiles a) = Some p -> get_is_current p = true ->
        delete_profile (Some id) false a = (Ok tt, a)).
Proof.
  repeat split.
  - unfold switch_profile, try_except, bind, get_profiles. now rewrite H.
  - unfold delete_profile, try_except, bind, get_profiles. now rewrite H.
  - unfold edit_profile, try_except, bind, get_profiles. now rewrite H.
  - unfold edit_tag, try_except, bind, get_profiles. now rewrite H.
  - intros p Hget Hcur.
    unfold delete_profile, try_except, bind, get_profiles. now rewrite Hget, Hcur.
Qed.

Lemma refusals_change_nothing_witness :
  switch_profile (Some "carol") app_alice_and_bob
  = (Ok tt, with_ui app_alice_and_bob
              [Critical "Failed to switch profile"
                 (Exception "Profile data is not available")])
  /\ delete_profile (Some "alice") false app_alice_and_bob = (Ok tt, app_alice_and_bob).
Proof.
  split.
  - apply (proj1 (refusals_change_nothing app_alice_and_bob "carol" true "" "" "")).
    reflexivity.
  - apply (proj2 (proj2 (refusals_change_nothing app_alice_and_bob "alice" true "" "" ""))
             (sample_profile "Alice A" "a@x.com" "t1" true));
      reflexivity.
Defined.

(** ** Adding an account *)

Lemma get_github_user_info_run response a :
  get_github_user_info response a
  = match response with
    | NetworkError =>
        (Ok (None, None, None, None),
         with_ui a [Critical "Failed to retrieve GitHub user information"
                      RequestException])
    | Status code login name email avatar_url =>
        if (code =? 200)%Z then (Ok (login, name, email, avatar_url), a)
        else (Raise (Exception ("GitHub API error: " ++ Py.str_int code)), a)
    end.
Proof.
  unfold get_github_user_info, try_except.
  destruct response as [|code l n e av]; [reflexivity|].
  now destruct (code =? 200)%Z.
Qed.

(** X11.  [handle_oauth_completion] stores nothing and activates nothing
    when the token is empty, the user lookup fails (network error or a
    status other than 200), the answer has no login, the login is already
    stored, or the tag prompt is cancelled: profiles, git and keyring are
    as before. *)
Theorem oauth_completion_adds_nothing (a : App) (token tag : string)
    (response : UserInfoResponse) (ok : bool) :
  token = ""
  \/ response = NetworkError
  \/ (exists code login name email avatar_url,
        response = Status code login name email avatar_url
        /\ (code <> 200%Z \/ login = None \/ login = Some ""
            \/ (exists u, login = Some u /\ dict_mem u (profiles a) = true)))
  \/ ok = false ->
  let a' := snd (handle_oauth_completion token response tag ok a) in
  fst (handle_oauth_completion token response tag ok a) = Ok tt
  /\ profiles a' = profiles a /\ git a' = git a /\ keyring a' = keyring a.
Proof.
  intros H. unfold handle_oauth_completion.
  destruct (token =? "") eqn:Et; [simpl; auto|].
  apply String.eqb_neq in Et.
  unfold try_except, bind. rewrite get_github_user_info_run.
  destruct response as [|code login name email avatar_url]; [simpl; auto|].
  destruct (code =? 200)%Z eqn:Ec; [|simpl; auto].
  apply Z.eqb_eq in Ec. simpl.
  destruct login as [u|]; [|simpl; auto].
  destruct (u =? "") eqn:Eu; [simpl; auto|]. simpl.
  unfold get_profiles.
  destruct (dict_mem u (profiles a)) eqn:Em; [simpl; auto|]. simpl.
  destruct ok; [|simpl; auto].
  exfalso. apply String.eqb_neq in Eu.
  destruct H as [H|[H|[H|H]]]; try congruence.
  destruct H as (c & l & n & e & av & Heq & Hcase).
  injection Heq as <- <- <- <- <-.
  destruct Hcase as [H|[H|[H|(u' & [= <-] & H)]]]; congruence.
Qed.

Lemma oauth_completion_adds_nothing_witness :
  let r := Status 200 (Some "alice") (Some "Alice A") None None in
  let a' := snd (handle_oauth_completion "t9" r "work" true app_alice_and_bob) in
  fst (handle_oauth_completion "t9" r "work" true app_alice_and_bob) = Ok tt
  /\ profiles a' = profiles app_alice_and_bob
  /\ git a' = git app_alice_and_bob
  /\ keyring a' = keyring app_alice_and_bob.
Proof.
  apply (oauth_completion_adds_nothing app_alice_and_bob "t9" "work"
           (Status 200 (Some "alice") (Some "Alice A") None None) true).
  right. right. left.
  exists 200%Z, (Some "alice"), (Some "Alice A"), None, None.
  split; [reflexivity|]. right. right. right. exists "alice". split; reflexivity.
Defined.

Lemma mark_current_twice u P : mark_current u (mark_current u P) = mark_current u P.
Proof.
  unfold mark_current, dict_map_values. rewrite map_map. apply map_ext.
  intros [k v]. reflexivity.
Qed.

(** X12.  A new account (non-empty token and login, login not stored, tag
    given, git runnable) is stored after the others with the token, the tag
    and the name GitHub gave, or the login when it gave none.  If the name
    and e-mail git holds match no stored profile, the new one included, it
    becomes the only current profile; otherwise it is stored without any
    flag being changed. *)
Theorem oauth_completion_new_account (a : App) (access_token tag u : string)
    (name email avatar_url : option string) :
  access_token <> "" ->
  u <> "" ->
  dict_get u (profiles a) = None ->
  git_installed (git a) = true ->
  let P1 := (profiles a
             ++ [(u, new_profile access_token u name email tag avatar_url)])%list in
  let current :=
    find_current (Py.strip (config_stdout (git a) UserName))
      (Py.strip (config_stdout (git a) UserEmail)) P1 in
  profiles (snd (handle_oauth_completion access_token
                   (Status 200 (Some u) name email avatar_url) tag true a))
  = if Py.truthy current then P1 else mark_current u P1.
Proof.
  intros Ht Hu Hget Hi P1 current.
  apply String.eqb_neq in Ht. apply String.eqb_neq in Hu.
  unfold handle_oauth_completion. rewrite Ht.
  unfold try_except, bind at 1. rewrite get_github_user_info_run. simpl.
  rewrite Hu. simpl. unfold bind at 1, get_profiles.
  unfold dict_mem. rewrite Hget. simpl.
  unfold bind at 1, set_profiles. rewrite dict_set_new by assumption.
  fold (new_profile access_token u name email tag avatar_url). fold P1.
  set (a1 := mkApp P1 (git a) (keyring a) (ui a)).
  unfold bind at 1.
  pose proof (save_profiles_ok a1) as Hs1.
  pose proof (frames_save_profiles_profiles a1) as Hs2.
  pose proof (frames_save_profiles_git a1) as Hs3.
  destruct (save_profiles a1) as [r a2]. simpl in Hs1, Hs2, Hs3. subst r.
  unfold bind at 1.
  rewrite get_current_profile_installed by (rewrite Hs3; exact Hi).
  rewrite Hs3, Hs2. simpl git. simpl profiles. fold current.
  destruct (Py.truthy current); simpl.
  - exact Hs2.
  - unfold bind at 1.
    destruct (update_current_profile_spec u a2) as (Hr3 & Hp3 & Hg3 & _).
    destruct (update_current_profile u a2) as [r a3]. simpl in Hr3, Hp3, Hg3. subst r.
    assert (Hget3 : dict_get u (profiles a3)
                    = Some (set_is_current true (new_profile access_token u name email tag avatar_url))).
    { rewrite Hp3, Hs2. unfold mark_current. rewrite dict_get_map_values.
      simpl profiles. unfold P1.
      rewrite <- (dict_set_new u _ (profiles a)) by assumption.
      rewrite dict_get_set_same. simpl. now rewrite String.eqb_refl. }
    assert (Htok : Py.truthy
                     (token (set_is_current true
                        (new_profile access_token u name email tag avatar_url))) = true)
      by (simpl; now rewrite Ht).
    assert (Hi3 : git_installed (git a3) = true) by (rewrite Hg3, Hs3; exact Hi).
    destruct (switch_to_profile_spec u a3 _ Hi3 Hget3 Htok) as (Hr4 & Hp4 & _).
    unfold bind.
    destruct (switch_to_profile u a3) as [r a4]. simpl in Hr4, Hp4. subst r.
    simpl. rewrite Hp4, Hp3, Hs2. apply mark_current_twice.
Qed.

Lemma oauth_completion_new_account_witness :
  profiles (snd (handle_oauth_completion "t3"
                   (Status 200 (Some "carol") (Some "Carol C") None None) "dev" true
                   app_alice_git_of_bob))
  = mark_current "carol"
      (only_alice
       ++ [("carol", new_profile "t3" "carol" (Some "Carol C") None "dev" None)])%list.
Proof.
  apply (oauth_completion_new_account app_alice_git_of_bob "t3" "dev" "carol"
           (Some "Carol C") None None);
    [discriminate | discriminate | reflexivity | reflexivity].
Defined.

(** ** Editing *)

(** X13.  An accepted edit of a stored profile writes the three fields and
    nothing else: token and flag of the profile, the other profiles, the
    order and the current profile are as before.  For the current profile
    with a token, when every git command succeeds, git's name and e-mail
    become the new ones. *)
Theorem edit_profile_frame (a : App) (id : string) (p : Profile)
    (new_name new_email new_tag : string) :
  dict_get id (profiles a) = Some p ->
  profile_truthy p = true ->
  let a' := snd (edit_profile (Some id) true new_name new_email new_tag a) in
  dict_get id (profiles a')
  = Some (mkProfile (token p) (Some new_name) (Some new_email) (Some new_tag)
            (avatar_url p) (is_current p))
  /\ (forall k, k <> id -> dict_get k (profiles a') = dict_get k (profiles a))
  /\ keys (profiles a') = keys (profiles a)
  /\ active (profiles a') = active (profiles a)
  /\ (get_is_current p = true -> Py.truthy (token p) = true ->
      git_installed (git a) = true -> (forall cmd, git_fails (git a) cmd = false) ->
      git_config (git a') UserName = Some new_name
      /\ git_config (git a') UserEmail = Some new_email).
Proof.
  intros Hget Htruthy.
  set (edit := fun q => set_tag new_tag (set_email new_email (set_name new_name q))).
  assert (Hp : profiles (snd (edit_profile (Some id) true new_name new_email new_tag a))
               = dict_update id edit (profiles a)
          /\ (get_is_current p = true -> Py.truthy (token p) = true ->
              git_installed (git a) = true -> (forall cmd, git_fails (git a) cmd = false) ->
              git (snd (edit_profile (Some id) true new_name new_email new_tag a))
              = git_written id new_name new_email (Py.get (token p) "") (git a))).
  { unfold edit_profile, try_except, bind, get_profiles, set_profiles.
    rewrite Hget, Htruthy. fold edit.
    set (a1 := mkApp _ _ _ _).
    pose proof (save_profiles_ok a1) as Hs1.
    pose proof (frames_save_profiles_profiles a1) as Hs2.
    pose proof (frames_save_profiles_git a1) as Hs3.
    destruct (save_profiles a1) as [r a2]. simpl in Hs1, Hs2, Hs3. subst r.
    destruct (get_is_current p) eqn:Hc; [|simpl; split; [exact Hs2 | discriminate]].
    destruct (Py.truthy (token p)) eqn:Ht; [|simpl; split; [exact Hs2 | discriminate]].
    pose proof (frames_update_git_config_profiles id new_name new_email
                  (Py.get (token p) "") a2) as Hf.
    destruct (git_installed (git a)) eqn:Hi.
    - assert (Hi2 : git_installed (git a2) = true) by (rewrite Hs3; exact Hi).
      destruct (update_git_config_installed id new_name new_email
                  (Py.get (token p) "") a2 Hi2) as (Hr & _).
      pose proof (update_git_config_written id new_name new_email
                    (Py.get (token p) "") a2 Hi2) as Hw.
      destruct (update_git_config _ _ _ _ a2) as [r a3]. simpl in *. subst r.
      simpl. split; [now rewrite Hf, Hs2|].
      intros _ _ _ Hall. rewrite Hw by (intros cmd; rewrite Hs3; apply Hall).
      now rewrite Hs3.
    - rewrite update_git_config_missing by (rewrite Hs3; exact Hi).
      simpl. split; [exact Hs2 | discriminate]. }
  destruct Hp as [Hp Hg]. simpl. rewrite Hp. repeat split.
  - rewrite dict_get_update_same, Hget. reflexivity.
  - intros k Hk. now apply dict_get_update_other.
  - apply keys_dict_update.
  - now apply active_dict_update.
  - rewrite Hg by assumption. reflexivity.
  - rewrite Hg by assumption. reflexivity.
Qed.

Lemma edit_profile_frame_witness :
  let a' := snd (edit_profile (Some "alice") true "Alice Z" "z@x.com" "home"
                   app_alice_and_bob) in
  dict_get "alice" (profiles a')
  = Some (mkProfile (Some "t1") (Some "Alice Z") (Some "z@x.com") (Some "home")
            None (Some true))
  /\ (forall k, k <> "alice" -> dict_get k (profiles a') = dict_get k alice_and_bob)
  /\ keys (profiles a') = keys alice_and_bob
  /\ active (profiles a') = active alice_and_bob
  /\ (true = true -> true = true ->
      git_installed (git app_alice_and_bob) = true ->
      (forall cmd, git_fails (git app_alice_and_bob) cmd = false) ->
      git_config (git a') UserName = Some "Alice Z"
      /\ git_config (git a') UserEmail = Some "z@x.com").
Proof.
  apply (edit_profile_frame app_alice_and_bob "alice"
           (sample_profile "Alice A" "a@x.com" "t1" true) "Alice Z" "z@x.com" "home");
    reflexivity.
Defined.

(** ** Marking the current profile *)

(** X14.  After [update_current_profile u] the flags say exactly this: [u]
    is the only current profile when it is stored, and no profile is current
    when it is not; every profile then has the [is_current] key. *)
Theorem update_current_profile_marks (a : App) (u : string) :
  wf (profiles a) ->
  let P' := profiles (snd (update_current_profile u a)) in
  active P' = (if dict_mem u (profiles a) then [u] else [])
  /\ keys P' = keys (profiles a)
  /\ forall k q, dict_get k P' = Some q -> is_current q = Some (k =? u).
Proof.
  intros Hwf. destruct (update_current_profile_spec u a) as (_ & Hp & _).
  simpl. rewrite Hp. repeat split.
  - now apply active_mark_current.
  - apply keys_map_values.
  - intros k q. unfold mark_current. rewrite dict_get_map_values.
    destruct (dict_get k (profiles a)); simpl; [|discriminate].
    now intros [= <-].
Qed.

Lemma update_current_profile_marks_witness :
  let P' := profiles (snd (update_current_profile "carol" app_alice_and_bob)) in
  active P' = []
  /\ keys P' = ["alice"; "bob"]
  /\ forall k q, dict_get k P' = Some q -> is_current q = Some (k =? "carol").
Proof.
  apply (update_current_profile_marks app_alice_and_bob "carol" wf_alice_and_bob).
Defined.

(** ** Start-up, seen from git *)

Lemma load_profiles_ok a : fst (load_profiles a) = Ok tt.
Proof.
  unfold load_profiles, try_except.
  match goal with |- context [match ?b a with _ => _ end] => destruct (b a) as [[[]|e] a1] end;
    reflexivity.
Qed.

Lemma frames_update_current_profile_git u : frames git (update_current_profile u).
Proof. intros a. now destruct (update_current_profile_spec u a) as (_ & _ & -> & _). Qed.

Lemma frames_load_profiles_git : frames git load_profiles.
Proof.
  unfold load_profiles, merge_profiles. apply frames_try; [|intros e; frames].
  apply frames_bind; [apply frames_load_keyring_profiles | intros kp].
  apply frames_bind; [apply frames_get_git_credentials | intros gp].
  apply frames_bind; [frames | intros _].
  apply frames_bind; [apply frames_get_current_profile | intros c].
  destruct (Py.truthy c); [apply frames_update_current_profile_git | frames].
Qed.

Lemma find_current_mem n e P u : find_current n e P = Some u -> dict_mem u P = true.
Proof.
  unfold dict_mem. induction P as [|[k v] P IH]; simpl; [discriminate|].
  destruct ((Py.get (name v) "" =? n) && (Py.get (email v) "" =? e)).
  - intros [= ->]. now rewrite String.eqb_refl.
  - intros H. destruct (k =? u); [reflexivity | now apply IH].
Qed.

Lemma find_current_resolve n e P : find_current n e (resolve n e P) = find_current n e P.
Proof.
  unfold resolve. destruct (find_current n e P) as [u|] eqn:E.
  - destruct (u =? "");
      [rewrite find_current_clear_current | rewrite find_current_mark_current];
      exact E.
  - now rewrite find_current_clear_current.
Qed.

Lemma active_resolve n e P :
  wf P ->
  active (resolve n e P)
  = match find_current n e P with
    | Some u => if u =? "" then [] else [u]
    | None => []
    end.
Proof.
  intros Hwf. unfold resolve. destruct (find_current n e P) as [u|] eqn:E.
  - destruct (u =? ""); [apply active_clear_current|].
    rewrite active_mark_current by assumption.
    now rewrite (find_current_mem n e P u E).
  - apply active_clear_current.
Qed.

(** What [load_profiles] leaves in [self.profiles] when git can be run and
    nothing was loaded before: a dictionary resolved against git. *)
Lemma load_profiles_resolves a :
  git_installed (git a) = true ->
  profiles a = [] ->
  exists Pm,
    wf Pm
    /\ profiles (snd (load_profiles a))
       = resolve (Py.strip (config_stdout (git a) UserName))
           (Py.strip (config_stdout (git a) UserEmail)) Pm.
Proof.
  intros Hi Hnil. unfold load_profiles, try_except. unfold bind at 1.
  pose proof (frames_load_keyring_profiles profiles a) as Hp1.
  pose proof (frames_load_keyring_profiles git a) as Hg1.
  pose proof (load_keyring_profiles_wf a) as Hwf.
  destruct (load_keyring_profiles a) as [[kp|e] a1]; simpl in Hp1, Hg1.
  2:{ exists []. split; [apply NoDup_nil|]. simpl. now rewrite Hp1, Hnil. }
  specialize (Hwf kp a1 eq_refl). unfold bind at 1.
  pose proof (frames_get_git_credentials profiles a1) as Hp2.
  pose proof (frames_get_git_credentials git a1) as Hg2.
  destruct (get_git_credentials a1) as [[gp|e] a2]; simpl in Hp2, Hg2.
  2:{ exists []. split; [apply NoDup_nil|]. simpl. now rewrite Hp2, Hp1, Hnil. }
  unfold bind at 1.
  destruct (merge_profiles_spec kp gp a2) as (Hr3 & Hp3 & Hg3).
  destruct (merge_profiles kp gp a2) as [r a3]. simpl in Hr3, Hp3, Hg3. subst r.
  exists (merge_profiles_dict kp gp). split; [now apply wf_merge_profiles_dict|].
  assert (Hga : git a3 = git a) by congruence.
  unfold bind at 1.
  rewrite get_current_profile_installed by (rewrite Hga; exact Hi).
  rewrite Hga, Hp3. unfold resolve.
  destruct (find_current _ _ (merge_profiles_dict kp gp)) as [u|]; simpl.
  - destruct (u =? ""); simpl.
    + unfold bind, get_profiles, set_profiles.
      match goal with |- context [save_profiles ?s] =>
        pose proof (save_profiles_ok s) as Hs1;
        pose proof (frames_save_profiles_profiles s) as Hs2;
        destruct (save_profiles s) as [r a5]
      end. simpl in *. subst r. simpl. now rewrite Hs2, Hp3.
    + destruct (update_current_profile_spec u a3) as (Hr & Hp & _).
      destruct (update_current_profile u a3) as [r a4]. simpl in Hr, Hp. subst r.
      simpl. now rewrite Hp, Hp3.
  - unfold bind, get_profiles, set_profiles.
    match goal with |- context [save_profiles ?s] =>
      pose proof (save_profiles_ok s) as Hs1;
      pose proof (frames_save_profiles_profiles s) as Hs2;
      destruct (save_profiles s) as [r a5]
    end. simpl in *. subst r. simpl. now rewrite Hs2, Hp3.
Qed.

Lemma init_installed a :
  git_installed (git a) = true ->
  exists Pm,
    wf Pm
    /\ fst (init a) = Ok tt
    /\ git (snd (init a)) = git a
    /\ profiles (snd (init a))
       = resolve (Py.strip (config_stdout (git a) UserName))
           (Py.strip (config_stdout (git a) UserEmail)) Pm.
Proof.
  intros Hi. unfold init, bind, set_profiles.
  set (a0 := mkApp [] (git a) (keyring a) (ui a)).
  destruct (load_profiles_resolves a0 Hi eq_refl) as (Pm & Hwf & Hp).
  pose proof (load_profiles_ok a0) as Hr.
  pose proof (frames_load_profiles_git a0) as Hg.
  destruct (load_profiles a0) as [r a1]. simpl in Hr, Hp, Hg. subst r.
  change (git a0) with (git a) in Hp, Hg.
  set (n := Py.strip (config_stdout (git a) UserName)) in *.
  set (e := Py.strip (config_stdout (git a) UserEmail)) in *.
  exists Pm. split; [exact Hwf|].
  rewrite get_current_profile_installed by (rewrite Hg; exact Hi).
  rewrite Hg. fold n e. rewrite Hp, find_current_resolve.
  unfold resolve in *.
  destruct (find_current n e Pm) as [u|] eqn:E; simpl.
  - destruct (u =? "") eqn:Eu; simpl; [auto|].
    destruct (update_current_profile_spec u a1) as (Hr1 & Hp1 & Hg1 & _).
    destruct (update_current_profile u a1) as [r a2]. simpl in Hr1, Hp1, Hg1. subst r.
    simpl. rewrite Hp1, Hg1, Hg, Hp, mark_current_twice. auto.
  - auto.
Qed.

(** X15.  When git can be run, [__init__] returns, and the current flags it
    leaves are exactly what git's name and e-mail say: the first profile
    that has them is the only current one, and none is current when no
    profile has them; the flags the keyring held do not count. *)
Theorem init_resolves_current (a : App) :
  git_installed (git a) = true ->
  let a' := snd (init a) in
  fst (init a) = Ok tt
  /\ git a' = git a
  /\ active (profiles a')
     = match find_current (Py.strip (config_stdout (git a) UserName))
               (Py.strip (config_stdout (git a) UserEmail)) (profiles a') with
       | Some u => if u =? "" then [] else [u]
       | None => []
       end.
Proof.
  intros Hi. destruct (init_installed a Hi) as (Pm & Hwf & Hr & Hg & Hp).
  simpl. rewrite Hp, find_current_resolve. repeat split; try assumption.
  now apply active_resolve.
Qed.

Lemma init_resolves_current_witness :
  let a' := snd (init app_alice_git_of_bob) in
  fst (init app_alice_git_of_bob) = Ok tt
  /\ git a' = git app_alice_git_of_bob
  /\ active (profiles a')
     = match find_current
               (Py.strip (config_stdout (git app_alice_git_of_bob) UserName))
               (Py.strip (config_stdout (git app_alice_git_of_bob) UserEmail))
               (profiles a') with
       | Some u => if u =? "" then [] else [u]
       | None => []
       end.
Proof. apply (init_resolves_current app_alice_git_of_bob). reflexivity. Defined.

Lemma load_keyring_loop_raises l acc a e s :
  load_keyring_loop l acc a = (Raise e, s) -> e = KeyringError.
Proof.
  revert acc a. induction l as [|u l IH]; intros acc a; simpl; [discriminate|].
  unfold bind, keyring_get_password, keyring_run.
  destruct (kr_fails (keyring a) GetPassword); [now intros [= <- _]|].
  destruct (dict_get u (kr_records (keyring a))); apply IH.
Qed.

Lemma load_keyring_profiles_raises a e s :
  load_keyring_profiles a = (Raise e, s) -> e = KeyringError.
Proof.
  unfold load_keyring_profiles, bind, keyring_get_usernames, keyring_run.
  destruct (kr_fails (keyring a) GetPassword); [now intros [= <- _]|].
  apply load_keyring_loop_raises.
Qed.

Lemma load_profiles_without_git a :
  git_installed (git a) = false ->
  fst (load_profiles a) = Ok tt
  /\ profiles (snd (load_profiles a)) = profiles a
  /\ git (snd (load_profiles a)) = git a
  /\ exists e,
       (e = FileNotFoundError \/ e = KeyringError)
       /\ ui (snd (load_profiles a))
          = (ui a ++ [Critical "Failed to load profiles" e])%list.
Proof.
  intros Hi. split; [apply load_profiles_ok|].
  split; [|split; [apply (frames_load_profiles_git a)|]].
  - unfold load_profiles, try_except. unfold bind at 1.
    pose proof (frames_load_keyring_profiles profiles a) as Hp1.
    pose proof (frames_load_keyring_profiles git a) as Hg1.
    destruct (load_keyring_profiles a) as [[kp|e] a1]; simpl in Hp1, Hg1;
      [|simpl; exact Hp1].
    unfold bind at 1. rewrite get_git_credentials_missing by (rewrite Hg1; exact Hi).
    simpl. exact Hp1.
  - unfold load_profiles, try_except. unfold bind at 1.
    pose proof (frames_load_keyring_profiles ui a) as Hu1.
    pose proof (frames_load_keyring_profiles git a) as Hg1.
    pose proof (load_keyring_profiles_raises a) as He.
    destruct (load_keyring_profiles a) as [[kp|e] a1]; simpl in Hu1, Hg1.
    + unfold bind at 1. rewrite get_git_credentials_missing by (rewrite Hg1; exact Hi).
      simpl. exists FileNotFoundError. rewrite Hu1. auto.
    + simpl. exists e. rewrite Hu1. split; [|reflexivity].
      right. now apply (He e a1).
Qed.

(** X16.  When git cannot be run, [load_profiles] reports its failure once
    and merges nothing, and [__init__] itself then fails with
    [FileNotFoundError] (the [except] of [get_current_profile] only catches
    [CalledProcessError]), with no profile loaded. *)
Theorem init_without_git (a : App) :
  git_installed (git a) = false ->
  fst (init a) = Raise FileNotFoundError
  /\ profiles (snd (init a)) = []
  /\ exists e,
       (e = FileNotFoundError \/ e = KeyringError)
       /\ ui (snd (init a)) = (ui a ++ [Critical "Failed to load profiles" e])%list.
Proof.
  intros Hi. unfold init, bind, set_profiles.
  set (a0 := mkApp [] (git a) (keyring a) (ui a)).
  destruct (load_profiles_without_git a0 Hi) as (Hr & Hp & Hg & e & He & Hu).
  destruct (load_profiles a0) as [r a1]. simpl in Hr, Hp, Hg, Hu. subst r.
  rewrite get_current_profile_missing by (rewrite Hg; exact Hi).
  simpl. split; [reflexivity|]. split; [exact Hp|]. exists e. auto.
Qed.

Lemma init_without_git_witness :
  let a := mkApp [] (mkGit false (fun _ => false) (fun _ => None) [])
             (keyring_of alice_and_bob) [] in
  fst (init a) = Raise FileNotFoundError
  /\ profiles (snd (init a)) = []
  /\ exists e,
       (e = FileNotFoundError \/ e = KeyringError)
       /\ ui (snd (init a)) = (ui a ++ [Critical "Failed to load profiles" e])%list.
Proof.
  apply (init_without_git
           (mkApp [] (mkGit false (fun _ => false) (fun _ => None) [])
              (keyring_of alice_and_bob) [])).
  reflexivity.
Defined.

(** ** Editing the tag (list front-end) *)

(** X17.  [edit_tag] on a stored profile, the prompt accepted, writes the tag
    and nothing else: the other fields of the profile, the other profiles,
    the order, the current profile and git are as before. *)
Theorem edit_tag_frame (a : App) (id new_tag : string) (p : Profile) :
  dict_get id (profiles a) = Some p ->
  let a' := snd (edit_tag (Some id) new_tag true a) in
  dict_get id (profiles a') = Some (set_tag new_tag p)
  /\ (forall k, k <> id -> dict_get k (profiles a') = dict_get k (profiles a))
  /\ keys (profiles a') = keys (profiles a)
  /\ active (profiles a') = active (profiles a)
  /\ git a' = git a.
Proof.
  intros Hget.
  assert (H : profiles (snd (edit_tag (Some id) new_tag true a))
              = dict_update id (set_tag new_tag) (profiles a)
              /\ git (snd (edit_tag (Some id) new_tag true a)) = git a).
  { unfold edit_tag, try_except, bind, get_profiles, set_profiles. rewrite Hget.
    set (a1 := mkApp _ _ _ _).
    pose proof (save_profiles_ok a1) as Hs1.
    pose proof (frames_save_profiles_profiles a1) as Hs2.
    pose proof (frames_save_profiles_git a1) as Hs3.
    destruct (save_profiles a1) as [r a2]. simpl in Hs1, Hs2, Hs3. subst r.
    simpl. auto. }
  destruct H as [Hp Hg]. simpl. rewrite Hp, Hg. repeat split.
  - now rewrite dict_get_update_same, Hget.
  - intros k Hk. now apply dict_get_update_other.
  - apply keys_dict_update.
  - now apply active_dict_update.
Qed.

Lemma edit_tag_frame_witness :
  let a' := snd (edit_tag (Some "bob") "home" true app_alice_and_bob) in
  dict_get "bob" (profiles a')
  = Some (set_tag "home" (sample_profile "Bob B" "b@x.com" "t2" false))
  /\ (forall k, k <> "bob" -> dict_get k (profiles a') = dict_get k alice_and_bob)
  /\ keys (profiles a') = keys alice_and_bob
  /\ active (profiles a') = active alice_and_bob
  /\ git a' = git app_alice_and_bob.
Proof.
  apply (edit_tag_frame app_alice_and_bob "bob" "home"
           (sample_profile "Bob B" "b@x.com" "t2" false)).
  reflexivity.
Defined.

(** ** The launcher *)

Module SetupFacts.
Import Setup.
Open Scope Z_scope.


Example version_examples :
  check_python_version [3; 9; 18] = true
  /\ check_python_version [3; 10; 0] = false
  /\ check_python_version [4; 0; 0] = false
  /\ check_pip_version [24] = true
  /\ check_pip_version [24; 2; 1] = false
  /\ check_pip_version [24; 10] = false
  /\ check_pip_version [23; 3; 1] = true.
Proof. repeat split. Qed.

End SetupFacts.

(** ** The countdown and the transient failures of the dialog *)

Module OAuthMore.
Import OAuth.
Open Scope Z_scope.

(** Everything of the dialog but its log of network errors. *)
Definition session (d : Dialog) :=
  (expires_in d, interval d, timer_active d, poll_timer_active d,
   poll_timer_interval d, retry_enabled d, timer_label d, result d,
   emitted d, warnings d).

Definition is_failure (e : Event) : bool :=
  match e with
  | Poll PollFailed => true
  | _ => false
  end.

Lemma ticks_nonneg events : 0 <= ticks events.
Proof. induction events as [|[|r] events IH]; cbn [ticks]; lia. Qed.

Lemma poll_keeps_countdown d response :
  expires_in (fire d (Poll response)) = expires_in d
  /\ timer_active (fire d (Poll response)) = timer_active d
  /\ retry_enabled (fire d (Poll response)) = retry_enabled d
  /\ timer_label (fire d (Poll response)) = timer_label d.
Proof.
  simpl. destruct (poll_timer_active d); [|auto].
  destruct response as [|[error|] [tok|] suggested]; simpl; auto;
    repeat match goal with |- context [(?s =? ?t)%string] =>
      destruct (s =? t)%string end; simpl; auto.
Qed.

Lemma run_stopped events d :
  timer_active d = false ->
  expires_in (run d events) = expires_in d
  /\ timer_active (run d events) = false
  /\ retry_enabled (run d events) = retry_enabled d
  /\ timer_label (run d events) = timer_label d.
Proof.
  revert d. induction events as [|[|r] events IH]; intros d H; simpl run; [auto| |].
  - simpl fire. rewrite H. now apply IH.
  - destruct (poll_keeps_countdown d r) as (H1 & H2 & H3 & H4).
    rewrite <- H1, <- H3, <- H4. apply IH. congruence.
Qed.

Lemma run_counting events d :
  timer_active d = true -> 0 < expires_in d -> retry_enabled d = false ->
  timer_label d = expires_in d ->
  expires_in (run d events) = Z.max 0 (expires_in d - ticks events)
  /\ timer_active (run d events) = (ticks events <? expires_in d)
  /\ retry_enabled (run d events) = (expires_in d <=? ticks events)
  /\ timer_label (run d events) = expires_in (run d events).
Proof.
  revert d. induction events as [|[|r] events IH]; intros d Ha He Hr Hl.
  - simpl. repeat split; try assumption.
    + lia.
    + rewrite Ha. symmetry. apply Z.ltb_lt. exact He.
    + rewrite Hr. symmetry. apply Z.leb_gt. exact He.
  - pose proof (ticks_nonneg events) as Ht.
    change (run d (Tick :: events)) with (run (fire d Tick) events).
    simpl fire. rewrite Ha. cbn [ticks].
    destruct (Z.leb_spec (expires_in d - 1) 0) as [Hz|Hz].
    + assert (Hs : timer_active (update_timer d) = false).
      { unfold update_timer; cbn [expires_in timer_active retry_enabled timer_label].
        destruct (Z.leb_spec (expires_in d - 1) 0); [reflexivity | lia]. }
      destruct (run_stopped events (update_timer d) Hs) as (H1 & H2 & H3 & H4).
      rewrite H1, H2, H3, H4. unfold update_timer; cbn [expires_in timer_active retry_enabled timer_label].
      destruct (Z.leb_spec (expires_in d - 1) 0); [|lia].
      repeat split.
      * lia.
      * symmetry. apply Z.ltb_ge. lia.
      * symmetry. apply Z.leb_le. lia.
    + assert (Hu : timer_active (update_timer d) = true
                   /\ expires_in (update_timer d) = expires_in d - 1
                   /\ retry_enabled (update_timer d) = false
                   /\ timer_label (update_timer d) = expires_in d - 1).
      { unfold update_timer; cbn [expires_in timer_active retry_enabled timer_label].
        destruct (Z.leb_spec (expires_in d - 1) 0); [lia | auto]. }
      destruct Hu as (U1 & U2 & U3 & U4).
      destruct (IH (update_timer d)) as (H1 & H2 & H3 & H4);
        try assumption; try lia; try congruence.
      rewrite H1, H2, H3, H4, U2. repeat split.
      * f_equal. lia.
      * destruct (Z.ltb_spec (ticks events) (expires_in d - 1));
          destruct (Z.ltb_spec (1 + ticks events) (expires_in d)); try reflexivity; lia.
      * destruct (Z.leb_spec (expires_in d - 1) (ticks events));
          destruct (Z.leb_spec (expires_in d) (1 + ticks events)); try reflexivity; lia.
      * f_equal. lia.
  - change (run d (Poll r :: events)) with (run (fire d (Poll r)) events).
    destruct (poll_keeps_countdown d r) as (H1 & H2 & H3 & H4).
    cbn [ticks]. rewrite <- H1. apply IH; congruence.
Qed.

(** X20.  The countdown of a dialog opened with a positive [expires_in],
    whatever polls come in between: after [k] countdown ticks the remaining
    time is [expires_in - k], never below zero; the countdown timer runs
    exactly while fewer than [expires_in] ticks have come, and the retry
    button is enabled exactly from the tick that reaches zero on; the label
    always shows the remaining time. *)
Theorem countdown (expires interval0 : Z) (events : list Event) :
  0 < expires ->
  let d := run (init_ui expires interval0) events in
  expires_in d = Z.max 0 (expires - ticks events)
  /\ timer_active d = (ticks events <? expires)
  /\ retry_enabled d = (expires <=? ticks events)
  /\ timer_label d = expires_in d.
Proof.
  intros H. apply (run_counting events (init_ui expires interval0));
    simpl; auto.
Qed.

Lemma countdown_witness :
  let d := run (init_ui 2 5)
             [Tick; Poll (Json (Some "authorization_pending"%string) None None);
              Tick; Tick] in
  expires_in d = Z.max 0 (2 - 3)
  /\ timer_active d = (3 <? 2)
  /\ retry_enabled d = (2 <=? 3)
  /\ timer_label d = expires_in d.
Proof.
  apply (countdown 2 5
           [Tick; Poll (Json (Some "authorization_pending"%string) None None);
            Tick; Tick]).
  reflexivity.
Defined.

Lemma fire_session d d' e :
  session d = session d' -> session (fire d e) = session (fire d' e).
Proof.
  destruct d as [ex iv ta pa pi re tl rs em wa er],
           d' as [ex' iv' ta' pa' pi' re' tl' rs' em' wa' er'].
  unfold session. simpl. intros [= -> -> -> -> -> -> -> -> -> ->].
  destruct e as [|response]; simpl.
  - destruct ta'; reflexivity.
  - destruct pa'; [|reflexivity].
    destruct response as [|[error|] [tok|] suggested]; simpl; try reflexivity;
      repeat match goal with |- context [(?s =? ?t)%string] =>
        destruct (s =? t)%string end; reflexivity.
Qed.

Lemma fire_failure d : session (fire d (Poll PollFailed)) = session d.
Proof.
  destruct d as [ex iv ta pa pi re tl rs em wa er]. unfold session. simpl.
  now destruct pa.
Qed.

Lemma run_session events d d' :
  session d = session d' ->
  session (run d events)
  = session (run d' (filter (fun e => negb (is_failure e)) events)).
Proof.
  revert d d'. induction events as [|e events IH]; intros d d' H; [exact H|].
  change (run d (e :: events)) with (run (fire d e) events).
  destruct (is_failure e) eqn:Ef; simpl filter; rewrite Ef; simpl negb; cbv iota.
  - apply IH. destruct e as [|[|]]; try discriminate.
    now rewrite fire_failure.
  - change (run d' (e :: ?l)) with (run (fire d' e) l).
    apply IH. now apply fire_session.
Qed.

(** X21.  Network failures while polling are transient: a run of the dialog
    ends in the same session (countdown, interval, timers, result, emitted
    tokens, warnings) as the run with the failed polls left out; a failed
    poll only adds to the log of reported errors. *)
Theorem failed_polls_are_transient (expires interval0 : Z) (events : list Event) :
  session (run (init_ui expires interval0) events)
  = session (run (init_ui expires interval0)
               (filter (fun e => negb (is_failure e)) events)).
Proof. now apply run_session. Qed.

End OAuthMore.

(** ** Write-through: the keyring stays in step with the profiles *)

Section KeepsState.
Context (I : App -> Prop).

Lemma keeps_state_ret {A} (x : A) : keeps_state I (ret x).
Proof. intros a Ha. exact Ha. Qed.

Lemma keeps_state_raise {A} e : keeps_state I (@raise A e).
Proof. intros a Ha. exact Ha. Qed.

Lemma keeps_state_bind {A B} (m : M A) (k : A -> M B) :
  keeps_state I m -> (forall x, keeps_state I (k x)) -> keeps_state I (bind m k).
Proof.
  intros Hm Hk a Ha. unfold bind. specialize (Hm a Ha).
  destruct (m a) as [[x|e] a1]; simpl in *; [|exact Hm].
  now apply Hk.
Qed.

Lemma keeps_state_try {A} (body : M A) catches handler :
  keeps_state I body -> (forall e, keeps_state I (handler e)) ->
  keeps_state I (try_except body catches handler).
Proof.
  intros Hm Hh a Ha. unfold try_except. specialize (Hm a Ha).
  destruct (body a) as [[x|e] a1]; simpl in *; [exact Hm|].
  destruct (catches e); [now apply Hh | exact Hm].
Qed.

Lemma keeps_state_get_profiles {B} (k : dict Profile -> M B) :
  (forall a, I a -> I (snd (k (profiles a) a))) ->
  keeps_state I (bind get_profiles k).
Proof. intros H a Ha. unfold bind, get_profiles. now apply H. Qed.

End KeepsState.

Lemma in_step_frames {A} (m : M A) :
  frames profiles m -> frames keyring m -> frames git_oracle m ->
  keeps_state in_step m.
Proof.
  intros Hp Hk Hg a [(Hwf & Hok & Hi) [Hu Hr]].
  specialize (Hp a). specialize (Hk a). specialize (Hg a).
  unfold git_oracle in Hg. injection Hg as Hg1 Hg2.
  unfold in_step, ready, persisted, kr_ok. rewrite Hp, Hk, Hg1. auto.
Qed.

Lemma ready_frames {A} (m : M A) :
  frames profiles m -> frames keyring_oracle m -> frames git_oracle m ->
  keeps_state ready m.
Proof.
  intros Hp Hk Hg a (Hwf & Hok & Hi).
  specialize (Hp a). specialize (Hk a). specialize (Hg a).
  unfold git_oracle in Hg. injection Hg as Hg1 Hg2. unfold keyring_oracle in Hk.
  unfold ready, kr_ok. rewrite Hp, Hk, Hg1. auto.
Qed.

Lemma named_keys P P' : keys P' = keys P -> named P -> named P'.
Proof. unfold named, wf, logins. now intros ->. Qed.

Lemma named_dict_del k P : named P -> named (dict_del k P).
Proof.
  intros [Hwf Hl]. split; [now apply wf_dict_del|].
  intros x Hx. apply Hl. now apply (keys_dict_del_incl k).
Qed.

Lemma keys_dict_set k (p : Profile) P :
  keys (dict_set k p P) = keys P \/ keys (dict_set k p P) = (keys P ++ [k])%list.
Proof.
  induction P as [|[k' v] P IH]; simpl; [now right|].
  destruct (k' =? k) eqn:E; simpl.
  - apply String.eqb_eq in E. subst. now left.
  - destruct IH as [-> | ->]; [now left | now right].
Qed.

Lemma named_dict_set k p P : login k = true -> named P -> named (dict_set k p P).
Proof.
  intros Hk [Hwf Hl]. split; [now apply wf_dict_set|].
  intros x Hx. destruct (keys_dict_set k p P) as [E|E]; rewrite E in Hx.
  - now apply Hl.
  - apply in_app_or in Hx. destruct Hx as [Hx|[<-|[]]]; [now apply Hl | exact Hk].
Qed.

Lemma logins_no_comma P : logins P -> forallb no_comma (keys P) = true.
Proof.
  intros H. apply forallb_forall. intros x Hx. specialize (H x Hx).
  unfold login in H. apply andb_prop in H. destruct H as [H _].
  apply andb_prop in H. now destruct H.
Qed.

Lemma logins_not_empty P : logins P -> keys P <> [""].
Proof.
  intros H E. specialize (H ""). rewrite E in H. specialize (H (or_introl eq_refl)).
  discriminate.
Qed.

Lemma keeps_state_show e : keeps_state in_step (show e).
Proof. apply in_step_frames; intros a; reflexivity. Qed.

Lemma save_profiles_in_step a : ready a -> in_step (snd (save_profiles a)).
Proof.
  intros (Hwf & Hok & Hi).
  destruct (save_profiles_keyring a (Hok SetPassword)) as (Hu & Hr & Hf).
  pose proof (frames_save_profiles_profiles a) as Hp.
  pose proof (frames_save_profiles_git a) as Hg.
  unfold in_step, ready, persisted, kr_ok. rewrite Hp, Hg, Hf, Hu, Hr.
  split; [split; [exact Hwf | split; assumption] | split; [reflexivity|]].
  intros k v Hin. apply records_after_stored; [apply Hwf | exact Hin].
Qed.

(** [self.profiles = d] followed by [save_profiles()] and more. *)
Lemma set_save_in_step {B} (d : dict Profile) (rest : M B) a :
  ready a -> named d -> keeps_state in_step rest ->
  in_step (snd (bind (set_profiles d) (fun _ => bind save_profiles (fun _ => rest)) a)).
Proof.
  intros (Hwf & Hok & Hi) Hd Hrest. unfold bind, set_profiles.
  set (a1 := mkApp d (git a) (keyring a) (ui a)).
  assert (H1 : ready a1) by (split; [exact Hd | split; assumption]).
  apply save_profiles_in_step in H1.
  pose proof (save_profiles_ok a1) as Hr.
  destruct (save_profiles a1) as [r a2]. simpl in *. subst r. now apply Hrest.
Qed.

Lemma keeps_state_update_current_profile u :
  keeps_state in_step (update_current_profile u).
Proof.
  intros a [(Hwf & Hok & Hi) _].
  unfold update_current_profile, bind, get_profiles, set_profiles.
  apply save_profiles_in_step. split; [|now split].
  apply (named_keys (profiles a)); [|exact Hwf].
  unfold mark_current. simpl. now rewrite keys_map_values.
Qed.

Lemma frames_update_git_config_keyring u n e t :
  frames keyring (update_git_config u n e t).
Proof. unfold update_git_config, remove_all_github_credentials. frames. Qed.

Lemma frames_update_git_config_oracle u n e t :
  frames git_oracle (update_git_config u n e t).
Proof.
  unfold update_git_config, remove_all_github_credentials, handle_error.
  apply frames_try; [|intros x a; reflexivity].
  apply frames_bind.
  { apply frames_try; [|intros x; apply frames_ret].
    now apply frames_subprocess_run_oracle. }
  intros _. repeat (apply frames_bind; [now apply frames_subprocess_run_oracle | intros _]).
  now apply frames_subprocess_run_oracle.
Qed.

Lemma keeps_state_update_git_config u n e t :
  keeps_state in_step (update_git_config u n e t).
Proof.
  apply in_step_frames;
    [apply frames_update_git_config_profiles | apply frames_update_git_config_keyring
    | apply frames_update_git_config_oracle].
Qed.

Lemma keeps_state_switch_to_profile u : keeps_state in_step (switch_to_profile u).
Proof.
  unfold switch_to_profile. apply keeps_state_get_profiles. intros a Ha.
  destruct (dict_get u (profiles a)) as [p|]; [|exact Ha].
  destruct (profile_truthy p); [|exact Ha].
  destruct (Py.truthy (token p)); [|exact Ha].
  revert a Ha. apply keeps_state_bind; [apply keeps_state_update_git_config|].
  intros _. apply keeps_state_bind; [apply keeps_state_update_current_profile|].
  intros _. apply keeps_state_show.
Qed.

Lemma keeps_state_switch_profile selected :
  keeps_state in_step (switch_profile selected).
Proof.
  unfold switch_profile. apply keeps_state_try; [|intros e; apply keeps_state_show].
  destruct selected as [u|];
    [apply keeps_state_switch_to_profile | apply keeps_state_show].
Qed.

Lemma keeps_state_subprocess_run check cmd eff :
  (forall g, git_installed (eff g) = git_installed g) ->
  (forall g, git_fails (eff g) = git_fails g) ->
  keeps_state in_step (subprocess_run check cmd eff).
Proof.
  intros H1 H2. apply in_step_frames;
    [apply frames_subprocess_run_profiles | apply frames_subprocess_run_keyring
    | now apply frames_subprocess_run_oracle].
Qed.

Lemma keeps_state_remove_all : keeps_state in_step remove_all_github_credentials.
Proof.
  unfold remove_all_github_credentials.
  apply keeps_state_try; [|intros e; apply keeps_state_ret].
  now apply keeps_state_subprocess_run.
Qed.

Lemma keeps_state_clear_git_config : keeps_state in_step clear_git_config.
Proof.
  unfold clear_git_config.
  apply keeps_state_try; [|intros e; apply keeps_state_show].
  do 3 (apply keeps_state_bind; [now apply keeps_state_subprocess_run | intros _]).
  apply keeps_state_bind; [apply keeps_state_remove_all | intros _].
  apply keeps_state_get_profiles. intros a [Hr _].
  apply set_save_in_step; [exact Hr | | apply keeps_state_show].
  destruct Hr as (Hwf & _). apply (named_keys (profiles a)); [|exact Hwf].
  unfold clear_current. now rewrite keys_map_values.
Qed.

Lemma keeps_state_edit_profile selected accepted new_name new_email new_tag :
  keeps_state in_step (edit_profile selected accepted new_name new_email new_tag).
Proof.
  unfold edit_profile. apply keeps_state_try; [|intros e; apply keeps_state_show].
  destruct selected as [u|]; [|apply keeps_state_show].
  apply keeps_state_get_profiles. intros a Ha.
  destruct (dict_get u (profiles a)) as [p|]; [|now apply keeps_state_show].
  destruct (profile_truthy p); [|now apply keeps_state_show].
  destruct accepted; [|exact Ha].
  destruct Ha as [Hr _]. apply set_save_in_step; [exact Hr | |].
  - destruct Hr as (Hwf & _). apply (named_keys (profiles a)); [|exact Hwf].
    apply keys_dict_update.
  - apply keeps_state_bind; [|intros _; apply keeps_state_show].
    destruct (get_is_current p); [|apply keeps_state_ret].
    destruct (Py.truthy (token p));
      [apply keeps_state_update_git_config | apply keeps_state_ret].
Qed.

Lemma keeps_state_edit_tag selected new_tag ok :
  keeps_state in_step (edit_tag selected new_tag ok).
Proof.
  unfold edit_tag. apply keeps_state_try; [|intros e; apply keeps_state_show].
  destruct selected as [u|]; [|apply keeps_state_show].
  apply keeps_state_get_profiles. intros a Ha.
  destruct (dict_get u (profiles a)) as [p|]; [|exact Ha].
  destruct ok; [|exact Ha].
  destruct Ha as [Hr _]. apply set_save_in_step; [exact Hr | | apply keeps_state_show].
  destruct Hr as (Hwf & _). apply (named_keys (profiles a)); [|exact Hwf].
  apply keys_dict_update.
Qed.

Lemma keeps_state_get_current_profile : keeps_state in_step get_current_profile.
Proof. apply in_step_frames; apply frames_get_current_profile. Qed.

(** What [get_github_user_info] returns as login is the login of the
    answer, or nothing. *)
Lemma get_github_user_info_login response a u n e av :
  fst (get_github_user_info response a) = Ok (Some u, n, e, av) ->
  exists code l, response = Status code (Some u) n l av /\ e = l.
Proof.
  rewrite get_github_user_info_run.
  destruct response as [|code l n' e' av']; [discriminate|].
  destruct (code =? 200)%Z; [|discriminate].
  simpl. intros [= -> -> -> ->]. eauto.
Qed.

Lemma keeps_state_handle_oauth_completion token response tag ok :
  adds_login (AddAccount token response tag ok) = true ->
  keeps_state in_step (handle_oauth_completion token response tag ok).
Proof.
  intros Hlogin. unfold handle_oauth_completion.
  destruct (token =? ""); [apply keeps_state_show|].
  apply keeps_state_try; [|intros e; apply keeps_state_show].
  intros a Ha. unfold bind at 1.
  assert (H0 : in_step (snd (get_github_user_info response a))).
  { rewrite get_github_user_info_run.
    destruct response as [|code l n e av]; [now apply keeps_state_show|].
    now destruct (code =? 200)%Z. }
  pose proof (get_github_user_info_login response a) as Hl.
  destruct (get_github_user_info response a) as [[[[[u n] e] av]|x] a0];
    simpl in H0; [|exact H0].
  destruct u as [username|]; [|exact H0].
  destruct (username =? "") eqn:Hne; simpl; [exact H0|].
  destruct (Hl username n e av eq_refl) as (code & l & -> & _).
  simpl in Hlogin. rewrite Hne in Hlogin. simpl in Hlogin.
  clear Hl. revert a0 H0. apply keeps_state_get_profiles. intros a0 Ha0.
  destruct (dict_mem username (profiles a0)); simpl; [now apply keeps_state_show|].
  destruct ok; [|exact Ha0].
  destruct Ha0 as [Hr _]. apply set_save_in_step; [exact Hr | |].
  - destruct Hr as (Hwf & _). now apply named_dict_set.
  - apply keeps_state_bind; [apply keeps_state_get_current_profile|].
    intros current. destruct (negb (Py.truthy current)); [|apply keeps_state_show].
    apply keeps_state_bind; [apply keeps_state_update_current_profile | intros _].
    apply keeps_state_bind; [apply keeps_state_switch_to_profile | intros _].
    apply keeps_state_show.
Qed.

Lemma keeps_state_delete_profile selected reply_yes :
  keeps_state in_step (delete_profile selected reply_yes).
Proof.
  unfold delete_profile. apply keeps_state_try; [|intros e; apply keeps_state_show].
  destruct selected as [u|]; [|apply keeps_state_show].
  apply keeps_state_get_profiles. intros a Ha.
  destruct (dict_get u (profiles a)) as [p|]; [|exact Ha].
  destruct (get_is_current p && negb reply_yes); [exact Ha|].
  destruct Ha as [(Hwf & Hok & Hi) _].
  unfold bind at 1, set_profiles. unfold bind at 1.
  unfold keyring_delete_password, keyring_run. simpl. rewrite (Hok DeletePassword).
  set (a1 := mkApp _ _ _ _).
  assert (H1 : ready a1).
  { split; [now apply named_dict_del | split; [exact Hok | exact Hi]]. }
  unfold bind at 1.
  destruct (remove_git_credential_spec u a1 Hi) as (Hr & Hp & Hi2 & _ & Hk2).
  destruct (remove_git_credential u a1) as [r a2]. simpl in Hr, Hp, Hi2, Hk2. subst r.
  assert (H2 : ready a2).
  { destruct H1 as (Hw1 & Hok1 & _). unfold ready, kr_ok.
    rewrite Hp. unfold keyring_oracle in Hk2. rewrite Hk2. auto. }
  unfold bind at 1.
  apply save_profiles_in_step in H2.
  pose proof (save_profiles_ok a2) as Hs.
  destruct (save_profiles a2) as [r a3]. simpl in H2, Hs. subst r.
  revert a3 H2. apply keeps_state_bind; [|intros _; apply keeps_state_show].
  destruct (get_is_current p); [|apply keeps_state_ret].
  apply keeps_state_get_profiles. intros a' Ha'.
  destruct (profiles a');
    [now apply keeps_state_clear_git_config | now apply keeps_state_switch_to_profile].
Qed.

Lemma in_step_loads a :
  in_step a -> fst (load_keyring_profiles a) = Ok (profiles a).
Proof.
  intros [([Hwf Hl] & Hok & _) [Hu Hr]].
  unfold load_keyring_profiles, bind, keyring_get_usernames, keyring_run.
  rewrite (Hok GetPassword), Hu.
  change (Some (join_comma (keys (profiles a))))
    with (kr_usernames (keyring_of (profiles a))).
  rewrite index_of_keys
    by (now apply logins_no_comma || now apply logins_not_empty).
  apply (load_keyring_loop_stored (profiles a) []).
  - simpl. apply Hok.
  - exact Hwf.
  - exact Hr.
Qed.

(** X22.  Write-through: when the keyring answers, git can be run and the
    user names are ones the keyring can hold (not empty, without a comma,
    not [usernames]), every operation of the window (add account, switch,
    edit, edit tag, delete, clear) that starts with the keyring in step with
    [self.profiles] ends with it in step again, provided the login of an
    added account is such a user name too; so what [load_keyring_profiles]
    would read at that point is exactly [self.profiles], whether the
    operation went through, was refused or failed half-way. *)
Theorem keyring_in_step (a : App) (op : Op) :
  in_step a ->
  adds_login op = true ->
  in_step (snd (run_op op a))
  /\ fst (load_keyring_profiles (snd (run_op op a))) = Ok (profiles (snd (run_op op a))).
Proof.
  intros Ha Hop.
  assert (H : in_step (snd (run_op op a))).
  { destruct op; simpl.
    - now apply keeps_state_handle_oauth_completion.
    - now apply keeps_state_switch_profile.
    - now apply keeps_state_edit_profile.
    - now apply keeps_state_edit_tag.
    - now apply keeps_state_delete_profile.
    - now apply keeps_state_clear_git_config. }
  split; [exact H | now apply in_step_loads].
Qed.

Lemma in_step_alice_and_bob : in_step app_alice_and_bob.
Proof.
  split.
  - split; [split; [exact wf_alice_and_bob|] | split; [intros op; reflexivity | reflexivity]].
    intros k [<-|[<-|[]]]; reflexivity.
  - split; [reflexivity|].
    intros k v [[= <- <-]|[[= <- <-]|[]]]; reflexivity.
Defined.

Lemma keyring_in_step_witness :
  let a' := snd (run_op (DeleteProfile (Some "alice") true) app_alice_and_bob) in
  in_step a' /\ fst (load_keyring_profiles a') = Ok (profiles a').
Proof.
  apply (keyring_in_step app_alice_and_bob (DeleteProfile (Some "alice") true)).
  - exact in_step_alice_and_bob.
  - reflexivity.
Defined.
